(** * rc's distributed-namespace builtins (dist.c, dist.h)

    A shallow embedding of the bind table, the path canonicalizer, the
    namespace resolver and the builtins [bind], [mount], [unmount], [ns],
    [cpu], [import], [srv], [rfork] and [addns], followed by the properties
    established about them.

    Conventions.
    - A C string is a [string]; a nullable [char *] is an [option string].
    - [int] values are [Z]; [unsigned int] arithmetic is reduced modulo 2^32
      where the source relies on it ([pathhash]).
    - [bindtab] (an array of [BIND_MAX] chain heads) is a function from the
      bucket index to the chain, a chain (linked through the field [n]) is
      the list of its entries from the head on.
    - The operating system and the host shell are not part of dist.c: they
      are taken as an interface ([OS], [Shell]) the builtins are written
      against, and the properties hold for every implementation of it.
    - A builtin is a function from the state of the process ([World]) to
      its state afterwards; what it prints and launches is appended to
      [out].  [b_cpu], which writes to two arrays of fixed size, has no
      result ([None]) when a write falls outside them. *)

From Stdlib Require Import ZArith List String Ascii Bool Lia.
From Stdlib Require DecimalString FinFun.
Import ListNotations.
Local Open Scope string_scope.
Local Open Scope list_scope.
Local Open Scope Z_scope.

Infix "+++" := String.append (right associativity, at level 60).

(** ** dist.h *)

Definition BIND_REPLACE : Z := 0.
Definition BIND_BEFORE : Z := 1.
Definition BIND_AFTER : Z := 2.
Definition BIND_CREATE : Z := 4.

Definition RFNAMEG : Z := Z.shiftl 1 0.
Definition RFCNAMEG : Z := Z.shiftl 1 1.
Definition RFENVG : Z := Z.shiftl 1 2.
Definition RFCENVG : Z := Z.shiftl 1 3.
Definition RFNOTEG : Z := Z.shiftl 1 4.
Definition RFFDG : Z := Z.shiftl 1 5.
Definition RFCFDG : Z := Z.shiftl 1 6.

Definition BIND_MAX : Z := 256.
Definition SRV_DIR : string := "/tmp/rc-srv".

(** [struct Bind]; the link [n] is the tail of the chain the entry is in. *)
Record Bind : Type := mkBind {
  from : string;
  to : string;
  mode : Z
}.

(** ** C idioms *)

(** [e != 0] for an [int] expression used as a condition. *)
Definition nz (e : Z) : bool := negb (e =? 0).

(** [streq] of the host shell: equality of C strings. *)
Definition streq (a b : string) : bool := String.eqb a b.

(** [strchr(s, c) != NULL] for a character [c] other than NUL. *)
Fixpoint strchr (s : string) (c : ascii) : bool :=
  match s with
  | EmptyString => false
  | String d s' => if Ascii.eqb d c then true else strchr s' c
  end.

(** [(unsigned char)c]. *)
Definition uchar (c : ascii) : Z := Z.of_N (N_of_ascii c).

(** What [snprintf(dst, size, ...)] leaves in [dst] when the formatted text
    is [s] and [0 < size]: at most [size - 1] characters. *)
Definition truncate (size : Z) (s : string) : string :=
  substring 0 (Z.to_nat (size - 1)) s.

(** ** Internal helpers *)

Fixpoint pathhash_loop (s : string) (h : Z) : Z :=
  match s with
  | EmptyString => h
  | String c s' => pathhash_loop s' ((h * 31 + uchar c) mod 2 ^ 32)
  end.

Definition pathhash (s : string) : Z := pathhash_loop s 0 mod BIND_MAX.

(** The loop of [cleanpath] that strips trailing slashes, on the characters
    of the path in reverse order: [len > 1 && resolved[len - 1] == '/']. *)
Fixpoint strip_rev (r : list ascii) : list ascii :=
  match r with
  | c :: ((_ :: _) as r') => if Ascii.eqb c "/" then strip_rev r' else r
  | _ => r
  end.

Definition strip_slashes (path : string) : string :=
  string_of_list_ascii (rev (strip_rev (rev (list_ascii_of_string path)))).

Section Canonical.

(** [realpath(path, buf) != NULL ? buf : NULL]. *)
Variable realpath : string -> option string.

Definition cleanpath (path : option string) : string :=
  match path with
  | None => "."
  | Some EmptyString => "."
  | Some p =>
      match realpath p with
      | Some buf => buf
      | None => strip_slashes p
      end
  end.

End Canonical.

(** ** Namespace bind table *)

(** The two file-scope variables [bindtab] and [nbinds]. *)
Record Table : Type := mkTable {
  bindtab : Z -> list Bind;
  nbinds : Z
}.

(** [bindtab[h] = chain]. *)
Definition set_bucket (t : Z -> list Bind) (h : Z) (chain : list Bind)
  : Z -> list Bind :=
  fun i => if i =? h then chain else t i.

Fixpoint find_chain (key : string) (chain : list Bind) : option Bind :=
  match chain with
  | [] => None
  | b :: n => if streq (to b) key then Some b else find_chain key n
  end.

Definition find_bind (t : Table) (key : string) : option Bind :=
  find_chain key (bindtab t (pathhash key)).

(** The replace loop of [add_bind]: unlink every entry whose [to] is [key]. *)
Fixpoint unlink_to (key : string) (chain : list Bind) : list Bind :=
  match chain with
  | [] => []
  | old :: n =>
      if streq (to old) key then unlink_to key n else old :: unlink_to key n
  end.

Definition add_bind (src dst : string) (m : Z) (t : Table) : Table :=
  let h := pathhash dst in
  let b := mkBind src dst
             (Z.land m (Z.lor (Z.lor BIND_BEFORE BIND_AFTER) BIND_REPLACE)) in
  let chain := bindtab t h in
  let chain' :=
    match find_bind t dst with
    | Some _ =>
        if nz (Z.land m BIND_BEFORE) then b :: chain
        else if nz (Z.land m BIND_AFTER) then chain ++ [b]
        else b :: unlink_to dst chain
    | None => b :: chain
    end in
  mkTable (set_bucket (bindtab t) h chain') (nbinds t + 1).

(** The loop of [remove_bind] over one chain: the chain it leaves and the
    number of entries it unlinked (each one decrements [nbinds]). *)
Fixpoint remove_chain (src : option string) (key : string)
    (chain : list Bind) : list Bind * Z :=
  match chain with
  | [] => ([], 0)
  | b :: n =>
      if streq (to b) key &&
         match src with None => true | Some f => streq (from b) f end
      then
        match src with
        | Some _ => (n, 1)
        | None => let (n', k) := remove_chain src key n in (n', k + 1)
        end
      else let (n', k) := remove_chain src key n in (b :: n', k)
  end.

(** [remove_bind] returns [found] and updates the table. *)
Definition remove_bind (src : option string) (key : string) (t : Table)
  : Table * bool :=
  let h := pathhash key in
  let (chain', k) := remove_chain src key (bindtab t h) in
  (mkTable (set_bucket (bindtab t) h chain') (nbinds t - k), 0 <? k).

(** [dist_init]. *)
Definition dist_init : Table := mkTable (fun _ => []) 0.

(** [ns_lookup] and [ns_count]. *)
Definition ns_lookup (t : Table) (mountpoint : string) : option Bind :=
  find_bind t mountpoint.

Definition ns_count (t : Table) : Z := nbinds t.

Section Resolve.

Variable realpath : string -> option string.

(** [ns_resolve]: the result is [NULL], the [from] of the first entry of
    the bucket whose [to] is the cleaned path, or the argument itself. *)
Definition ns_resolve (t : Table) (path : option string) : option string :=
  match path with
  | None => None
  | Some p =>
      let clean := cleanpath realpath path in
      match find_chain clean (bindtab t (pathhash clean)) with
      | Some b => Some (from b)
      | None => Some p
      end
  end.

End Resolve.

(** The bucket indices in the order [b_ns] and [dist_cleanup] visit them. *)
Definition buckets : list Z := map Z.of_nat (seq 0 (Z.to_nat BIND_MAX)).

(** Every entry of the table, bucket by bucket, each chain from its head. *)
Definition entries (t : Table) : list Bind := flat_map (bindtab t) buckets.

(** The entries for one mountpoint in the order a walk from the head of its
    bucket meets them. *)
Definition chain_for (t : Table) (key : string) : list Bind :=
  filter (fun b => streq (to b) key) (bindtab t (pathhash key)).

(** The number of entries in the table. *)
Definition live (t : Table) : Z := Z.of_nat (List.length (entries t)).

(** Whether [add_bind] takes its replace branch. *)
Definition replaces (dst : string) (m : Z) (t : Table) : bool :=
  match find_bind t dst with
  | Some _ => negb (nz (Z.land m BIND_BEFORE)) && negb (nz (Z.land m BIND_AFTER))
  | None => false
  end.

(** ** The process, the host shell and the operating system *)

(** The classes of [st_mode] the code tells apart: [S_ISDIR], [S_ISFIFO],
    [S_ISSOCK] and the rest. *)
Inductive Kind : Type := KDir | KFifo | KSock | KFile.

(** The system calls and library functions dist.c uses, over a state [S] of
    everything outside the shell process (file system, other processes).
    A call that can fail yields [Some errno] or [inr errno] when it does. *)
Record OS (S : Type) : Type := mkOS {
  os_linux : bool;                                (* [__linux__] is defined *)
  EEXIST : Z;
  EPERM : Z;
  strerror : Z -> string;
  os_realpath : S -> string -> option string;
  os_stat : S -> string -> Kind + Z;
  os_mkdir : S -> string -> S * option Z;
  os_mkfifo : S -> string -> S * option Z;
  os_unlink : S -> string -> S;
  (* [opendir] and [readdir] to the end; [None] when [opendir] fails *)
  os_readdir : S -> string -> option (list string);
  (* [open(O_RDONLY)] and [read] to the end; [None] when [open] fails *)
  os_readfile : S -> string -> option string;
  (* [rc_fork], the child's [execvp] and [rc_wait4]: the wait status, or
     [None] when the fork fails *)
  os_spawn : S -> list string -> option (S * Z);
  (* [rc_fork] as the parent of a service worker sees it: the pid *)
  os_fork : S -> string -> list string -> S * Z;
  os_setpgid : S -> S * option Z;
  os_unshare : S -> S * option Z
}.

Arguments os_linux {S} _.
Arguments EEXIST {S} _.
Arguments EPERM {S} _.
Arguments strerror {S} _ _.
Arguments os_realpath {S} _ _ _.
Arguments os_stat {S} _ _ _.
Arguments os_mkdir {S} _ _ _.
Arguments os_mkfifo {S} _ _ _.
Arguments os_unlink {S} _ _ _.
Arguments os_readdir {S} _ _ _.
Arguments os_readfile {S} _ _ _.
Arguments os_spawn {S} _ _ _.
Arguments os_fork {S} _ _ _ _.
Arguments os_setpgid {S} _ _.
Arguments os_unshare {S} _ _.

(** What rc.h gives the builtins besides functions on the shell's state:
    the prefix [RC] of diagnostics and the conversion [%S] of [fprint]. *)
Record Shell : Type := mkShell {
  RC : string;
  fmtS : string -> string
}.

(** The shell's status: [set(b)] or [setstatus(-1, stat)]. *)
Inductive Status : Type :=
| Truth (b : bool)
| Waited (stat : Z).

(** What a builtin does that is seen from outside, in order. *)
Inductive Event : Type :=
| Print (fd : Z) (text : string)          (* [fprint], [writeall] *)
| Uerror (what : string)                  (* [uerror] *)
| Launch (argv : list string) (stat : option Z)       (* [run_cmd] *)
| Spawn (argv : list string) (fifo : string) (pid : Z) (* [srv] worker *)
| Alias (name : string) (val : list string)
| Sigchk.

Record World (S : Type) : Type := mkWorld {
  table : Table;                 (* [bindtab], [nbinds] *)
  sys : S;
  errno : Z;                     (* as left by the failing calls whose
                                    [errno] the builtins go on to read *)
  vars : string -> list string;  (* shell variables; [NULL] is [[]] *)
  dashex : bool;
  status : Status;
  fds : Z -> bool;               (* the open file descriptors *)
  environ : list string;
  stack : string;                (* what an uninitialised [envbuf] holds *)
  out : list Event
}.

Arguments mkWorld {S} _ _ _ _ _ _ _ _ _ _.
Arguments table {S} _.
Arguments sys {S} _.
Arguments errno {S} _.
Arguments vars {S} _ _.
Arguments dashex {S} _.
Arguments status {S} _.
Arguments fds {S} _ _.
Arguments environ {S} _.
Arguments stack {S} _.
Arguments out {S} _.

(** The string of one character, as [%c] prints it. *)
Definition chr (c : ascii) : string := String c EmptyString.

Definition nl : string := chr (ascii_of_nat 10).
Definition ht : string := chr (ascii_of_nat 9).

(** [WIFEXITED(stat) && WEXITSTATUS(stat) == 0] of <sys/wait.h>. *)
Definition WIFEXITED (stat : Z) : bool := Z.land stat 127 =? 0.
Definition WEXITSTATUS (stat : Z) : Z := Z.shiftr (Z.land stat 65280) 8.
Definition exited0 (stat : Z) : bool := WIFEXITED stat && (WEXITSTATUS stat =? 0).

(** [*av == '-'] gives the text after the dash. *)
Definition dash (a : string) : option string :=
  match a with
  | String c f => if Ascii.eqb c "-" then Some f else None
  | EmptyString => None
  end.

(** [ent->d_name[0] == '.']. *)
Definition dotted (d_name : string) : bool :=
  match d_name with
  | String c _ => Ascii.eqb c "."
  | EmptyString => false
  end.

(** Result of an option loop with options that take an argument: the
    values, an unknown flag, or an option whose argument is missing. *)
Inductive Parsed (A : Type) : Type :=
| Ok (a : A)
| Unknown (c : ascii)
| Missing (c : ascii).

Arguments Ok {A} _.
Arguments Unknown {A} _.
Arguments Missing {A} _.

(** The [switch] on the flag characters of [bind], [mount] ([n] allowed) and
    [import]. *)
Fixpoint mode_flags (allow_n : bool) (f : string) (m : Z) : Z + ascii :=
  match f with
  | EmptyString => inl m
  | String c f' =>
      if Ascii.eqb c "a" then
        mode_flags allow_n f' (Z.lor (Z.land m (Z.lnot BIND_BEFORE)) BIND_AFTER)
      else if Ascii.eqb c "b" then
        mode_flags allow_n f' (Z.lor (Z.land m (Z.lnot BIND_AFTER)) BIND_BEFORE)
      else if Ascii.eqb c "c" then
        mode_flags allow_n f' (Z.lor m BIND_CREATE)
      else if allow_n && Ascii.eqb c "n" then mode_flags allow_n f' m
      else inr c
  end.

(** The option loop of [b_bind] and [b_import]: the mode and the arguments
    left. *)
Fixpoint bind_options (av : list string) (m : Z) : Z * list string + ascii :=
  match av with
  | a :: av' =>
      match dash a with
      | Some f =>
          match mode_flags false f m with
          | inl m' => bind_options av' m'
          | inr c => inr c
          end
      | None => inl (m, av)
      end
  | [] => inl (m, av)
  end.

(** The option loop of [b_mount], with [-s spec]. *)
Fixpoint mount_options (av : list string) (m : Z) (spec : option string)
  : Parsed (Z * option string * list string) :=
  match av with
  | a :: av' =>
      match dash a with
      | Some f =>
          if String.eqb f "s" then
            match av' with
            | s :: av'' => mount_options av'' m (Some s)
            | [] => Missing "s"
            end
          else
            match mode_flags true f m with
            | inl m' => mount_options av' m' spec
            | inr c => Unknown c
            end
      | None => Ok (m, spec, av)
      end
  | [] => Ok (m, spec, av)
  end.

(** The option loop of [b_ns] and [b_srv]: only [r]. *)
Fixpoint r_flags (f : string) (r : bool) : bool + ascii :=
  match f with
  | EmptyString => inl r
  | String c f' => if Ascii.eqb c "r" then r_flags f' true else inr c
  end.

Fixpoint r_options (av : list string) (r : bool) : bool * list string + ascii :=
  match av with
  | a :: av' =>
      match dash a with
      | Some f =>
          match r_flags f r with
          | inl r' => r_options av' r'
          | inr c => inr c
          end
      | None => inl (r, av)
      end
  | [] => inl (r, av)
  end.

(** ** The builtins *)

Section Builtins.

Context {S : Type}.
Variable os : OS S.
Variable sh : Shell.

Local Abbreviation World := (World S).

(** *** Updates of the process state *)

Definition set_table (t : Table) (w : World) : World :=
  mkWorld t (sys w) (errno w) (vars w) (dashex w) (status w) (fds w)
    (environ w) (stack w) (out w).

Definition set_sys (s : S) (w : World) : World :=
  mkWorld (table w) s (errno w) (vars w) (dashex w) (status w) (fds w)
    (environ w) (stack w) (out w).

Definition set_errno (e : Z) (w : World) : World :=
  mkWorld (table w) (sys w) e (vars w) (dashex w) (status w) (fds w)
    (environ w) (stack w) (out w).

Definition set_status (st : Status) (w : World) : World :=
  mkWorld (table w) (sys w) (errno w) (vars w) (dashex w) st (fds w)
    (environ w) (stack w) (out w).

Definition set_fds (f : Z -> bool) (w : World) : World :=
  mkWorld (table w) (sys w) (errno w) (vars w) (dashex w) (status w) f
    (environ w) (stack w) (out w).

Definition set_environ (env : list string) (w : World) : World :=
  mkWorld (table w) (sys w) (errno w) (vars w) (dashex w) (status w) (fds w)
    env (stack w) (out w).

Definition emit (e : Event) (w : World) : World :=
  mkWorld (table w) (sys w) (errno w) (vars w) (dashex w) (status w) (fds w)
    (environ w) (stack w) (out w ++ [e]).

(** [varassign(name, val, FALSE)] and [varlookup(name)]. *)
Definition varassign (name : string) (val : list string) (w : World) : World :=
  mkWorld (table w) (sys w) (errno w)
    (fun x => if String.eqb x name then val else vars w x)
    (dashex w) (status w) (fds w) (environ w) (stack w) (out w).

Definition varlookup (name : string) (w : World) : list string := vars w name.

(** [fprint(fd, ...)], [set(b)], [close(fd)]. *)
Definition fprint (fd : Z) (text : string) (w : World) : World :=
  emit (Print fd text) w.

Definition set (b : bool) (w : World) : World := set_status (Truth b) w.

Definition close (fd : Z) (w : World) : World :=
  set_fds (fun x => if x =? fd then false else fds w x) w.

(** A diagnostic on descriptor 2 followed by [set(FALSE); return]. *)
Definition fail (text : string) (w : World) : World :=
  set false (fprint 2 text w).

(** The same when [dashex] is set. *)
Definition trace (text : string) (w : World) : World :=
  if dashex w then fprint 2 text w else w.

(** *** System calls as the process sees them *)

Definition stat (path : string) (w : World) : World * option Kind :=
  match os_stat os (sys w) path with
  | inl k => (w, Some k)
  | inr e => (set_errno e w, None)
  end.

Definition exists_ (r : option Kind) : bool :=
  match r with Some _ => true | None => false end.

Definition isdir (path : string) (w : World) : World * bool :=
  let (w1, r) := stat path w in
  (w1, match r with Some KDir => true | _ => false end).

(** [mkdir(path, 0755) == 0]. *)
Definition mkdir (path : string) (w : World) : World * bool :=
  match os_mkdir os (sys w) path with
  | (s, None) => (set_sys s w, true)
  | (s, Some e) => (set_errno e (set_sys s w), false)
  end.

(** [mkfifo(path, 0666) < 0]. *)
Definition mkfifo (path : string) (w : World) : World * bool :=
  match os_mkfifo os (sys w) path with
  | (s, None) => (set_sys s w, false)
  | (s, Some e) => (set_errno e (set_sys s w), true)
  end.

Definition unlink (path : string) (w : World) : World :=
  set_sys (os_unlink os (sys w) path) w.

Definition ensuredir (path : string) (m : Z) (w : World) : World * Z :=
  let (w1, d) := isdir path w in
  if d then (w1, 0)
  else if nz (Z.land m BIND_CREATE) then
    let (w2, ok) := mkdir path w1 in
    if ok then (w2, 0)
    else if errno w2 =? EEXIST os then (w2, 0)
    else (w2, -1)
  else (w1, -1).

Definition ensure_srvdir (w : World) : World :=
  let (w1, r) := stat SRV_DIR w in
  if exists_ r then w1 else fst (mkdir SRV_DIR w1).

(** [run_cmd]: what the child prints is not the shell's output; a child
    whose [execvp] fails ends with the exit status 127. *)
Definition run_cmd (argv : list string) (w : World) : World * Z :=
  match os_spawn os (sys w) argv with
  | Some (s, st) => (emit (Launch argv (Some st)) (set_sys s w), st)
  | None => (emit (Uerror "fork") (emit (Launch argv None) w), -1)
  end.

(** [cleanpath] in the current state of the file system. *)
Definition clean (path : string) (w : World) : string :=
  cleanpath (os_realpath os (sys w)) (Some path).

(** The four lines [cfrom = cleanpath(..); cto = cleanpath(..);
    add_bind(cfrom, cto, mode); efree ...] shared by the builtins. *)
Definition record_bind (src dst : string) (m : Z) (w : World) : World :=
  set_table (add_bind (clean src w) (clean dst w) m (table w)) w.

(** *** bind *)

Definition mode_option (m : Z) : string :=
  if nz (Z.land m BIND_BEFORE) then "-b "
  else if nz (Z.land m BIND_AFTER) then "-a "
  else EmptyString.

(** [if (!d) { struct stat st; if (stat(path, &st) != 0) ... }], where [d]
    is what the test before gave: whether the path is missing. *)
Definition missing (d : bool) (path : string) (w : World) : World * bool :=
  if d then (w, false)
  else let (w1, r) := stat path w in (w1, negb (exists_ r)).

(** [b_bind] from [cfrom = cleanpath(from)] on. *)
Definition bind_record (m : Z) (src dst : string) (w : World) : World :=
  let cfrom := clean src w in
  let cto := clean dst w in
  let w1 := record_bind src dst m w in
  (* export namespace to environment *)
  let w2 := varassign "ns_bind_last" [cfrom +++ " " +++ cto] w1 in
  let w3 := trace ("bind " +++ mode_option m +++ cfrom +++ " " +++ cto
                     +++ " " +++ EmptyString +++ nl) w2 in
  set true w3.

(** [b_bind] from the two arguments on. *)
Definition bind_at (m : Z) (src dst : string) (w : World) : World :=
  (* validate source exists *)
  let (w1, d) := isdir src w in
  let (w2, gone) := missing d src w1 in
  if gone then
    fail (RC sh +++ "bind: " +++ src +++ ": " +++ strerror os (errno w2)
            +++ nl) w2
  else
    (* validate or create mount point *)
    let (w3, r) := ensuredir dst m w2 in
    let (w4, d') := if nz r then isdir dst w3 else (w3, true) in
    let (w5, gone') := missing d' dst w4 in
    if gone' then
      fail (RC sh +++ "bind: " +++ dst +++ ": " +++ strerror os (errno w5)
              +++ nl) w5
    else bind_record m src dst w5.

Definition b_bind (av : list string) (w : World) : World :=
  match bind_options (tl av) BIND_REPLACE with
  | inr c => fail (RC sh +++ "bind: unknown flag -" +++ chr c +++ nl) w
  | inl (m, src :: dst :: more) =>
      match more with
      | _ :: _ => fail (RC sh +++ "bind: too many arguments" +++ nl) w
      | [] => bind_at m src dst w
      end
  | inl (_, _) => fail (RC sh +++ "usage: bind [-abc] from to" +++ nl) w
  end.

(** *** mount *)

Definition sshfs_cmd (addr mountpoint : string) (spec : option string)
  : list string :=
  ["sshfs"; addr; mountpoint; "-o"; "reconnect,ServerAliveInterval=15"]
    ++ match spec with Some s => ["-o"; s] | None => [] end.

Definition mount_cmd (addr mountpoint : string) (spec : option string)
  : list string :=
  ["mount"] ++ match spec with Some s => ["-t"; s] | None => [] end
    ++ [addr; mountpoint].

(** [b_mount] from "try system mount for 9P or local" on. *)
Definition mount_system (m : Z) (spec : option string)
    (addr mountpoint : string) (w : World) : World :=
  let (w1, st) := run_cmd (mount_cmd addr mountpoint spec) w in
  if exited0 st then set true (record_bind addr mountpoint m w1)
  else fail (RC sh +++ "mount: failed to mount " +++ addr +++ " on "
               +++ mountpoint +++ nl) w1.

(** [b_mount] once the mount point is there. *)
Definition mount_attach (m : Z) (spec : option string)
    (addr mountpoint : string) (w : World) : World :=
  if strchr addr ":" && strchr addr "/" then
    let (w1, st) := run_cmd (sshfs_cmd addr mountpoint spec) w in
    if exited0 st then set true (record_bind addr mountpoint m w1)
    else
      mount_system m spec addr mountpoint
        (fprint 2 (RC sh +++ "mount: sshfs failed, trying mount(8)" +++ nl) w1)
  else mount_system m spec addr mountpoint w.

(** [b_mount] from the two arguments on. *)
Definition mount_at (m : Z) (spec : option string)
    (addr mountpoint : string) (w : World) : World :=
  let (w1, r) := ensuredir mountpoint (Z.lor m BIND_CREATE) w in
  if nz r then
    fail (RC sh +++ "mount: cannot create " +++ mountpoint +++ ": "
            +++ strerror os (errno w1) +++ nl) w1
  else mount_attach m spec addr mountpoint w1.

Definition b_mount (av : list string) (w : World) : World :=
  match mount_options (tl av) BIND_REPLACE None with
  | Missing c =>
      fail (RC sh +++ "mount: -" +++ chr c +++ " requires argument"
              +++ nl) w
  | Unknown c =>
      fail (RC sh +++ "mount: unknown flag -" +++ chr c +++ nl) w
  | Ok (m, spec, addr :: mountpoint :: _) => mount_at m spec addr mountpoint w
  | Ok (_, _, _) =>
      fail (RC sh +++ "usage: mount [-abc] [-s spec] address mountpoint" +++ nl) w
  end.

(** *** unmount *)

(** [b_unmount] once [from] and [mp] are known. *)
Definition unmount_at (src : option string) (mp : string) (w : World) : World :=
  (* try to remove from our bind table *)
  let (t, found) := remove_bind src mp (table w) in
  let w1 := set_table t w in
  (* also try system unmount *)
  let (w2, st) := run_cmd ["umount"; mp] w1 in
  let found1 := if exited0 st then true else found in
  let (w3, found2) :=
    if negb found1 then
      let (w', st') := run_cmd ["fusermount"; "-u"; mp] w2 in
      (w', if exited0 st' then true else found1)
    else (w2, found1) in
  if negb found2 then
    fail (RC sh +++ "unmount: " +++ mp +++ ": not mounted" +++ nl) w3
  else
    set true
      (trace ("unmount " +++ match src with Some f => f | None => EmptyString end
                +++ mp +++ nl) w3).

Definition b_unmount (av : list string) (w : World) : World :=
  match tl av with
  | [] => fail (RC sh +++ "usage: unmount [from] mountpoint" +++ nl) w
  | [mp] => unmount_at None mp w
  | [src; mp] => unmount_at (Some src) mp w
  | _ :: _ :: _ :: _ => fail (RC sh +++ "unmount: too many arguments" +++ nl) w
  end.

(** *** ns *)

Definition mode_name (m : Z) : string :=
  if nz (Z.land m BIND_BEFORE) then "before"
  else if nz (Z.land m BIND_AFTER) then "after"
  else "replace".

(** The line [b_ns] prints for one entry. *)
Definition ns_line (recreate : bool) (b : Bind) : string :=
  if recreate then
    "bind " +++ mode_option (mode b) +++ fmtS sh (from b) +++ " "
      +++ fmtS sh (to b) +++ nl
  else
    fmtS sh (from b) +++ ht +++ fmtS sh (to b) +++ ht
      +++ "(" +++ mode_name (mode b) +++ ")" +++ nl.

Definition print_all (fd : Z) (lines : list string) (w : World) : World :=
  fold_left (fun w' l => fprint fd l w') lines w.

(** The file is read and written in pieces of up to 8191 bytes: here it is
    one [Print]. *)
Definition b_ns (av : list string) (w : World) : World :=
  match r_options (tl av) false with
  | inr c => fail (RC sh +++ "ns: unknown flag -" +++ chr c +++ nl) w
  | inl (_, _ :: _) => fail (RC sh +++ "usage: ns [-r]" +++ nl) w
  | inl (recreate, []) =>
      (* print bind table entries *)
      let es := entries (table w) in
      let w1 := print_all 1 (map (ns_line recreate) es) w in
      (* also show system mounts from /proc if no bind entries *)
      let w2 :=
        if (Z.of_nat (List.length es) =? 0) && negb recreate then
          match os_readfile os (sys w1) "/proc/mounts" with
          | Some text =>
              fprint 1 text (fprint 1 ("# system mounts:" +++ nl) w1)
          | None => fst (run_cmd ["mount"] w1)
          end
        else w1 in
      set true w2
  end.

(** *** import *)

(** [b_import] once the mount point is there. *)
Definition import_attach (m : Z) (host path mp : string) (w : World) : World :=
  (* construct sshfs address *)
  let addr := truncate 4096 (host +++ ":" +++ path) in
  let w1 := trace ("import " +++ host +++ " " +++ path +++ " -> " +++ mp
                     +++ nl) w in
  let (w2, st) :=
    run_cmd ["sshfs"; addr; mp; "-o";
             "reconnect,ServerAliveInterval=15,follow_symlinks"] w1 in
  if exited0 st then set true (record_bind addr mp m w2)
  else
    (* try 9pfuse as a fallback for 9P servers *)
    let (w3, st') := run_cmd ["9pfuse"; addr; mp] w2 in
    if exited0 st' then set true (record_bind addr mp m w3)
    else fail (RC sh +++ "import: could not import " +++ path +++ " from "
                 +++ host +++ nl) w3.

Definition import_at (m : Z) (host path mp : string) (w : World) : World :=
  let (w1, r) := ensuredir mp (Z.lor m BIND_CREATE) w in
  if nz r then
    fail (RC sh +++ "import: cannot create " +++ mp +++ ": "
            +++ strerror os (errno w1) +++ nl) w1
  else import_attach m host path mp w1.

Definition b_import (av : list string) (w : World) : World :=
  match bind_options (tl av) BIND_REPLACE with
  | inr c => fail (RC sh +++ "import: unknown flag -" +++ chr c +++ nl) w
  | inl (m, host :: path :: rest) =>
      import_at m host path (match rest with mp :: _ => mp | [] => path end) w
  | inl (_, _) =>
      fail (RC sh +++ "usage: import [-abc] host path [mountpoint]" +++ nl) w
  end.

(** *** addns *)

Definition b_addns (av : list string) (w : World) : World :=
  match av with
  | _ :: src :: dst :: _ => b_bind ["bind"; "-a"; src; dst] w
  | _ => fail (RC sh +++ "usage: addns from to" +++ nl) w
  end.

(** *** cpu *)

(** A [char] array of [cap] bytes filled by
    [len += snprintf(buf + len, sizeof(buf) - len, ...)]: the string in the
    buffer and the running [len], which counts what would have been written
    had there been room. *)
Record Sbuf : Type := mkSbuf {
  text : string;
  len : Z
}.

(** One such [snprintf] of the text [s].  Once [len] is past the size of
    the array, [sizeof(buf) - len] wraps around as a [size_t] and the write
    is outside the array: no result.  With [len] equal to the size, nothing
    is written. *)
Definition bprint (cap : Z) (b : Sbuf) (s : string) : option Sbuf :=
  if cap <? len b then None
  else
    Some (mkSbuf
            (if len b <? cap then text b +++ truncate (cap - len b) s
             else text b)
            (len b + Z.of_nat (String.length s))).

Definition bprint_opt (cap : Z) (b : option Sbuf) (s : string) : option Sbuf :=
  match b with
  | Some b' => bprint cap b' s
  | None => None
  end.

(** The loop over the words of [$path]: each word, then a colon when another
    word follows. *)
Fixpoint path_words (ws : list string) (b : option Sbuf) : option Sbuf :=
  match ws with
  | [] => b
  | x :: n =>
      path_words n
        (bprint_opt 8192 b (x +++ match n with [] => EmptyString | _ :: _ => ":" end))
  end.

(** [envbuf] after "export $path as PATH": when [$path] is not set nothing
    is written to the array, it holds what the stack held. *)
Definition envbuf (w : World) : option string :=
  match varlookup "path" w with
  | [] => Some (stack w)
  | ws =>
      match bprint_opt 8192
              (path_words ws (bprint 8192 (mkSbuf EmptyString 0) "PATH=")) "; " with
      | Some b => Some (text b)
      | None => None
      end
  end.

(** "quote args with spaces". *)
Definition cpu_arg (p : string) : string :=
  if strchr p " " || strchr p (ascii_of_nat 9) then "'" +++ p +++ "'" else p.

(** The loop [for (p = av; *p != NULL; p++)]; [first] is [p == av]. *)
Fixpoint cpu_args (first : bool) (av : list string) (b : option Sbuf)
  : option Sbuf :=
  match av with
  | [] => b
  | p :: rest =>
      let b1 := if first then b else bprint_opt 4096 b " " in
      cpu_args false rest (bprint_opt 4096 b1 (cpu_arg p))
  end.

(** "build the actual command string": [cmdbuf] is what [remote_cmd] is
    copied from. *)
Definition remote_command (env : string) (av : list string) : option string :=
  match cpu_args true av
          (Some (mkSbuf (truncate 4096 env) (Z.of_nat (String.length env)))) with
  | Some b => Some (text b)
  | None => None
  end.

(** The option loop of [b_cpu]: only the first character after the dash is
    looked at. *)
Fixpoint cpu_options (av : list string) (host user : option string)
    (agent : bool)
  : Parsed (option string * option string * bool * list string) :=
  match av with
  | a :: av' =>
      match dash a with
      | Some (String c f1) =>
          if Ascii.eqb c "h" then
            match f1, av' with
            | String _ _, _ => cpu_options av' (Some f1) user agent
            | EmptyString, x :: av'' => cpu_options av'' (Some x) user agent
            | EmptyString, [] => Missing c
            end
          else if Ascii.eqb c "u" then
            match f1, av' with
            | String _ _, _ => cpu_options av' host (Some f1) agent
            | EmptyString, x :: av'' => cpu_options av'' host (Some x) agent
            | EmptyString, [] => Missing c
            end
          else if Ascii.eqb c "A" then cpu_options av' host user true
          else Unknown c
      | Some EmptyString => Unknown zero
      | None => Ok (host, user, agent, av)
      end
  | [] => Ok (host, user, agent, av)
  end.

Definition ssh_cmd (agent : bool) (user : option string) (host cmd : string)
  : list string :=
  ["ssh"] ++ (if agent then ["-A"] else []) ++ ["-o"; "BatchMode=yes"]
    ++ match user with Some u => ["-l"; u] | None => [] end
    ++ [host; cmd].

(** [b_cpu] once the host and the command are known; no result when a
    write leaves [envbuf] or [cmdbuf]. *)
Definition cpu_run (agent : bool) (user : option string) (host : string)
    (cmd : list string) (w : World) : option World :=
  match envbuf w with
  | None => None
  | Some env =>
      match remote_command env cmd with
      | None => None
      | Some remote_cmd =>
          let sshcmd := ssh_cmd agent user host remote_cmd in
          let w1 :=
            if dashex w then
              fprint 2 nl
                (print_all 2 (map (fun a => " " +++ a) sshcmd)
                   (fprint 2 "cpu:" w))
            else w in
          let (w2, st) := run_cmd sshcmd w1 in
          Some (emit Sigchk (set_status (Waited st) w2))
      end
  end.

Definition b_cpu (av : list string) (w : World) : option World :=
  match cpu_options (tl av) None None false with
  | Missing c =>
      Some (fail (RC sh +++ "cpu: -" +++ chr c +++ " requires argument"
                    +++ nl) w)
  | Unknown c =>
      Some (fail (RC sh +++ "cpu: unknown flag -" +++ chr c +++ nl) w)
  | Ok (host, user, agent, cmd) =>
      (* host from argument or $cpu variable *)
      let host' :=
        match host with
        | Some h => Some h
        | None => match varlookup "cpu" w with x :: _ => Some x | [] => None end
        end in
      match host', cmd with
      | None, _ =>
          Some (fail (RC sh +++ "cpu: no host specified (use -h or set $cpu)"
                        +++ nl) w)
      | Some _, [] =>
          Some (fail (RC sh
                        +++ "usage: cpu [-h host] [-u user] [-A] cmd [args...]"
                        +++ nl) w)
      | Some h, _ :: _ => cpu_run agent user h cmd w
      end
  end.

(** *** srv *)

Definition srv_type (k : Kind) : string :=
  match k with
  | KFifo => "fifo"
  | KSock => "sock"
  | _ => "file"
  end.

Definition decimal (n : Z) : string :=
  DecimalString.NilZero.string_of_int (Z.to_int n).

(** The [readdir] loop of the listing over the names of the directory. *)
Fixpoint srv_scan (names : list string) (found : bool) (w : World)
  : World * bool :=
  match names with
  | [] => (w, found)
  | d_name :: rest =>
      if dotted d_name then srv_scan rest found w
      else
        let srvpath := truncate 4096 (SRV_DIR +++ "/" +++ d_name) in
        let (w1, r) := stat srvpath w in
        match r with
        | Some k =>
            srv_scan rest true
              (fprint 1 (d_name +++ ht +++ srvpath +++ ht
                           +++ "(" +++ srv_type k +++ ")" +++ nl) w1)
        | None => srv_scan rest found w1
        end
  end.

(** "list services by scanning the srv directory". *)
Definition srv_list (w : World) : World :=
  let (w1, found) :=
    match os_readdir os (sys w) SRV_DIR with
    | Some names => srv_scan names false w
    | None => (w, false)
    end in
  let w2 :=
    if negb found then
      fprint 1 ("# no services (srv dir: " +++ SRV_DIR +++ ")" +++ nl) w1
    else w1 in
  set true w2.

(** "remove a service". *)
Definition srv_remove (name srvpath : string) (w : World) : World :=
  let (w1, r) := stat srvpath w in
  if negb (exists_ r) then
    fail (RC sh +++ "srv: " +++ name +++ ": not found" +++ nl) w1
  else
    set true (trace ("srv: removed " +++ name +++ nl) (unlink srvpath w1)).

(** "connect to existing service". *)
Definition srv_connect (name srvpath : string) (w : World) : World :=
  let (w1, r) := stat srvpath w in
  if exists_ r then
    let varname := truncate 256 ("srv_" +++ name) in
    set true (fprint 1 (srvpath +++ nl) (varassign varname [srvpath] w1))
  else fail (RC sh +++ "srv: " +++ name +++ ": not found" +++ nl) w1.

(** "create new service: make FIFO and run command".  The worker (the
    child of the fork, which opens the FIFO, makes it its descriptors 0 and
    1 and executes the command) is the event [Spawn]. *)
Definition srv_create (name srvpath : string) (cmd : list string) (w : World)
  : World :=
  let w1 := unlink srvpath w in
  let (w2, failed) := mkfifo srvpath w1 in
  if failed then
    fail (RC sh +++ "srv: cannot create " +++ srvpath +++ ": "
            +++ strerror os (errno w2) +++ nl) w2
  else
    let (s, pid) := os_fork os (sys w2) srvpath cmd in
    let w3 := set_sys s w2 in
    if pid <? 0 then set false (unlink srvpath (emit (Uerror "fork") w3))
    else
      let w4 := emit (Spawn cmd srvpath pid) w3 in
      let w5 := trace ("srv: " +++ name +++ " -> " +++ srvpath +++ " (pid "
                         +++ decimal pid +++ ")" +++ nl) w4 in
      set true (varassign "apid" [decimal pid] w5).

Definition b_srv (av : list string) (w : World) : World :=
  match r_options (tl av) false with
  | inr c => fail (RC sh +++ "srv: unknown flag -" +++ chr c +++ nl) w
  | inl (remove, rest) =>
      let w1 := ensure_srvdir w in
      match rest with
      | [] =>
          if negb remove then srv_list w1
          else fail (RC sh +++ "usage: srv [-r] [name [cmd ...]]" +++ nl) w1
      | name :: cmd =>
          let srvpath := truncate 4096 (SRV_DIR +++ "/" +++ name) in
          if remove then srv_remove name srvpath w1
          else
            match cmd with
            | [] => srv_connect name srvpath w1
            | _ :: _ => srv_create name srvpath cmd w1
            end
      end
  end.

(** *** rfork *)

Fixpoint rfork_flags (f : string) (flags : Z) : Z + ascii :=
  match f with
  | EmptyString => inl flags
  | String c f' =>
      if Ascii.eqb c "c" || Ascii.eqb c "n" then
        rfork_flags f' (Z.lor flags RFNAMEG)
      else if Ascii.eqb c "C" || Ascii.eqb c "N" then
        rfork_flags f' (Z.lor flags RFCNAMEG)
      else if Ascii.eqb c "e" then rfork_flags f' (Z.lor flags RFENVG)
      else if Ascii.eqb c "E" then rfork_flags f' (Z.lor flags RFCENVG)
      else if Ascii.eqb c "s" then rfork_flags f' (Z.lor flags RFNOTEG)
      else if Ascii.eqb c "f" then rfork_flags f' (Z.lor flags RFFDG)
      else if Ascii.eqb c "F" then rfork_flags f' (Z.lor flags RFCFDG)
      else inr c
  end.

(** "new process group". *)
Definition rfork_pgrp (flags : Z) (w : World) : World :=
  if nz (Z.land flags RFNOTEG) then
    match os_setpgid os (sys w) with
    | (s, None) => set_sys s w
    | (s, Some e) =>
        let w1 := set_errno e (set_sys s w) in
        if negb (e =? EPERM os) then
          trace ("rfork: setpgid: " +++ strerror os e +++ nl) w1
        else w1
    end
  else w.

(** "clear environment". *)
Definition rfork_env (flags : Z) (w : World) : World :=
  if nz (Z.land flags RFENVG) then
    let w1 := set_environ [] w in
    let w2 := varassign "path" ["/usr/local/bin"; "/usr/bin"; "/bin"] w1 in
    emit (Alias "path" (varlookup "path" w2)) w2
  else w.

(** The descriptors [for (fd = 3; fd < 256; fd++)] runs through. *)
Definition rfork_fd_range : list Z := map Z.of_nat (seq 3 (256 - 3)).

(** "close non-standard file descriptors". *)
Definition rfork_fds (flags : Z) (w : World) : World :=
  if nz (Z.land flags RFFDG) then
    fold_left (fun w' fd => close fd w') rfork_fd_range w
  else w.

Definition b_rfork (av : list string) (w : World) : World :=
  match
    match tl av with
    | f :: _ => rfork_flags f 0
    | [] => inl 0
    end
  with
  | inr c => fail (RC sh +++ "rfork: unknown flag " +++ chr c +++ nl) w
  | inl flags0 =>
      (* default: just new process group *)
      let flags := if flags0 =? 0 then RFNOTEG else flags0 in
      let w1 := rfork_pgrp flags w in
      (* new mount namespace (Linux only) *)
      let r :=
        if nz (Z.land flags RFNAMEG) then
          if os_linux os then
            match os_unshare os (sys w1) with
            | (s, None) => inl (set_sys s w1)
            | (s, Some e) =>
                inr (fail (RC sh +++ "rfork: unshare(CLONE_NEWNS): "
                             +++ strerror os e +++ nl)
                       (set_errno e (set_sys s w1)))
            end
          else
            inr (fail (RC sh
                         +++ "rfork: mount namespace not supported on this platform"
                         +++ nl) w1)
        else inl w1 in
      match r with
      | inr w' => w'
      | inl w2 => set true (rfork_fds flags (rfork_env flags w2))
      end
  end.

End Builtins.

(** ** Sequences of builtins *)

(** The builtins by name, as the shell's dispatch table has them. *)
Inductive Builtin : Type :=
| Bbind | Bmount | Bunmount | Bns | Bcpu | Bimport | Bsrv | Brfork | Baddns.

Section Scripts.

Context {S : Type}.
Variable os : OS S.
Variable sh : Shell.

(** One builtin run to completion on its argument vector ([av[0]] is the
    name the builtin was called by). *)
Definition run_builtin (b : Builtin) (av : list string) (w : World S)
  : option (World S) :=
  match b with
  | Bbind => Some (b_bind os sh av w)
  | Bmount => Some (b_mount os sh av w)
  | Bunmount => Some (b_unmount os sh av w)
  | Bns => Some (b_ns os sh av w)
  | Bcpu => b_cpu os sh av w
  | Bimport => Some (b_import os sh av w)
  | Bsrv => Some (b_srv os sh av w)
  | Brfork => Some (b_rfork os sh av w)
  | Baddns => Some (b_addns os sh av w)
  end.

(** Builtins run one after the other, each to completion. *)
Fixpoint run_script (script : list (Builtin * list string)) (w : World S)
  : option (World S) :=
  match script with
  | [] => Some w
  | (b, av) :: rest =>
      match run_builtin b av w with
      | Some w' => run_script rest w'
      | None => None
      end
  end.

End Scripts.

(** The three binds of the precedence law, for one mountpoint. *)
Definition three_binds (a b c dst : string) (t : Table) : Table :=
  add_bind c dst BIND_BEFORE
    (add_bind b dst BIND_AFTER (add_bind a dst BIND_BEFORE t)).

(** ** What is observed of a builtin *)

(** What a step keeps of the process: the bind table and what was printed
    so far. *)
Definition keeps {S : Type} (w w' : World S) : Prop :=
  table w' = table w /\ out w' = out w.

(** A list of events has a launch that ended with the exit status 0. *)
Definition launched_well (evs : list Event) : Prop :=
  exists argv st, In (Launch argv (Some st)) evs /\ exited0 st = true.

(** The two ways a mount or an import ends: failure with the table as it
    was and no launch that ended well, or success with one entry added
    after a launch that ended well. *)
Definition mount_outcome {S : Type} (m : Z) (w w' : World S)
    (evs : list Event) : Prop :=
  (status w' = Truth false /\ table w' = table w /\ ~ launched_well evs)
  \/ (status w' = Truth true
      /\ (exists src dst, table w' = add_bind src dst m (table w))
      /\ launched_well evs).

(** The programs a list of events reports as launched by [run_cmd]. *)
Definition launches (evs : list Event) : list (list string) :=
  flat_map (fun e => match e with Launch argv _ => [argv] | _ => [] end) evs.

(** The service directory as the listing of [srv] finds it when it shows
    no service: it cannot be opened, or it has only names that start with
    a dot. *)
Definition srv_dir_bare (names : option (list string)) : bool :=
  match names with
  | None => true
  | Some l => forallb dotted l
  end.

(** ** The quoting of [cpu] in the words of the specification *)

(** [isspace] in the C locale: space, and the characters 9 to 13. *)
Definition isspace (c : ascii) : bool :=
  let n := uchar c in (n =? 32) || ((9 <=? n) && (n <=? 13)).

Fixpoint has_whitespace (p : string) : bool :=
  match p with
  | EmptyString => false
  | String c p' => isspace c || has_whitespace p'
  end.

(** "quoting any argument containing whitespace with single quotes". *)
Definition quoted_arg (p : string) : string :=
  if has_whitespace p then "'" +++ p +++ "'" else p.

(** "containing a space or a tab character". *)
Definition has_space_or_tab (p : string) : Prop :=
  In " "%char (list_ascii_of_string p)
  \/ In (ascii_of_nat 9) (list_ascii_of_string p).

(** How an argument [p] stands in the command line as [q]: "wrapped in
    single quotes" when it has a space or a tab, "left unquoted"
    otherwise. *)
Definition passed_as (p q : string) : Prop :=
  (has_space_or_tab p -> q = "'" +++ p +++ "'")
  /\ (~ has_space_or_tab p -> q = p).

(** The preamble followed by the arguments, each one quoted as above,
    with single spaces between them. *)
Definition quoted_command (quote : string -> string) (env : string)
    (av : list string) : string :=
  env +++ String.concat " " (map quote av).

(** A buffer that holds [t] and has counted exactly its length. *)
Definition exact (t : string) : Sbuf := mkSbuf t (Z.of_nat (String.length t)).

(** What the loop of [b_cpu] adds for the arguments [av]. *)
Definition joined (first : bool) (av : list string) : string :=
  match av with
  | [] => EmptyString
  | _ :: _ => (if first then EmptyString else " ") +++ String.concat " " (map cpu_arg av)
  end.

(** ** The modes of the stored entries *)

(** The modes the option loops of [bind], [mount] and [import] end with:
    replace, before or after, with or without the create flag. *)
Definition flag_mode (m : Z) : Prop :=
  m = BIND_REPLACE \/ m = BIND_BEFORE \/ m = BIND_AFTER
  \/ m = Z.lor BIND_REPLACE BIND_CREATE
  \/ m = Z.lor BIND_BEFORE BIND_CREATE
  \/ m = Z.lor BIND_AFTER BIND_CREATE.

(** The mode of an entry is one of the three, and [ns] prints it as that
    one, in both of its forms. *)
Definition plain_mode (b : Bind) : Prop :=
  (mode b = BIND_REPLACE /\ mode_name (mode b) = "replace"
   /\ mode_option (mode b) = EmptyString)
  \/ (mode b = BIND_BEFORE /\ mode_name (mode b) = "before"
      /\ mode_option (mode b) = "-b ")
  \/ (mode b = BIND_AFTER /\ mode_name (mode b) = "after"
      /\ mode_option (mode b) = "-a ").

Definition table_modes_ok (t : Table) : Prop :=
  forall i b, In b (bindtab t i) -> plain_mode b.

(** What one builtin does to the table: nothing, one [add_bind] with a
    mode of an option loop, or one [remove_bind]. *)
Definition table_step (t t' : Table) : Prop :=
  t' = t
  \/ (exists src dst m, flag_mode m /\ t' = add_bind src dst m t)
  \/ (exists src key, t' = fst (remove_bind src key t)).

(** A step that adds nothing or one entry of mode [m]. *)
Definition adds {S : Type} (m : Z) (w w' : World S) : Prop :=
  table w' = table w \/ exists src dst, table w' = add_bind src dst m (table w).

(** A script without [cpu]. *)
Definition no_cpu (script : list (Builtin * list string)) : bool :=
  forallb (fun c => match fst c with Bcpu => false | _ => true end) script.

(** ** Teardown *)

(** [dist_cleanup]: every chain is freed and every bucket set to [NULL],
    in the order of the indices, then the count is reset. *)
Definition dist_cleanup (t : Table) : Table :=
  mkTable (fold_left (fun tab i => set_bucket tab i []) buckets (bindtab t)) 0.

(** Whether an entry is one [remove_bind] looks for. *)
Definition matches (src : option string) (key : string) (b : Bind) : bool :=
  streq (to b) key
  && match src with None => true | Some f => streq (from b) f end.

(** A list without the first element that satisfies [p]. *)
Fixpoint remove_first {A : Type} (p : A -> bool) (l : list A) : list A :=
  match l with
  | [] => []
  | x :: l' => if p x then l' else x :: remove_first p l'
  end.

(** Whether the last character of a string is a slash. *)
Definition ends_with_slash (s : string) : bool :=
  match rev (list_ascii_of_string s) with
  | c :: _ => Ascii.eqb c "/"
  | [] => false
  end.

(** A string of [k] slashes. *)
Definition slashes (k : nat) : string :=
  string_of_list_ascii (repeat "/"%char k).

(** What a step that only asks the system leaves alone: the table, the
    shell variables, the descriptors, the environment and the output. *)
Definition untouched {S : Type} (w w' : World S) : Prop :=
  table w' = table w /\ vars w' = vars w /\ fds w' = fds w
  /\ environ w' = environ w /\ out w' = out w.

(** The workers a list of events reports as started by [srv]: the
    command, the path of the FIFO and the pid [rc_fork] returned. *)
Definition spawns (evs : list Event) : list (list string * string * Z) :=
  flat_map
    (fun e => match e with
              | Spawn argv fifo pid => [(argv, fifo, pid)]
              | _ => []
              end) evs.

(** The characters [b_rfork] takes as flags. *)
Definition rfork_allowed (c : ascii) : bool :=
  existsb (Ascii.eqb c)
    ["c"; "n"; "C"; "N"; "e"; "E"; "s"; "f"; "F"]%char.

(** Whether every character of a string satisfies [p]. *)
Fixpoint all_chars (p : ascii -> bool) (s : string) : bool :=
  match s with
  | EmptyString => true
  | String c s' => p c && all_chars p s'
  end.

(** What [rfork] leaves of the shell before it comes to the environment
    and the descriptors. *)
Definition calm {S : Type} (w w' : World S) : Prop :=
  fds w' = fds w /\ environ w' = environ w /\ vars w' = vars w.

(** What a buffer keeps through its writes: the string in it is shorter
    than the array and no longer than what was counted. *)
Definition within (cap : Z) (b : Sbuf) : Prop :=
  Z.of_nat (String.length (text b)) < cap
  /\ Z.of_nat (String.length (text b)) <= len b.

(** ** A small system to run the builtins on *)

Module Demo.

(** The file system is the list of the paths that exist, with their kinds;
    [run] gives the wait status of every program launched. *)
Definition Sys : Type := list (string * Kind).

Definition ENOENT : Z := 2.

Fixpoint lookup (path : string) (s : Sys) : option Kind :=
  match s with
  | [] => None
  | (p, k) :: s' => if String.eqb p path then Some k else lookup path s'
  end.

Definition remove (path : string) (s : Sys) : Sys :=
  filter (fun e => negb (String.eqb (fst e) path)) s.

Definition ENOTDIR : Z := 20.

(** The characters of a path, last first, without the slashes it ends
    with. *)
Fixpoint drop_slashes (r : list ascii) : list ascii :=
  match r with
  | [] => []
  | c :: r' => if Ascii.eqb c "/" then drop_slashes r' else r
  end.

(** The same without the last component and the slash before it. *)
Fixpoint up_rev (r : list ascii) : list ascii :=
  match r with
  | [] => []
  | c :: r' => if Ascii.eqb c "/" then r' else up_rev r'
  end.

(** The directory a path is in: the root for a name under the root, the
    empty string (the current directory) for a name without a slash. *)
Definition parent (path : string) : string :=
  let r := drop_slashes (rev (list_ascii_of_string path)) in
  if existsb (Ascii.eqb "/") r then
    match drop_slashes (up_rev r) with
    | [] => "/"
    | r' => string_of_list_ascii (rev r')
    end
  else EmptyString.

(** [mkdir] and [mkfifo]: the path must not exist ([EEXIST]; the root
    does) and the directory it is in must ([ENOENT]) and be a directory
    ([ENOTDIR]); the root and the current directory are there.  The empty
    path gives [ENOENT]. *)
Definition create (k : Kind) (s : Sys) (path : string) : Sys * option Z :=
  match path, drop_slashes (rev (list_ascii_of_string path)) with
  | EmptyString, _ => (s, Some ENOENT)
  | _, [] => (s, Some 17)
  | _, _ :: _ =>
      match lookup path s with
      | Some _ => (s, Some 17)
      | None =>
          let up := parent path in
          if String.eqb up "/" || String.eqb up EmptyString
          then (s ++ [(path, k)], None)
          else
            match lookup up s with
            | Some KDir => (s ++ [(path, k)], None)
            | Some _ => (s, Some ENOTDIR)
            | None => (s, Some ENOENT)
            end
      end
  end.

(** The names directly under [dir]. *)
Definition children (dir : string) (s : Sys) : list string :=
  flat_map
    (fun e =>
       let p := fst e in
       let d := dir +++ "/" in
       if prefix d p then
         let name := substring (String.length d) (String.length p) p in
         if strchr name "/" then [] else [name]
       else [])
    s.

Definition os (run : list string -> Z) : OS Sys :=
  mkOS Sys true 17 1
    (fun e => "error " +++ decimal e)
    (fun s p => match lookup p s with Some _ => Some p | None => None end)
    (fun s p => match lookup p s with Some k => inl k | None => inr ENOENT end)
    (create KDir)
    (create KFifo)
    (fun s p => remove p s)
    (fun s d =>
       match lookup d s with
       | Some KDir => Some ("." :: ".." :: children d s)
       | _ => None
       end)
    (fun _ _ => None)
    (fun s argv => Some (s, run argv))
    (fun s _ _ => (s, 4242))
    (fun s => (s, None))
    (fun s => (s, Some 1)).

Definition sh : Shell := mkShell "rc: " (fun s => s).

(** A process with the descriptors below [nfd] open, no binds, no shell
    variables. *)
Definition world (s : Sys) (nfd : Z) : World Sys :=
  mkWorld dist_init s 0 (fun _ => []) false (Truth true)
    (fun fd => (0 <=? fd) && (fd <? nfd)) [] EmptyString [].

(** Every program launched exits with the status 1. *)
Definition failing (argv : list string) : Z := 256.

(** An argument of 5000 letters. *)
Definition long_arg : string := string_of_list_ascii (repeat "a"%char 5000).

(** [mount] exits with the status 0, every other program with 1. *)
Definition mount_works (argv : list string) : Z :=
  match argv with
  | prog :: _ => if String.eqb prog "mount" then 0 else 256
  | [] => 256
  end.

End Demo.

(** * Properties *)

(** ** The bind table *)

Lemma pathhash_range (s : string) : 0 <= pathhash s < BIND_MAX.
Proof. unfold pathhash, BIND_MAX. apply Z.mod_pos_bound. lia. Qed.

Lemma set_bucket_same (t : Z -> list Bind) (h : Z) (chain : list Bind) :
  set_bucket t h chain h = chain.
Proof. unfold set_bucket. now rewrite Z.eqb_refl. Qed.

Lemma set_bucket_other (t : Z -> list Bind) (h i : Z) (chain : list Bind) :
  i <> h -> set_bucket t h chain i = t i.
Proof.
  intros Hne. unfold set_bucket.
  destruct (Z.eqb_spec i h); [contradiction | reflexivity].
Qed.

Lemma streq_refl (s : string) : streq s s = true.
Proof. apply String.eqb_refl. Qed.

(** [find_chain] gives the head of the entries the walk keeps. *)
Lemma find_chain_filter (key : string) (chain : list Bind) :
  find_chain key chain = hd_error (filter (fun b => streq (to b) key) chain).
Proof.
  induction chain as [| b n IH]; simpl; [reflexivity |].
  destruct (streq (to b) key); [reflexivity | exact IH].
Qed.

Lemma find_bind_chain_for (t : Table) (key : string) :
  find_bind t key = hd_error (chain_for t key).
Proof. apply find_chain_filter. Qed.

(** A [Before] add puts the entry at the head of the bucket, with or
    without an entry for the mountpoint there. *)
Lemma add_bind_before (src dst : string) (t : Table) :
  bindtab (add_bind src dst BIND_BEFORE t) (pathhash dst)
  = mkBind src dst BIND_BEFORE :: bindtab t (pathhash dst).
Proof.
  unfold add_bind. cbn [bindtab]. rewrite set_bucket_same.
  destruct (find_bind t dst); reflexivity.
Qed.

(** An [After] add puts the entry at the end of the bucket when the
    mountpoint has an entry, at its head otherwise. *)
Lemma add_bind_after (src dst : string) (t : Table) :
  bindtab (add_bind src dst BIND_AFTER t) (pathhash dst)
  = match find_bind t dst with
    | Some _ => bindtab t (pathhash dst) ++ [mkBind src dst BIND_AFTER]
    | None => mkBind src dst BIND_AFTER :: bindtab t (pathhash dst)
    end.
Proof.
  unfold add_bind. cbn [bindtab]. rewrite set_bucket_same.
  destruct (find_bind t dst); reflexivity.
Qed.

Lemma add_bind_other_bucket (src dst : string) (m : Z) (t : Table) (i : Z) :
  i <> pathhash dst -> bindtab (add_bind src dst m t) i = bindtab t i.
Proof. intros Hne. unfold add_bind. cbn [bindtab]. now apply set_bucket_other. Qed.

Lemma three_binds_bucket (a b c dst : string) (t : Table) :
  bindtab (three_binds a b c dst t) (pathhash dst)
  = mkBind c dst BIND_BEFORE :: mkBind a dst BIND_BEFORE
      :: bindtab t (pathhash dst) ++ [mkBind b dst BIND_AFTER].
Proof.
  unfold three_binds.
  rewrite add_bind_before, add_bind_after, add_bind_before.
  unfold find_bind at 1. rewrite add_bind_before. simpl.
  now rewrite streq_refl.
Qed.

Lemma three_binds_chain_for (a b c dst : string) (t : Table) :
  chain_for (three_binds a b c dst t) dst
  = mkBind c dst BIND_BEFORE :: mkBind a dst BIND_BEFORE
      :: chain_for t dst ++ [mkBind b dst BIND_AFTER].
Proof.
  unfold chain_for. rewrite three_binds_bucket. simpl.
  rewrite streq_refl, filter_app. simpl. now rewrite streq_refl.
Qed.

(** C1, as amended.  After [Before(a)], [After(b)], [Before(c)] for one
    mountpoint, on any table: the entries for the mountpoint are, in the
    order of the chain, [c], [a], the entries the mountpoint had before in
    their order, then [b]; the first one found is [c]; the whole chain of
    the bucket is [c], [a], the chain as it was, then [b].  With no entry
    for the mountpoint before, its entries are [c], [a], [b], whatever
    other mountpoints share the bucket. *)
Theorem precedence_law (a b c dst : string) (t : Table) :
  chain_for (three_binds a b c dst t) dst
  = mkBind c dst BIND_BEFORE :: mkBind a dst BIND_BEFORE
      :: chain_for t dst ++ [mkBind b dst BIND_AFTER]
  /\ find_bind (three_binds a b c dst t) dst = Some (mkBind c dst BIND_BEFORE)
  /\ map from (chain_for (three_binds a b c dst t) dst)
     = c :: a :: map from (chain_for t dst) ++ [b]
  /\ bindtab (three_binds a b c dst t) (pathhash dst)
     = mkBind c dst BIND_BEFORE :: mkBind a dst BIND_BEFORE
         :: bindtab t (pathhash dst) ++ [mkBind b dst BIND_AFTER].
Proof.
  pose proof (three_binds_chain_for a b c dst t) as H.
  split; [exact H |]. split; [| split].
  - rewrite find_bind_chain_for, H. reflexivity.
  - rewrite H. simpl. now rewrite map_app.
  - apply three_binds_bucket.
Qed.

(** On a table with no entry for the mountpoint the order is [c], [a], [b],
    whatever else is in the bucket. *)
Lemma precedence_fresh (a b c dst : string) (t : Table) :
  find_bind t dst = None ->
  map from (chain_for (three_binds a b c dst t) dst) = [c; a; b].
Proof.
  intros Hnone. rewrite three_binds_chain_for.
  rewrite find_bind_chain_for in Hnone.
  destruct (chain_for t dst); [reflexivity | discriminate].
Qed.

(** ["!"] and ["ab"] are two mountpoints of one bucket. *)
Lemma precedence_fresh_collision :
  pathhash "!" = pathhash "ab"
  /\ map from (chain_for (three_binds "/a" "/b" "/c" "ab"
                           (add_bind "/o" "!" BIND_REPLACE dist_init)) "ab")
     = ["/c"; "/a"; "/b"].
Proof.
  split; [reflexivity |].
  apply (precedence_fresh "/a" "/b" "/c" "ab"). reflexivity.
Defined.

(** C1 as stated fails on a table that has an entry for the mountpoint:
    the entry stays between [a] and [b]. *)
Lemma precedence_counterexample :
  map from (chain_for (three_binds "/a" "/b" "/c" "/mnt"
                         (add_bind "/x" "/mnt" BIND_REPLACE dist_init)) "/mnt")
  = ["/c"; "/a"; "/x"; "/b"]
  /\ map from (chain_for (three_binds "/a" "/b" "/c" "/mnt"
                            (add_bind "/x" "/mnt" BIND_REPLACE dist_init)) "/mnt")
     <> ["/c"; "/a"; "/b"].
Proof. split; [reflexivity | discriminate]. Qed.

(** ** The resolver *)

(** C10.  [ns_resolve] of a null path is null, on every table and whatever
    [realpath] would answer: neither is consulted. *)
Theorem ns_resolve_null (realpath : string -> option string) (t : Table) :
  ns_resolve realpath t None = None.
Proof. reflexivity. Qed.

(** C5, as amended.  A path whose cleaned form has no entry resolves to
    the path as it was given, not to its cleaned form. *)
Theorem ns_resolve_unbound (realpath : string -> option string) (t : Table)
    (p : string) :
  find_bind t (cleanpath realpath (Some p)) = None ->
  ns_resolve realpath t (Some p) = Some p.
Proof.
  intros Hnone. unfold ns_resolve. unfold find_bind in Hnone.
  now rewrite Hnone.
Qed.

Lemma ns_resolve_unbound_witness :
  find_bind dist_init (cleanpath (fun _ => None) (Some "/n/tmp/")) = None
  /\ ns_resolve (fun _ => None) dist_init (Some "/n/tmp/") = Some "/n/tmp/".
Proof.
  split; [reflexivity |].
  apply (ns_resolve_unbound (fun _ => None) dist_init "/n/tmp/"). reflexivity.
Defined.

(** C5 as stated fails on a path that is not in clean form: the path
    ["/n/tmp/"] does not exist, its cleaned form ["/n/tmp"] has no entry,
    and the result is the argument, not the cleaned form. *)
Lemma ns_resolve_counterexample :
  cleanpath (fun _ => None) (Some "/n/tmp/") = "/n/tmp"
  /\ find_bind dist_init "/n/tmp" = None
  /\ ns_resolve (fun _ => None) dist_init (Some "/n/tmp/")
     <> Some (cleanpath (fun _ => None) (Some "/n/tmp/")).
Proof.
  split; [reflexivity |]. split; [reflexivity |]. discriminate.
Qed.

(** A bound path resolves to the [from] of the first entry. *)
Lemma ns_resolve_bound (realpath : string -> option string) (t : Table)
    (p : string) (b : Bind) :
  find_bind t (cleanpath realpath (Some p)) = Some b ->
  ns_resolve realpath t (Some p) = Some (from b).
Proof.
  intros Hb. unfold ns_resolve. unfold find_bind in Hb. now rewrite Hb.
Qed.

(** ** The entry count *)

Lemma buckets_NoDup : NoDup buckets.
Proof.
  unfold buckets. apply Finite.Injective_map_NoDup.
  - intros x y Hxy. lia.
  - apply seq_NoDup.
Qed.

Lemma buckets_In (h : Z) : 0 <= h < BIND_MAX -> In h buckets.
Proof.
  intros Hh. unfold buckets. apply in_map_iff.
  exists (Z.to_nat h). split; [lia |].
  apply in_seq. unfold BIND_MAX in *. lia.
Qed.

Lemma flat_map_set_bucket_notin (t : Z -> list Bind) (h : Z)
    (chain : list Bind) (l : list Z) :
  ~ In h l -> flat_map (set_bucket t h chain) l = flat_map t l.
Proof.
  induction l as [| i l IH]; simpl; intros Hnotin; [reflexivity |].
  rewrite set_bucket_other by (intros ->; apply Hnotin; now left).
  f_equal. apply IH. intros H. apply Hnotin. now right.
Qed.

Lemma length_flat_map_set_bucket (t : Z -> list Bind) (h : Z)
    (chain : list Bind) (l : list Z) :
  NoDup l -> In h l ->
  (List.length (flat_map (set_bucket t h chain) l) + List.length (t h)
   = List.length (flat_map t l) + List.length chain)%nat.
Proof.
  intros Hnd Hin. apply in_split in Hin. destruct Hin as (l1 & l2 & ->).
  apply NoDup_remove_2 in Hnd.
  assert (H1 : ~ In h l1) by (intros H; apply Hnd, in_or_app; now left).
  assert (H2 : ~ In h l2) by (intros H; apply Hnd, in_or_app; now right).
  rewrite !flat_map_app. simpl. rewrite set_bucket_same.
  rewrite !flat_map_set_bucket_notin by assumption.
  rewrite !length_app. lia.
Qed.

Lemma live_set_bucket (t : Table) (h : Z) (chain : list Bind) (n : Z) :
  0 <= h < BIND_MAX ->
  live (mkTable (set_bucket (bindtab t) h chain) n)
  = live t - Z.of_nat (List.length (bindtab t h))
    + Z.of_nat (List.length chain).
Proof.
  intros Hh. unfold live, entries. cbn [bindtab].
  pose proof (length_flat_map_set_bucket (bindtab t) h chain buckets
                buckets_NoDup (buckets_In h Hh)).
  lia.
Qed.

Lemma length_unlink_to (key : string) (chain : list Bind) :
  (List.length (unlink_to key chain)
   + List.length (filter (fun b => streq (to b) key) chain)
   = List.length chain)%nat.
Proof.
  induction chain as [| b n IH]; simpl; [reflexivity |].
  destruct (streq (to b) key); simpl; lia.
Qed.

(** [add_bind] counts one entry more; the table has one more too, less
    the entries the replace branch took out. *)
Lemma add_bind_counts (src dst : string) (m : Z) (t : Table) :
  ns_count (add_bind src dst m t) = ns_count t + 1
  /\ live (add_bind src dst m t)
     = live t + 1
       - (if replaces dst m t
          then Z.of_nat (List.length (chain_for t dst)) else 0).
Proof.
  split; [reflexivity |].
  unfold add_bind, replaces.
  rewrite live_set_bucket by apply pathhash_range.
  destruct (find_bind t dst) as [e |]; simpl.
  - destruct (nz (Z.land m BIND_BEFORE)); simpl; [lia |].
    destruct (nz (Z.land m BIND_AFTER)); simpl.
    + rewrite length_app. simpl. lia.
    + pose proof (length_unlink_to dst (bindtab t (pathhash dst))).
      unfold chain_for. lia.
  - lia.
Qed.

Lemma remove_chain_length (src : option string) (key : string)
    (chain : list Bind) :
  Z.of_nat (List.length (fst (remove_chain src key chain)))
  = Z.of_nat (List.length chain) - snd (remove_chain src key chain).
Proof.
  induction chain as [| b n IH]; [reflexivity |].
  cbn [remove_chain].
  destruct (streq (to b) key
            && match src with None => true | Some f => streq (from b) f end).
  - destruct src; cbn [fst snd List.length]; [lia |].
    destruct (remove_chain None key n) as [n' k].
    cbn [fst snd List.length] in *. lia.
  - destruct (remove_chain src key n) as [n' k].
    cbn [fst snd List.length] in *. lia.
Qed.

(** [remove_bind] takes from the count what it takes from the table. *)
Lemma remove_bind_counts (src : option string) (key : string) (t : Table) :
  ns_count (fst (remove_bind src key t)) - live (fst (remove_bind src key t))
  = ns_count t - live t.
Proof.
  unfold remove_bind.
  pose proof (remove_chain_length src key (bindtab t (pathhash key))) as H.
  destruct (remove_chain src key (bindtab t (pathhash key))) as [chain' k].
  cbn [fst snd] in *. rewrite live_set_bucket by apply pathhash_range.
  unfold ns_count. cbn [nbinds]. lia.
Qed.

(** A replace over existing entries leaves the count above the number of
    entries by as many as it took out. *)
Lemma add_bind_replace_drift (src dst : string) (t : Table) (e : Bind) :
  find_bind t dst = Some e ->
  ns_count (add_bind src dst BIND_REPLACE t)
    - live (add_bind src dst BIND_REPLACE t)
  = ns_count t - live t + Z.of_nat (List.length (chain_for t dst))
  /\ (0 < List.length (chain_for t dst))%nat.
Proof.
  intros He. destruct (add_bind_counts src dst BIND_REPLACE t) as [Hc Hl].
  rewrite Hc, Hl. unfold replaces. rewrite He. simpl. split; [lia |].
  rewrite find_bind_chain_for in He.
  destruct (chain_for t dst); [discriminate | simpl; lia].
Qed.

(** C2 at its failing input: after [bind /a /mnt] and [bind /b /mnt] on an
    empty table, both successful, the table holds one entry and [ns_count]
    answers 2. *)
Theorem ns_count_after_replace :
  option_map
    (fun w => (status w, ns_count (table w), entries (table w)))
    (run_script (Demo.os Demo.failing) Demo.sh
       [(Bbind, ["bind"; "/a"; "/mnt"]); (Bbind, ["bind"; "/b"; "/mnt"])]
       (Demo.world [("/a", KDir); ("/b", KDir); ("/mnt", KDir)] 3))
  = Some (Truth true, 2, [mkBind "/b" "/mnt" BIND_REPLACE]).
Proof. vm_compute. reflexivity. Qed.

(** ** rfork and the file descriptors *)

Section Rfork.

Context {S : Type}.
Variable os : OS S.
Variable sh : Shell.

Lemma fds_close_all (l : list Z) (w : World S) (x : Z) :
  fds (fold_left (fun w' fd => close fd w') l w) x
  = if existsb (Z.eqb x) l then false else fds w x.
Proof.
  revert w. induction l as [| fd l IH]; intros w; simpl; [reflexivity |].
  rewrite IH. destruct (existsb (Z.eqb x) l); [now rewrite orb_true_r |].
  rewrite orb_false_r. reflexivity.
Qed.

Lemma rfork_fd_range_spec (x : Z) :
  existsb (Z.eqb x) rfork_fd_range = (3 <=? x) && (x <? 256).
Proof.
  destruct ((3 <=? x) && (x <? 256)) eqn:E.
  - apply existsb_exists. exists x. split; [| apply Z.eqb_refl].
    unfold rfork_fd_range. apply in_map_iff. exists (Z.to_nat x).
    split; [lia |]. apply in_seq. lia.
  - destruct (existsb (Z.eqb x) rfork_fd_range) eqn:F; [| reflexivity].
    apply existsb_exists in F. destruct F as (y & Hy & Hxy).
    apply Z.eqb_eq in Hxy. subst y.
    unfold rfork_fd_range in Hy. apply in_map_iff in Hy.
    destruct Hy as (n & <- & Hn). apply in_seq in Hn. lia.
Qed.

(** [b_rfork] for flags that ask for no new process group and no new
    namespace. *)
Lemma b_rfork_plain (name f : string) (flags : Z) (w : World S) :
  rfork_flags f 0 = inl flags ->
  (flags =? 0) = false ->
  nz (Z.land flags RFNOTEG) = false ->
  nz (Z.land flags RFNAMEG) = false ->
  b_rfork os sh [name; f] w = set true (rfork_fds flags (rfork_env flags w)).
Proof.
  intros Hf H0 Hpg Hns. unfold b_rfork. cbn [tl]. rewrite Hf, H0.
  unfold rfork_pgrp. rewrite Hpg, Hns. reflexivity.
Qed.

Lemma fds_set (b : bool) (w : World S) : fds (set b w) = fds w.
Proof. reflexivity. Qed.

Lemma rfork_env_off (flags : Z) (w : World S) :
  nz (Z.land flags RFENVG) = false -> rfork_env flags w = w.
Proof. intros H. unfold rfork_env. now rewrite H. Qed.

Lemma rfork_fds_on (flags : Z) (w : World S) :
  nz (Z.land flags RFFDG) = true ->
  rfork_fds flags w = fold_left (fun w' fd => close fd w') rfork_fd_range w.
Proof. intros H. unfold rfork_fds. now rewrite H. Qed.

(** [rfork f] closes the descriptors 3 to 255 and leaves every other one,
    also those from 256 on, as it was. *)
Lemma rfork_f_fds (w : World S) (x : Z) :
  fds (b_rfork os sh ["rfork"; "f"] w) x
  = if (3 <=? x) && (x <? 256) then false else fds w x.
Proof.
  rewrite (b_rfork_plain "rfork" "f" RFFDG) by reflexivity.
  rewrite fds_set, rfork_env_off, rfork_fds_on by reflexivity.
  rewrite fds_close_all, rfork_fd_range_spec. reflexivity.
Qed.

End Rfork.

(** C4 at its failing input: in a process with the descriptors 0 to 399
    open, [rfork f] closes 3 and 255, keeps 0, 1 and 2, and leaves 256 and
    399 open. *)
Theorem rfork_f_keeps_fd_256 :
  map (fds (b_rfork (Demo.os Demo.failing) Demo.sh ["rfork"; "f"]
              (Demo.world [] 400)))
    [0; 1; 2; 3; 255; 256; 399]
  = [true; true; true; false; false; true; true].
Proof. vm_compute. reflexivity. Qed.

(** ** mount *)

Lemma nz_lor_create (m : Z) :
  nz (Z.land (Z.lor m BIND_CREATE) BIND_CREATE) = true.
Proof.
  unfold nz. rewrite Z.land_lor_distr_l.
  destruct (Z.eqb_spec (Z.lor (Z.land m BIND_CREATE)
                          (Z.land BIND_CREATE BIND_CREATE)) 0) as [E |];
    [| reflexivity].
  apply Z.lor_eq_0_iff in E. destruct E as [_ E]. discriminate E.
Qed.

(** [add_bind] does not see the create flag. *)
Lemma add_bind_create (src dst : string) (m : Z) (t : Table) :
  add_bind src dst (Z.lor m BIND_CREATE) t = add_bind src dst m t.
Proof.
  unfold add_bind.
  assert (H : forall k, Z.land BIND_CREATE k = 0 ->
                        Z.land (Z.lor m BIND_CREATE) k = Z.land m k).
  { intros k Hk. now rewrite Z.land_lor_distr_l, Hk, Z.lor_0_r. }
  rewrite !H by reflexivity. reflexivity.
Qed.

Section Mount.

Context {S : Type}.
Variable os : OS S.
Variable sh : Shell.

Lemma stat_keeps (path : string) (w : World S) :
  keeps w (fst (stat os path w)).
Proof. unfold stat. destruct (os_stat os (sys w) path); split; reflexivity. Qed.

Lemma isdir_keeps (path : string) (w : World S) :
  keeps w (fst (isdir os path w)).
Proof.
  unfold isdir. pose proof (stat_keeps path w) as H.
  destruct (stat os path w). exact H.
Qed.

Lemma mkdir_keeps (path : string) (w : World S) :
  keeps w (fst (mkdir os path w)).
Proof.
  unfold mkdir. destruct (os_mkdir os (sys w) path) as [s [e |]];
    split; reflexivity.
Qed.

Lemma keeps_trans (w1 w2 w3 : World S) :
  keeps w1 w2 -> keeps w2 w3 -> keeps w1 w3.
Proof. intros [H1 H2] [H3 H4]. split; congruence. Qed.

Lemma ensuredir_keeps (path : string) (m : Z) (w : World S) :
  keeps w (fst (ensuredir os path m w)).
Proof.
  unfold ensuredir. pose proof (isdir_keeps path w) as H1.
  destruct (isdir os path w) as [w1 d]. cbn [fst] in H1.
  destruct d; [exact H1 |].
  destruct (nz (Z.land m BIND_CREATE)); [| exact H1].
  pose proof (mkdir_keeps path w1) as H2.
  destruct (mkdir os path w1) as [w2 ok]. cbn [fst] in H2.
  pose proof (keeps_trans _ _ _ H1 H2) as H.
  destruct ok; [exact H |]. destruct (errno w2 =? EEXIST os); exact H.
Qed.

(** [run_cmd] keeps the table and records the launch; without a child the
    status it returns is not that of a successful exit. *)
Lemma run_cmd_spec (argv : list string) (w : World S) :
  table (fst (run_cmd os argv w)) = table w
  /\ (out (fst (run_cmd os argv w))
      = out w ++ [Launch argv (Some (snd (run_cmd os argv w)))]
      \/ (exited0 (snd (run_cmd os argv w)) = false
          /\ out (fst (run_cmd os argv w))
             = out w ++ [Launch argv None; Uerror "fork"])).
Proof.
  unfold run_cmd. destruct (os_spawn os (sys w) argv) as [[s st] |]; cbn.
  - split; [reflexivity | now left].
  - split; [reflexivity |]. right. split; [reflexivity |].
    now rewrite <- app_assoc.
Qed.

Lemma launched_well_app_r (a b : list Event) :
  launched_well b -> launched_well (a ++ b).
Proof.
  intros (argv & st & Hin & Hok). exists argv, st.
  split; [apply in_or_app; now right | exact Hok].
Qed.

Lemma launched_well_app_l (a b : list Event) :
  launched_well a -> launched_well (a ++ b).
Proof.
  intros (argv & st & Hin & Hok). exists argv, st.
  split; [apply in_or_app; now left | exact Hok].
Qed.

Lemma not_launched_well_app (a b : list Event) :
  ~ launched_well a -> ~ launched_well b -> ~ launched_well (a ++ b).
Proof.
  intros Ha Hb (argv & st & Hin & Hok). apply in_app_or in Hin.
  destruct Hin as [Hin | Hin]; [apply Ha | apply Hb]; now exists argv, st.
Qed.

Lemma not_launched_well_print (fd : Z) (s : string) :
  ~ launched_well [Print fd s].
Proof.
  intros (argv & st & [Hin | []] & _). discriminate Hin.
Qed.

(** What [run_cmd] adds to the output, by the status it returns. *)
Lemma run_cmd_events (argv : list string) (w : World S) :
  exists evs,
    out (fst (run_cmd os argv w)) = out w ++ evs
    /\ (exited0 (snd (run_cmd os argv w)) = true -> launched_well evs)
    /\ (exited0 (snd (run_cmd os argv w)) = false -> ~ launched_well evs).
Proof.
  destruct (run_cmd_spec argv w) as [_ [Ho | [Hst Ho]]].
  - exists [Launch argv (Some (snd (run_cmd os argv w)))].
    split; [exact Ho |]. split.
    + intros Hok. exists argv, (snd (run_cmd os argv w)).
      split; [now left | exact Hok].
    + intros Hno (argv' & st & [Hin | []] & Hok).
      inversion Hin; subst. congruence.
  - exists [Launch argv None; Uerror "fork"].
    split; [exact Ho |]. split.
    + intros Hok. congruence.
    + intros _ (argv' & st & [Hin | [Hin | []]] & _); discriminate Hin.
Qed.

(** An outcome after steps that kept the table and launched nothing that
    ended well. *)
Lemma mount_outcome_after (m : Z) (w w1 w' : World S) (evs1 evs2 : list Event) :
  table w1 = table w -> ~ launched_well evs1 ->
  mount_outcome m w1 w' evs2 -> mount_outcome m w w' (evs1 ++ evs2).
Proof.
  intros Ht Hno [(Hs & Htab & Hn) | (Hs & (src & dst & Htab) & Hl)].
  - left. split; [exact Hs |]. split; [congruence |].
    now apply not_launched_well_app.
  - right. split; [exact Hs |]. split.
    + exists src, dst. congruence.
    + now apply launched_well_app_r.
Qed.

(** The tail of [b_mount], [b_import]: one launch, the entry recorded on
    success, a diagnostic otherwise. *)
Lemma attach_or_fail (m : Z) (argv : list string) (src dst text : string)
    (w : World S) :
  let w' :=
    let (w1, st) := run_cmd os argv w in
    if exited0 st then set true (record_bind os src dst m w1)
    else fail text w1 in
  exists evs, out w' = out w ++ evs /\ mount_outcome m w w' evs.
Proof.
  destruct (run_cmd_spec argv w) as [Ht _].
  destruct (run_cmd_events argv w) as (evs & Ho & Hyes & Hno).
  destruct (run_cmd os argv w) as [w1 st]. cbn [fst snd] in *.
  destruct (exited0 st).
  - exists evs. split; [exact Ho |]. right.
    split; [reflexivity |]. split; [| now apply Hyes].
    exists (clean os src w1), (clean os dst w1).
    unfold record_bind. cbn [set set_status set_table table]. now rewrite Ht.
  - exists (evs ++ [Print 2 text]). split.
    + cbn [fail set set_status fprint emit out]. now rewrite Ho, app_assoc.
    + left. split; [reflexivity |]. split; [exact Ht |].
      apply not_launched_well_app;
        [now apply Hno | apply not_launched_well_print].
Qed.

Lemma mount_system_outcome (m : Z) (spec : option string)
    (addr mountpoint : string) (w : World S) :
  exists evs,
    out (mount_system os sh m spec addr mountpoint w) = out w ++ evs
    /\ mount_outcome m w (mount_system os sh m spec addr mountpoint w) evs.
Proof. apply attach_or_fail. Qed.

Lemma mount_attach_outcome (m : Z) (spec : option string)
    (addr mountpoint : string) (w : World S) :
  exists evs,
    out (mount_attach os sh m spec addr mountpoint w) = out w ++ evs
    /\ mount_outcome m w (mount_attach os sh m spec addr mountpoint w) evs.
Proof.
  unfold mount_attach.
  destruct (strchr addr ":" && strchr addr "/");
    [| apply mount_system_outcome].
  destruct (run_cmd_spec (sshfs_cmd addr mountpoint spec) w) as [Ht _].
  destruct (run_cmd_events (sshfs_cmd addr mountpoint spec) w)
    as (evs & Ho & Hyes & Hno).
  destruct (run_cmd os (sshfs_cmd addr mountpoint spec) w) as [w1 st].
  cbn [fst snd] in *. destruct (exited0 st).
  - exists evs. split; [exact Ho |]. right.
    split; [reflexivity |]. split; [| now apply Hyes].
    exists (clean os addr w1), (clean os mountpoint w1).
    unfold record_bind. cbn [set set_status set_table table]. now rewrite Ht.
  - set (text := RC sh +++ "mount: sshfs failed, trying mount(8)" +++ nl).
    destruct (mount_system_outcome m spec addr mountpoint (fprint 2 text w1))
      as (evs2 & Ho2 & Hout).
    exists ((evs ++ [Print 2 text]) ++ evs2). split.
    + rewrite Ho2. cbn [fprint emit out]. now rewrite Ho, !app_assoc.
    + apply mount_outcome_after with (w1 := fprint 2 text w1).
      * exact Ht.
      * apply not_launched_well_app;
          [now apply Hno | apply not_launched_well_print].
      * exact Hout.
Qed.

Lemma fail_outcome (m : Z) (text : string) (w w1 : World S) :
  keeps w w1 ->
  exists evs,
    out (fail text w1) = out w ++ evs /\ mount_outcome m w (fail text w1) evs.
Proof.
  intros [Ht Ho]. exists [Print 2 text]. split.
  - cbn [fail set set_status fprint emit out]. now rewrite Ho.
  - left. split; [reflexivity |]. split; [exact Ht |].
    apply not_launched_well_print.
Qed.

Lemma keeps_refl (w : World S) : keeps w w.
Proof. split; reflexivity. Qed.

Lemma mount_at_outcome (m : Z) (spec : option string)
    (addr mountpoint : string) (w : World S) :
  exists evs,
    out (mount_at os sh m spec addr mountpoint w) = out w ++ evs
    /\ mount_outcome m w (mount_at os sh m spec addr mountpoint w) evs.
Proof.
  unfold mount_at.
  pose proof (ensuredir_keeps mountpoint (Z.lor m BIND_CREATE) w) as Hk.
  destruct (ensuredir os mountpoint (Z.lor m BIND_CREATE) w) as [w1 r].
  cbn [fst] in Hk. destruct (nz r); [now apply fail_outcome |].
  destruct (mount_attach_outcome m spec addr mountpoint w1)
    as (evs & Ho & Hout).
  destruct Hk as [Ht Hk]. exists evs. split; [congruence |].
  replace evs with ([] ++ evs) by reflexivity.
  apply mount_outcome_after with (w1 := w1); [exact Ht | | exact Hout].
  intros (argv & st & [] & _).
Qed.

Lemma b_mount_outcome (av : list string) (w : World S) :
  exists m evs,
    out (b_mount os sh av w) = out w ++ evs
    /\ mount_outcome m w (b_mount os sh av w) evs.
Proof.
  unfold b_mount.
  destruct (mount_options (tl av) BIND_REPLACE None)
    as [[[m spec] rest] | c | c].
  - exists m. destruct rest as [| addr [| mountpoint rest]].
    + apply fail_outcome, keeps_refl.
    + apply fail_outcome, keeps_refl.
    + apply mount_at_outcome.
  - exists 0. apply fail_outcome, keeps_refl.
  - exists 0. apply fail_outcome, keeps_refl.
Qed.

(** C8.  A mount that reports failure leaves the bind table, entries and
    count, as it was; and a mount none of whose launches ended with the
    exit status 0 reports failure. *)
Theorem mount_failure_keeps_table (av : list string) (w : World S) :
  (status (b_mount os sh av w) = Truth false ->
   table (b_mount os sh av w) = table w)
  /\ (forall evs,
        out (b_mount os sh av w) = out w ++ evs ->
        ~ launched_well evs ->
        status (b_mount os sh av w) = Truth false
        /\ table (b_mount os sh av w) = table w).
Proof.
  destruct (b_mount_outcome av w) as (m & evs & Ho & Hout). split.
  - intros Hs. destruct Hout as [(_ & Ht & _) | (Hs' & _)];
      [exact Ht | congruence].
  - intros evs' Ho' Hno. rewrite Ho in Ho'. apply app_inv_head in Ho'.
    subst evs'. destruct Hout as [(Hs & Ht & _) | (_ & _ & Hl)];
      [now split | contradiction].
Qed.

Lemma record_bind_create (src dst : string) (m : Z) (w : World S) :
  record_bind os src dst (Z.lor m BIND_CREATE) w = record_bind os src dst m w.
Proof. unfold record_bind. now rewrite add_bind_create. Qed.

Lemma mount_system_create (m : Z) (spec : option string)
    (addr mountpoint : string) (w : World S) :
  mount_system os sh (Z.lor m BIND_CREATE) spec addr mountpoint w
  = mount_system os sh m spec addr mountpoint w.
Proof.
  unfold mount_system.
  destruct (run_cmd os (mount_cmd addr mountpoint spec) w) as [w1 st].
  now rewrite record_bind_create.
Qed.

Lemma mount_attach_create (m : Z) (spec : option string)
    (addr mountpoint : string) (w : World S) :
  mount_attach os sh (Z.lor m BIND_CREATE) spec addr mountpoint w
  = mount_attach os sh m spec addr mountpoint w.
Proof.
  unfold mount_attach.
  destruct (strchr addr ":" && strchr addr "/");
    [| apply mount_system_create].
  destruct (run_cmd os (sshfs_cmd addr mountpoint spec) w) as [w1 st].
  now rewrite record_bind_create, mount_system_create.
Qed.

Lemma b_mount_parsed (av rest : list string) (m : Z) (spec : option string)
    (addr mountpoint : string) (w : World S) :
  mount_options (tl av) BIND_REPLACE None
  = Ok (m, spec, addr :: mountpoint :: rest) ->
  b_mount os sh av w = mount_at os sh m spec addr mountpoint w.
Proof. intros H. unfold b_mount. now rewrite H. Qed.

(** C3, as amended.  [mount] looks for the mount point and, when it is not
    a directory, calls [mkdir] whether or not the create flag is in the
    mode; "cannot create" is printed when that [mkdir] fails with an error
    other than [EEXIST], and only then.  The create flag changes nothing in
    what [mount] does. *)
Theorem mount_creates_mountpoint (m : Z) (spec : option string)
    (addr mountpoint : string) (w : World S) :
  mount_at os sh m spec addr mountpoint w
  = (let (w1, d) := isdir os mountpoint w in
     if d then mount_attach os sh m spec addr mountpoint w1
     else
       let (w2, ok) := mkdir os mountpoint w1 in
       if ok || (errno w2 =? EEXIST os)
       then mount_attach os sh m spec addr mountpoint w2
       else fail (RC sh +++ "mount: cannot create " +++ mountpoint +++ ": "
                    +++ strerror os (errno w2) +++ nl) w2)
  /\ mount_at os sh (Z.lor m BIND_CREATE) spec addr mountpoint w
     = mount_at os sh m spec addr mountpoint w.
Proof.
  split.
  - unfold mount_at, ensuredir.
    destruct (isdir os mountpoint w) as [w1 d]. destruct d; [reflexivity |].
    rewrite nz_lor_create.
    destruct (mkdir os mountpoint w1) as [w2 ok]. destruct ok; [reflexivity |].
    cbn [orb]. destruct (errno w2 =? EEXIST os); reflexivity.
  - unfold mount_at.
    replace (Z.lor (Z.lor m BIND_CREATE) BIND_CREATE)
      with (Z.lor m BIND_CREATE)
      by (now rewrite <- Z.lor_assoc, Z.lor_diag).
    destruct (ensuredir os mountpoint (Z.lor m BIND_CREATE) w) as [w1 r].
    destruct (nz r); [reflexivity | apply mount_attach_create].
Qed.

End Mount.

Lemma mount_failure_keeps_table_witness :
  (status (b_mount (Demo.os Demo.failing) Demo.sh
             ["mount"; "-a"; "h:/srv"; "/mnt"] (Demo.world [] 3))
   = Truth false
   /\ table (b_mount (Demo.os Demo.failing) Demo.sh
               ["mount"; "-a"; "h:/srv"; "/mnt"] (Demo.world [] 3))
      = table (Demo.world [] 3))
  /\ (~ launched_well
          (out (b_mount (Demo.os Demo.failing) Demo.sh
                  ["mount"; "-a"; "h:/srv"; "/mnt"] (Demo.world [] 3)))
      /\ status (b_mount (Demo.os Demo.failing) Demo.sh
                   ["mount"; "-a"; "h:/srv"; "/mnt"] (Demo.world [] 3))
         = Truth false
      /\ table (b_mount (Demo.os Demo.failing) Demo.sh
                  ["mount"; "-a"; "h:/srv"; "/mnt"] (Demo.world [] 3))
         = table (Demo.world [] 3)).
Proof.
  pose proof (mount_failure_keeps_table (Demo.os Demo.failing) Demo.sh
                ["mount"; "-a"; "h:/srv"; "/mnt"] (Demo.world [] 3)) as [H1 H2].
  assert (Hno : ~ launched_well
                    (out (b_mount (Demo.os Demo.failing) Demo.sh
                            ["mount"; "-a"; "h:/srv"; "/mnt"]
                            (Demo.world [] 3)))).
  { intros (argv & st & Hin & Hok). vm_compute in Hin.
    repeat (destruct Hin as [Hin | Hin];
            [try discriminate Hin; inversion Hin; subst st; discriminate Hok |]).
    exact Hin. }
  split.
  - split; [reflexivity |]. apply H1. reflexivity.
  - split; [exact Hno |].
    apply (H2 (out (b_mount (Demo.os Demo.failing) Demo.sh
                      ["mount"; "-a"; "h:/srv"; "/mnt"] (Demo.world [] 3))));
      [reflexivity | exact Hno].
Defined.

(** C3 as stated fails: [mount srv /mnt/x] has no create flag, [/mnt/x]
    does not exist, and the mount creates the directory and prints no
    "cannot create" (the mount program then fails). *)
Lemma mount_create_counterexample :
  mount_options ["srv"; "/mnt/x"] BIND_REPLACE None
  = Ok (BIND_REPLACE, None, ["srv"; "/mnt/x"])
  /\ Z.land BIND_REPLACE BIND_CREATE = 0
  /\ os_stat (Demo.os Demo.failing) (sys (Demo.world [("/mnt", KDir)] 3))
       "/mnt/x" = inr Demo.ENOENT
  /\ os_stat (Demo.os Demo.failing)
       (sys (b_mount (Demo.os Demo.failing) Demo.sh ["mount"; "srv"; "/mnt/x"]
               (Demo.world [("/mnt", KDir)] 3)))
       "/mnt/x" = inl KDir
  /\ out (b_mount (Demo.os Demo.failing) Demo.sh ["mount"; "srv"; "/mnt/x"]
            (Demo.world [("/mnt", KDir)] 3))
     = [Launch ["mount"; "srv"; "/mnt/x"] (Some 256);
        Print 2 ("rc: mount: failed to mount srv on /mnt/x" +++ nl)].
Proof. vm_compute. repeat split. Qed.

(** ** srv *)

Section Srv.

Context {S : Type}.
Variable os : OS S.
Variable sh : Shell.

Lemma ensure_srvdir_keeps (w : World S) : keeps w (ensure_srvdir os w).
Proof.
  unfold ensure_srvdir. pose proof (stat_keeps os SRV_DIR w) as H1.
  destruct (stat os SRV_DIR w) as [w1 r]. cbn [fst] in H1.
  destruct (exists_ r); [exact H1 |].
  exact (keeps_trans _ _ _ H1 (mkdir_keeps os SRV_DIR w1)).
Qed.

(** The scan prints lines on descriptor 1 and nothing else. *)
Lemma srv_scan_prints (names : list string) (found : bool) (w : World S) :
  exists lines,
    out (fst (srv_scan os names found w)) = out w ++ map (Print 1) lines.
Proof.
  revert found w. induction names as [| d_name rest IH]; intros found w.
  - exists []. cbn. now rewrite app_nil_r.
  - cbn [srv_scan]. destruct (dotted d_name); [apply IH |].
    pose proof (stat_keeps os (truncate 4096 (SRV_DIR +++ "/" +++ d_name)) w)
      as [_ Ho].
    destruct (stat os (truncate 4096 (SRV_DIR +++ "/" +++ d_name)) w)
      as [w1 [k |]]; cbn [fst] in Ho.
    + match goal with
      | |- context [srv_scan os rest true (fprint 1 ?l w1)] =>
          destruct (IH true (fprint 1 l w1)) as (lines & Hl);
          exists (l :: lines); rewrite Hl
      end.
      cbn [fprint emit out map]. now rewrite Ho, <- app_assoc.
    + destruct (IH found w1) as (lines & Hl). exists lines. congruence.
Qed.

(** Names that start with a dot are passed over. *)
Lemma srv_scan_dotted (names : list string) (found : bool) (w : World S) :
  forallb dotted names = true -> srv_scan os names found w = (w, found).
Proof.
  induction names as [| d_name rest IH]; intros H; [reflexivity |].
  cbn [forallb] in H. apply andb_prop in H. destruct H as [Hd Hr].
  cbn [srv_scan]. rewrite Hd. now apply IH.
Qed.

Lemma b_srv_list (w : World S) :
  b_srv os sh ["srv"] w = srv_list os (ensure_srvdir os w).
Proof. reflexivity. Qed.

(** C6, as amended.  [srv] without arguments prints lines on descriptor 1,
    launches no program and reports success; when the service directory
    cannot be opened or shows no name without a leading dot it prints the
    one line "# no services (srv dir: /tmp/rc-srv)". *)
Theorem srv_list_launches_nothing (w : World S) :
  (exists lines, out (b_srv os sh ["srv"] w) = out w ++ map (Print 1) lines)
  /\ launches (out (b_srv os sh ["srv"] w)) = launches (out w)
  /\ status (b_srv os sh ["srv"] w) = Truth true
  /\ (srv_dir_bare (os_readdir os (sys (ensure_srvdir os w)) SRV_DIR) = true ->
      out (b_srv os sh ["srv"] w)
      = out w ++ [Print 1 ("# no services (srv dir: " +++ SRV_DIR +++ ")"
                             +++ nl)]).
Proof.
  assert (Hlines : exists lines,
             out (b_srv os sh ["srv"] w) = out w ++ map (Print 1) lines).
  { rewrite b_srv_list. destruct (ensure_srvdir_keeps w) as [_ Ho].
    unfold srv_list. rewrite <- Ho.
    assert (Hs : exists lines found w1,
               match os_readdir os (sys (ensure_srvdir os w)) SRV_DIR with
               | Some names => srv_scan os names false (ensure_srvdir os w)
               | None => (ensure_srvdir os w, false)
               end = (w1, found)
               /\ out w1 = out (ensure_srvdir os w) ++ map (Print 1) lines).
    { destruct (os_readdir os (sys (ensure_srvdir os w)) SRV_DIR)
        as [names |].
      - destruct (srv_scan_prints names false (ensure_srvdir os w))
          as (lines & Hl).
        destruct (srv_scan os names false (ensure_srvdir os w))
          as [w1 found].
        now exists lines, found, w1.
      - exists [], false, (ensure_srvdir os w). now rewrite app_nil_r. }
    destruct Hs as (lines & found & w1 & -> & Hl).
    destruct found; cbn [negb].
    - exists lines. exact Hl.
    - exists (lines ++ ["# no services (srv dir: " +++ SRV_DIR +++ ")" +++ nl]).
      cbn [set set_status fprint emit out].
      now rewrite Hl, map_app, app_assoc. }
  split; [exact Hlines |]. split; [| split].
  - destruct Hlines as (lines & ->). unfold launches.
    rewrite flat_map_app.
    replace (flat_map _ (map (Print 1) lines)) with (@nil (list string)).
    + now rewrite app_nil_r.
    + induction lines; [reflexivity | assumption].
  - rewrite b_srv_list. unfold srv_list.
    destruct (match os_readdir os (sys (ensure_srvdir os w)) SRV_DIR with
              | Some names => srv_scan os names false (ensure_srvdir os w)
              | None => (ensure_srvdir os w, false)
              end) as [w1 found].
    reflexivity.
  - intros Hbare. rewrite b_srv_list.
    destruct (ensure_srvdir_keeps w) as [_ Ho]. unfold srv_list.
    destruct (os_readdir os (sys (ensure_srvdir os w)) SRV_DIR) as [names |].
    + cbn [srv_dir_bare] in Hbare. rewrite srv_scan_dotted by exact Hbare.
      cbn [negb set set_status fprint emit out]. now rewrite Ho.
    + cbn [negb set set_status fprint emit out]. now rewrite Ho.
Qed.

(** The bare [mount] is launched by [ns], when the table is empty and
    [/proc/mounts] cannot be opened. *)
Lemma ns_mount_fallback (w : World S) :
  entries (table w) = [] ->
  os_readfile os (sys w) "/proc/mounts" = None ->
  launches (out (b_ns os sh ["ns"] w)) = launches (out w) ++ [["mount"]].
Proof.
  intros He Hf. unfold b_ns. cbn [tl r_options]. rewrite He.
  cbn [map print_all fold_left List.length Z.of_nat Z.eqb negb andb].
  rewrite Hf. destruct (run_cmd_spec os ["mount"] w) as [_ [Ho | [_ Ho]]];
    cbn [set set_status out]; rewrite Ho; unfold launches;
    rewrite flat_map_app; reflexivity.
Qed.

End Srv.

Lemma srv_list_launches_nothing_witness :
  srv_dir_bare
    (os_readdir (Demo.os Demo.failing)
       (sys (ensure_srvdir (Demo.os Demo.failing) (Demo.world [] 3)))
       SRV_DIR) = true
  /\ out (b_srv (Demo.os Demo.failing) Demo.sh ["srv"] (Demo.world [] 3))
     = out (Demo.world [] 3)
       ++ [Print 1 ("# no services (srv dir: " +++ SRV_DIR +++ ")" +++ nl)].
Proof.
  split; [reflexivity |].
  apply (srv_list_launches_nothing (Demo.os Demo.failing) Demo.sh
           (Demo.world [] 3)).
  reflexivity.
Defined.

(** C6 as stated fails: with [/tmp] and no service directory in it [srv]
    makes the directory, finds it empty, prints its one line and launches
    nothing, no [mount]; [ns] on the same process launches [mount]. *)
Lemma srv_list_counterexample :
  os_readdir (Demo.os Demo.failing)
    (sys (ensure_srvdir (Demo.os Demo.failing)
            (Demo.world [("/tmp", KDir)] 3))) SRV_DIR
  = Some ["."; ".."]
  /\ out (b_srv (Demo.os Demo.failing) Demo.sh ["srv"]
            (Demo.world [("/tmp", KDir)] 3))
     = [Print 1 ("# no services (srv dir: /tmp/rc-srv)" +++ nl)]
  /\ launches (out (b_srv (Demo.os Demo.failing) Demo.sh ["srv"]
                      (Demo.world [("/tmp", KDir)] 3))) = []
  /\ launches (out (b_ns (Demo.os Demo.failing) Demo.sh ["ns"]
                      (Demo.world [("/tmp", KDir)] 3))) = [["mount"]].
Proof. vm_compute. repeat split. Qed.

(** ** cpu *)

Lemma length_append (a b : string) :
  String.length (a +++ b) = (String.length a + String.length b)%nat.
Proof. induction a as [| c a IH]; simpl; [reflexivity | now rewrite IH]. Qed.

Lemma append_assoc (a b c : string) : (a +++ b) +++ c = a +++ b +++ c.
Proof. induction a as [| x a IH]; simpl; [reflexivity | now rewrite IH]. Qed.

Lemma append_nil_r (a : string) : a +++ EmptyString = a.
Proof. induction a as [| x a IH]; simpl; [reflexivity | now rewrite IH]. Qed.

Lemma substring_all (n : nat) (s : string) :
  (String.length s <= n)%nat -> substring 0 n s = s.
Proof.
  revert n. induction s as [| c s IH]; intros n Hn.
  - destruct n; reflexivity.
  - destruct n as [| n]; simpl in *; [lia |]. rewrite IH by lia. reflexivity.
Qed.

Lemma truncate_fits (size : Z) (s : string) :
  Z.of_nat (String.length s) < size -> truncate size s = s.
Proof. intros H. unfold truncate. apply substring_all. lia. Qed.

(** A write that fits is an append. *)
Lemma bprint_fits (cap : Z) (t s : string) :
  Z.of_nat (String.length t + String.length s) < cap ->
  bprint cap (exact t) s = Some (exact (t +++ s)).
Proof.
  intros H. unfold bprint, exact. cbn [len text].
  destruct (Z.ltb_spec cap (Z.of_nat (String.length t))); [lia |].
  destruct (Z.ltb_spec (Z.of_nat (String.length t)) cap); [| lia].
  rewrite truncate_fits by lia. rewrite length_append.
  now rewrite Nat2Z.inj_add.
Qed.

Lemma joined_cons (first : bool) (p : string) (rest : list string) :
  joined first (p :: rest)
  = (if first then EmptyString else " ") +++ cpu_arg p +++ joined false rest.
Proof.
  unfold joined. destruct rest as [| q rest]; cbn [map String.concat].
  - now rewrite append_nil_r.
  - reflexivity.
Qed.

Lemma cpu_args_fits (av : list string) (first : bool) (t : string) :
  Z.of_nat (String.length t + String.length (joined first av)) < 4096 ->
  cpu_args first av (Some (exact t)) = Some (exact (t +++ joined first av)).
Proof.
  revert first t. induction av as [| p rest IH]; intros first t H.
  - cbn. now rewrite append_nil_r.
  - rewrite joined_cons in *. rewrite !length_append in H.
    cbn [cpu_args]. destruct first.
    + cbn [String.append] in *. cbn [bprint_opt].
      rewrite bprint_fits by lia.
      rewrite IH by (rewrite length_append; lia).
      now rewrite append_assoc.
    + change (String.length " ") with 1%nat in H.
      cbn [bprint_opt].
      rewrite bprint_fits by (change (String.length " ") with 1%nat; lia).
      cbn [bprint_opt].
      rewrite bprint_fits
        by (rewrite length_append; change (String.length " ") with 1%nat; lia).
      rewrite IH
        by (rewrite !length_append; change (String.length " ") with 1%nat; lia).
      now rewrite !append_assoc.
Qed.

(** A command line that fits [cmdbuf] is the preamble and the arguments
    as the loop writes them, with single spaces between them. *)
Lemma remote_command_fits (env : string) (av : list string) :
  Z.of_nat (String.length (env +++ String.concat " " (map cpu_arg av))) < 4096 ->
  remote_command env av = Some (env +++ String.concat " " (map cpu_arg av)).
Proof.
  intros H. rewrite length_append in H.
  unfold remote_command. rewrite truncate_fits by lia.
  change (mkSbuf env (Z.of_nat (String.length env))) with (exact env).
  assert (Hj : joined true av = String.concat " " (map cpu_arg av)).
  { destruct av; reflexivity. }
  rewrite cpu_args_fits by (rewrite Hj; exact H).
  now rewrite Hj.
Qed.

(** [strchr] finds a character exactly when it is one of the string. *)
Lemma strchr_In (p : string) (c : ascii) :
  strchr p c = true <-> In c (list_ascii_of_string p).
Proof.
  induction p as [| d p IH]; cbn [strchr list_ascii_of_string In].
  - split; [discriminate | contradiction].
  - destruct (Ascii.eqb_spec d c) as [-> | Hn].
    + split; [now left | reflexivity].
    + rewrite IH. split; [now right | intros [H | H]; [congruence | exact H]].
Qed.

(** The test of [b_cpu] is the one for a space or a tab. *)
Lemma cpu_arg_passed (p q : string) : passed_as p q -> cpu_arg p = q.
Proof.
  intros [Hq Hp]. unfold cpu_arg.
  destruct (strchr p " ") eqn:E1; cbn [orb].
  - symmetry. apply Hq. left. now apply strchr_In.
  - destruct (strchr p (ascii_of_nat 9)) eqn:E2.
    + symmetry. apply Hq. right. now apply strchr_In.
    + symmetry. apply Hp. intros [H | H]; apply strchr_In in H; congruence.
Qed.

Lemma cpu_args_passed (av words : list string) :
  Forall2 passed_as av words -> map cpu_arg av = words.
Proof.
  induction 1 as [| p q av words Hpq _ IH]; [reflexivity |].
  cbn [map]. now rewrite (cpu_arg_passed p q Hpq), IH.
Qed.

(** C7 as stated fails on an argument whose only whitespace is a newline:
    it is passed without quotes; and on a command line longer than
    [cmdbuf]: of an argument of 5000 letters 4095 are passed. *)
Lemma cpu_quoting_counterexample :
  (has_whitespace ("a" +++ nl +++ "b") = true
   /\ remote_command EmptyString ["echo"; "a" +++ nl +++ "b"]
      = Some ("echo a" +++ nl +++ "b")
   /\ quoted_command quoted_arg EmptyString ["echo"; "a" +++ nl +++ "b"]
      = "echo 'a" +++ nl +++ "b'"
   /\ remote_command EmptyString ["echo"; "a" +++ nl +++ "b"]
      <> Some (quoted_command quoted_arg EmptyString
                 ["echo"; "a" +++ nl +++ "b"]))
  /\ (option_map String.length (remote_command EmptyString [Demo.long_arg])
      = Some 4095%nat
      /\ String.length (quoted_command quoted_arg EmptyString [Demo.long_arg])
         = 5000%nat).
Proof.
  split.
  - split; [reflexivity |]. split; [reflexivity |]. split; [reflexivity |].
    discriminate.
  - split; vm_compute; reflexivity.
Qed.

(** [cpu -h host echo "a b"] with [$path] set to [/bin /usr/bin]. *)
Lemma cpu_example :
  option_map (fun w => launches (out w))
    (b_cpu (Demo.os Demo.failing) Demo.sh ["cpu"; "-h"; "host"; "echo"; "a b"]
       (varassign "path" ["/bin"; "/usr/bin"] (Demo.world [] 3)))
  = Some [["ssh"; "-o"; "BatchMode=yes"; "host";
           "PATH=/bin:/usr/bin; echo 'a b'"]].
Proof. vm_compute. reflexivity. Qed.

(** ** The modes of the stored entries *)

Lemma flag_mode_flags (allow_n : bool) (f : string) (m m' : Z) :
  flag_mode m -> mode_flags allow_n f m = inl m' -> flag_mode m'.
Proof.
  revert m. induction f as [| c f IH]; intros m Hm H; cbn [mode_flags] in H.
  - now inversion H; subst.
  - destruct (Ascii.eqb c "a").
    { apply IH in H; [exact H |]. unfold flag_mode in *.
      destruct Hm as [-> | [-> | [-> | [-> | [-> | ->]]]]]; cbn; tauto. }
    destruct (Ascii.eqb c "b").
    { apply IH in H; [exact H |]. unfold flag_mode in *.
      destruct Hm as [-> | [-> | [-> | [-> | [-> | ->]]]]]; cbn; tauto. }
    destruct (Ascii.eqb c "c").
    { apply IH in H; [exact H |]. unfold flag_mode in *.
      destruct Hm as [-> | [-> | [-> | [-> | [-> | ->]]]]]; cbn; tauto. }
    destruct (allow_n && Ascii.eqb c "n"); [now apply IH in H | discriminate H].
Qed.

Lemma bind_options_mode (av rest : list string) (m m' : Z) :
  flag_mode m -> bind_options av m = inl (m', rest) -> flag_mode m'.
Proof.
  revert m. induction av as [| a av IH]; intros m Hm H; cbn [bind_options] in H.
  - now inversion H; subst.
  - destruct (dash a) as [f |]; [| now inversion H; subst].
    destruct (mode_flags false f m) as [m1 |] eqn:Ef; [| discriminate H].
    apply (IH m1); [| exact H]. exact (flag_mode_flags _ _ _ _ Hm Ef).
Qed.

Lemma mount_options_mode (n : nat) (av rest : list string) (m m' : Z)
    (spec spec' : option string) :
  (List.length av <= n)%nat ->
  flag_mode m -> mount_options av m spec = Ok (m', spec', rest) ->
  flag_mode m'.
Proof.
  revert av m spec. induction n as [| n IH]; intros av m spec Hn Hm H.
  - destruct av; [| cbn in Hn; lia]. now inversion H; subst.
  - destruct av as [| a av]; [now inversion H; subst |].
    cbn [mount_options] in H. cbn [List.length] in Hn.
    destruct (dash a) as [f |]; [| now inversion H; subst].
    destruct (String.eqb f "s").
    + destruct av as [| s av]; [discriminate H |].
      apply (IH av m (Some s)); [cbn [List.length] in Hn; lia | exact Hm | exact H].
    + destruct (mode_flags true f m) as [m1 |] eqn:Ef; [| discriminate H].
      apply (IH av m1 spec); [lia | | exact H].
      exact (flag_mode_flags _ _ _ _ Hm Ef).
Qed.

Lemma flag_mode_replace : flag_mode BIND_REPLACE.
Proof. now left. Qed.

(** The mode [add_bind] stores for a mode of an option loop. *)
Lemma stored_mode_plain (src dst : string) (m : Z) :
  flag_mode m ->
  plain_mode
    (mkBind src dst
       (Z.land m (Z.lor (Z.lor BIND_BEFORE BIND_AFTER) BIND_REPLACE))).
Proof.
  unfold plain_mode. cbn [mode].
  intros [-> | [-> | [-> | [-> | [-> | ->]]]]]; cbn; tauto.
Qed.

Lemma In_unlink_to (key : string) (chain : list Bind) (b : Bind) :
  In b (unlink_to key chain) -> In b chain.
Proof.
  induction chain as [| x n IH]; cbn [unlink_to]; [tauto |].
  destruct (streq (to x) key); cbn [In]; tauto.
Qed.

Lemma In_remove_chain (src : option string) (key : string)
    (chain : list Bind) (b : Bind) :
  In b (fst (remove_chain src key chain)) -> In b chain.
Proof.
  induction chain as [| x n IH]; cbn [remove_chain]; [tauto |].
  destruct (streq (to x) key
            && match src with None => true | Some f => streq (from x) f end).
  - destruct src; cbn [fst In]; [tauto |].
    destruct (remove_chain None key n). cbn [fst] in *. tauto.
  - destruct (remove_chain src key n). cbn [fst In] in *. tauto.
Qed.

Lemma add_bind_modes_ok (src dst : string) (m : Z) (t : Table) :
  flag_mode m -> table_modes_ok t -> table_modes_ok (add_bind src dst m t).
Proof.
  intros Hm Ht i b. unfold add_bind. cbn [bindtab]. unfold set_bucket.
  destruct (i =? pathhash dst); [| apply Ht].
  pose proof (stored_mode_plain src dst m Hm) as Hnew.
  specialize (Ht (pathhash dst)).
  destruct (find_bind t dst).
  - destruct (nz (Z.land m BIND_BEFORE)).
    { intros [<- | Hin]; [exact Hnew | now apply Ht]. }
    destruct (nz (Z.land m BIND_AFTER)).
    { intros Hin. apply in_app_or in Hin.
      destruct Hin as [Hin | [<- | []]]; [now apply Ht | exact Hnew]. }
    intros [<- | Hin]; [exact Hnew |]. apply Ht. now apply In_unlink_to in Hin.
  - intros [<- | Hin]; [exact Hnew | now apply Ht].
Qed.

Lemma remove_bind_modes_ok (src : option string) (key : string) (t : Table) :
  table_modes_ok t -> table_modes_ok (fst (remove_bind src key t)).
Proof.
  intros Ht i b. unfold remove_bind.
  pose proof (In_remove_chain src key (bindtab t (pathhash key)) b) as Hin.
  destruct (remove_chain src key (bindtab t (pathhash key))) as [chain' k].
  cbn [fst bindtab] in *. unfold set_bucket.
  destruct (i =? pathhash key); [| apply Ht].
  intros H. apply (Ht (pathhash key)). now apply Hin.
Qed.

Lemma table_step_ok (t t' : Table) :
  table_step t t' -> table_modes_ok t -> table_modes_ok t'.
Proof.
  intros [-> | [(src & dst & m & Hm & ->) | (src & key & ->)]] Ht.
  - exact Ht.
  - now apply add_bind_modes_ok.
  - now apply remove_bind_modes_ok.
Qed.

Lemma dist_init_modes_ok : table_modes_ok dist_init.
Proof. intros i b []. Qed.

Section Steps.

Context {S : Type}.
Variable os : OS S.
Variable sh : Shell.

Lemma missing_keeps (d : bool) (path : string) (w : World S) :
  keeps w (fst (missing os d path w)).
Proof.
  unfold missing. destruct d; [apply keeps_refl |].
  pose proof (stat_keeps os path w) as H. destruct (stat os path w). exact H.
Qed.

Lemma table_trace (text : string) (w : World S) :
  table (trace text w) = table w.
Proof. unfold trace. destruct (dashex w); reflexivity. Qed.

Lemma table_print_all (fd : Z) (lines : list string) (w : World S) :
  table (print_all fd lines w) = table w.
Proof.
  unfold print_all. revert w.
  induction lines as [| l lines IH]; intros w; cbn [fold_left];
    [reflexivity | now rewrite IH].
Qed.

Lemma table_run_cmd (argv : list string) (w : World S) :
  table (fst (run_cmd os argv w)) = table w.
Proof. apply run_cmd_spec. Qed.

Lemma adds_step (m : Z) (w w' : World S) :
  flag_mode m -> adds m w w' -> table_step (table w) (table w').
Proof.
  intros Hm [H | (src & dst & H)]; [now left |].
  right. left. now exists src, dst, m.
Qed.

Lemma bind_at_adds (m : Z) (src dst : string) (w : World S) :
  adds m w (bind_at os sh m src dst w).
Proof.
  unfold bind_at.
  pose proof (isdir_keeps os src w) as [K1 _].
  destruct (isdir os src w) as [w1 d]. cbn [fst] in K1.
  pose proof (missing_keeps d src w1) as [K2 _].
  destruct (missing os d src w1) as [w2 gone]. cbn [fst] in K2.
  destruct gone; [left; cbn; congruence |].
  pose proof (ensuredir_keeps os dst m w2) as [K3 _].
  destruct (ensuredir os dst m w2) as [w3 r]. cbn [fst] in K3.
  assert (K4 : table (fst (if nz r then isdir os dst w3 else (w3, true)))
               = table w3).
  { destruct (nz r); [apply isdir_keeps | reflexivity]. }
  destruct (if nz r then isdir os dst w3 else (w3, true)) as [w4 d'].
  cbn [fst] in K4.
  pose proof (missing_keeps d' dst w4) as [K5 _].
  destruct (missing os d' dst w4) as [w5 gone']. cbn [fst] in K5.
  destruct gone'; [left; cbn; congruence |].
  right. exists (clean os src w5), (clean os dst w5).
  unfold bind_record. cbn [set set_status table]. rewrite table_trace.
  unfold record_bind. cbn [varassign set_table table]. congruence.
Qed.

Lemma b_bind_step (av : list string) (w : World S) :
  table_step (table w) (table (b_bind os sh av w)).
Proof.
  unfold b_bind.
  destruct (bind_options (tl av) BIND_REPLACE) as [[m rest] | c] eqn:Ep;
    [| now left].
  destruct rest as [| src [| dst [| x more]]]; try (now left).
  apply (adds_step m); [| apply bind_at_adds].
  exact (bind_options_mode _ _ _ _ flag_mode_replace Ep).
Qed.

Lemma b_addns_step (av : list string) (w : World S) :
  table_step (table w) (table (b_addns os sh av w)).
Proof.
  unfold b_addns. destruct av as [| a0 [| src [| dst rest]]]; try (now left).
  apply b_bind_step.
Qed.

Lemma b_mount_step (av : list string) (w : World S) :
  table_step (table w) (table (b_mount os sh av w)).
Proof.
  unfold b_mount.
  destruct (mount_options (tl av) BIND_REPLACE None)
    as [[[m spec] rest] | c | c] eqn:Ep; try (now left).
  destruct rest as [| addr [| mountpoint rest]]; try (now left).
  apply (adds_step m).
  - exact (mount_options_mode _ _ _ _ _ _ _ (le_n _) flag_mode_replace Ep).
  - destruct (mount_at_outcome os sh m spec addr mountpoint w)
      as (evs & _ & [(_ & Ht & _) | (_ & Ht & _)]); [now left | now right].
Qed.

Lemma import_at_adds (m : Z) (host path mp : string) (w : World S) :
  adds m w (import_at os sh m host path mp w).
Proof.
  unfold import_at.
  pose proof (ensuredir_keeps os mp (Z.lor m BIND_CREATE) w) as [K1 _].
  destruct (ensuredir os mp (Z.lor m BIND_CREATE) w) as [w1 r].
  cbn [fst] in K1. destruct (nz r); [left; cbn; congruence |].
  unfold import_attach.
  set (addr := truncate 4096 (host +++ ":" +++ path)).
  set (w2 := trace _ w1).
  assert (K2 : table w2 = table w) by (unfold w2; now rewrite table_trace).
  clearbody w2.
  pose proof (table_run_cmd
                ["sshfs"; addr; mp; "-o";
                 "reconnect,ServerAliveInterval=15,follow_symlinks"] w2) as K3.
  destruct (run_cmd os _ w2) as [w3 st]. cbn [fst] in K3.
  destruct (exited0 st).
  { right. exists (clean os addr w3), (clean os mp w3).
    unfold record_bind. cbn [set set_status set_table table]. congruence. }
  pose proof (table_run_cmd ["9pfuse"; addr; mp] w3) as K4.
  destruct (run_cmd os _ w3) as [w4 st']. cbn [fst] in K4.
  destruct (exited0 st').
  - right. exists (clean os addr w4), (clean os mp w4).
    unfold record_bind. cbn [set set_status set_table table]. congruence.
  - left. cbn. congruence.
Qed.

Lemma b_import_step (av : list string) (w : World S) :
  table_step (table w) (table (b_import os sh av w)).
Proof.
  unfold b_import.
  destruct (bind_options (tl av) BIND_REPLACE) as [[m rest] | c] eqn:Ep;
    [| now left].
  destruct rest as [| host [| path rest]]; try (now left).
  apply (adds_step m); [| apply import_at_adds].
  exact (bind_options_mode _ _ _ _ flag_mode_replace Ep).
Qed.

Lemma unmount_at_step (src : option string) (mp : string) (w : World S) :
  table (unmount_at os sh src mp w) = fst (remove_bind src mp (table w)).
Proof.
  unfold unmount_at. destruct (remove_bind src mp (table w)) as [t found].
  cbn [fst].
  pose proof (table_run_cmd ["umount"; mp] (set_table t w)) as K1.
  destruct (run_cmd os ["umount"; mp] (set_table t w)) as [w2 st].
  cbn [fst set_table table] in K1.
  set (found1 := if exited0 st then true else found). clearbody found1.
  assert (K2 : table
                 (fst (if negb found1
                       then
                         let (w', st') :=
                           run_cmd os ["fusermount"; "-u"; mp] w2 in
                         (w', if exited0 st' then true else found1)
                       else (w2, found1))) = t).
  { destruct (negb found1); [| exact K1].
    pose proof (table_run_cmd ["fusermount"; "-u"; mp] w2) as K.
    destruct (run_cmd os ["fusermount"; "-u"; mp] w2). cbn [fst] in *.
    congruence. }
  destruct (if negb found1 then _ else _) as [w3 found2]. cbn [fst] in K2.
  destruct (negb found2); cbn [fail set set_status fprint emit table];
    [exact K2 | now rewrite table_trace].
Qed.

Lemma b_unmount_step (av : list string) (w : World S) :
  table_step (table w) (table (b_unmount os sh av w)).
Proof.
  unfold b_unmount. destruct (tl av) as [| a0 [| a1 [| a2 rest]]];
    try (now left); right; right.
  - exists None, a0. apply unmount_at_step.
  - exists (Some a0), a1. apply unmount_at_step.
Qed.

Lemma table_b_ns (av : list string) (w : World S) :
  table (b_ns os sh av w) = table w.
Proof.
  unfold b_ns. destruct (r_options (tl av) false) as [[recreate rest] | c];
    [| reflexivity].
  destruct rest; [| reflexivity]. cbn [set set_status table].
  destruct ((Z.of_nat (List.length (entries (table w))) =? 0) && negb recreate);
    [| apply table_print_all].
  destruct (os_readfile os _ "/proc/mounts").
  - cbn [fprint emit table]. apply table_print_all.
  - rewrite table_run_cmd. apply table_print_all.
Qed.

Lemma table_ensure_srvdir (w : World S) :
  table (ensure_srvdir os w) = table w.
Proof. apply ensure_srvdir_keeps. Qed.

Lemma table_srv_scan (names : list string) (found : bool) (w : World S) :
  table (fst (srv_scan os names found w)) = table w.
Proof.
  revert found w. induction names as [| d_name rest IH]; intros found w;
    [reflexivity |].
  cbn [srv_scan]. destruct (dotted d_name); [apply IH |].
  pose proof (stat_keeps os (truncate 4096 (SRV_DIR +++ "/" +++ d_name)) w)
    as [K _].
  destruct (stat os _ w) as [w1 [k |]]; cbn [fst] in K; rewrite IH;
    [exact K | exact K].
Qed.

Lemma table_mkfifo (path : string) (w : World S) :
  table (fst (mkfifo os path w)) = table w.
Proof.
  unfold mkfifo. destruct (os_mkfifo os (sys w) path) as [s [e |]]; reflexivity.
Qed.

Lemma table_b_srv (av : list string) (w : World S) :
  table (b_srv os sh av w) = table w.
Proof.
  unfold b_srv. destruct (r_options (tl av) false) as [[remove rest] | c];
    [| reflexivity].
  pose proof (table_ensure_srvdir w) as K0.
  set (w0 := ensure_srvdir os w) in *. clearbody w0.
  destruct rest as [| name cmd].
  - destruct remove; cbn [negb]; [exact K0 |].
    unfold srv_list.
    assert (K : table
                  (fst match os_readdir os (sys w0) SRV_DIR with
                       | Some names => srv_scan os names false w0
                       | None => (w0, false)
                       end) = table w0).
    { destruct (os_readdir os (sys w0) SRV_DIR);
        [apply table_srv_scan | reflexivity]. }
    destruct (match os_readdir os (sys w0) SRV_DIR with
              | Some names => srv_scan os names false w0
              | None => (w0, false)
              end) as [w1 found].
    cbn [fst] in K. destruct found; cbn; congruence.
  - set (srvpath := truncate 4096 (SRV_DIR +++ "/" +++ name)).
    destruct remove.
    { unfold srv_remove. pose proof (stat_keeps os srvpath w0) as [K _].
      destruct (stat os srvpath w0) as [w1 r]. cbn [fst] in K.
      destruct (negb (exists_ r)); cbn [fail set set_status fprint emit table];
        [congruence |].
      rewrite table_trace. cbn. congruence. }
    destruct cmd as [| c0 cmd].
    { unfold srv_connect. pose proof (stat_keeps os srvpath w0) as [K _].
      destruct (stat os srvpath w0) as [w1 r]. cbn [fst] in K.
      destruct (exists_ r); cbn; congruence. }
    unfold srv_create.
    pose proof (table_mkfifo srvpath (unlink os srvpath w0)) as K.
    destruct (mkfifo os srvpath (unlink os srvpath w0)) as [w2 failed].
    cbn [fst unlink set_sys table] in K.
    destruct failed; [cbn; congruence |].
    destruct (os_fork os (sys w2) srvpath (c0 :: cmd)) as [s pid].
    destruct (pid <? 0); [cbn; congruence |].
    cbn [set set_status varassign table]. rewrite table_trace. cbn. congruence.
Qed.

Lemma table_close_all (l : list Z) (w : World S) :
  table (fold_left (fun w' fd => close fd w') l w) = table w.
Proof.
  revert w. induction l as [| fd l IH]; intros w; cbn [fold_left];
    [reflexivity | now rewrite IH].
Qed.

Lemma table_b_rfork (av : list string) (w : World S) :
  table (b_rfork os sh av w) = table w.
Proof.
  unfold b_rfork.
  destruct (match tl av with f :: _ => rfork_flags f 0 | [] => inl 0 end)
    as [flags0 | c]; [| reflexivity].
  set (flags := if flags0 =? 0 then RFNOTEG else flags0). clearbody flags.
  assert (K1 : table (rfork_pgrp os flags w) = table w).
  { unfold rfork_pgrp. destruct (nz (Z.land flags RFNOTEG)); [| reflexivity].
    destruct (os_setpgid os (sys w)) as [s [e |]]; [| reflexivity].
    destruct (negb (e =? EPERM os)); [now rewrite table_trace | reflexivity]. }
  set (w1 := rfork_pgrp os flags w) in *. clearbody w1.
  assert (K2 : forall w2 : World S,
             table w2 = table w ->
             table (set true (rfork_fds flags (rfork_env flags w2))) = table w).
  { intros w2 H2. cbn [set set_status table]. unfold rfork_fds.
    assert (K : table (rfork_env flags w2) = table w).
    { unfold rfork_env. destruct (nz (Z.land flags RFENVG)); exact H2. }
    destruct (nz (Z.land flags RFFDG)); [now rewrite table_close_all | exact K]. }
  destruct (nz (Z.land flags RFNAMEG)); [| now apply K2].
  destruct (os_linux os); [| exact K1].
  destruct (os_unshare os (sys w1)) as [s [e |]]; [exact K1 |].
  apply K2. exact K1.
Qed.

Lemma table_b_cpu (av : list string) (w w' : World S) :
  b_cpu os sh av w = Some w' -> table w' = table w.
Proof.
  unfold b_cpu.
  destruct (cpu_options (tl av) None None false)
    as [[[[host user] agent] cmd] | c | c];
    try (intros H; inversion H; reflexivity).
  destruct (match host with
            | Some h => Some h
            | None => match varlookup "cpu" w with
                      | x :: _ => Some x
                      | [] => None
                      end
            end) as [h |]; [| intros H; inversion H; reflexivity].
  destruct cmd as [| c0 cmd]; [intros H; inversion H; reflexivity |].
  unfold cpu_run. destruct (envbuf w) as [env |]; [| discriminate].
  destruct (remote_command env (c0 :: cmd)) as [remote_cmd |]; [| discriminate].
  set (w1 := if dashex w then _ else w).
  assert (K1 : table w1 = table w).
  { unfold w1. destruct (dashex w); [| reflexivity].
    cbn [fprint emit table]. now rewrite table_print_all. }
  clearbody w1.
  pose proof (table_run_cmd (ssh_cmd agent user h remote_cmd) w1) as K2.
  destruct (run_cmd os (ssh_cmd agent user h remote_cmd) w1) as [w2 st].
  cbn [fst] in K2. intros H. inversion H. cbn. congruence.
Qed.

Lemma run_builtin_step (b : Builtin) (av : list string) (w w' : World S) :
  run_builtin os sh b av w = Some w' -> table_step (table w) (table w').
Proof.
  destruct b; cbn [run_builtin]; intros H;
    try (inversion H; subst w'; clear H).
  - apply b_bind_step.
  - apply b_mount_step.
  - apply b_unmount_step.
  - left. apply table_b_ns.
  - left. now apply table_b_cpu in H.
  - apply b_import_step.
  - left. apply table_b_srv.
  - left. apply table_b_rfork.
  - apply b_addns_step.
Qed.

Lemma run_script_modes_ok (script : list (Builtin * list string))
    (w w' : World S) :
  table_modes_ok (table w) -> run_script os sh script w = Some w' ->
  table_modes_ok (table w').
Proof.
  revert w. induction script as [| [b av] rest IH]; intros w Hok H;
    cbn [run_script] in H.
  - now inversion H; subst.
  - destruct (run_builtin os sh b av w) as [w1 |] eqn:E; [| discriminate H].
    apply (IH w1); [| exact H].
    exact (table_step_ok _ _ (run_builtin_step _ _ _ _ E) Hok).
Qed.

Lemma entries_modes_ok (t : Table) :
  table_modes_ok t -> Forall plain_mode (entries t).
Proof.
  intros Hok. apply Forall_forall. intros b Hin. unfold entries in Hin.
  apply in_flat_map in Hin. destruct Hin as (i & _ & Hin). exact (Hok i b Hin).
Qed.

Lemma plain_mode_no_create (b : Bind) :
  plain_mode b -> Z.land (mode b) BIND_CREATE = 0.
Proof. intros [(-> & _) | [(-> & _) | (-> & _)]]; reflexivity. Qed.

(** Every builtin but [cpu] has a result on every input. *)
Lemma run_script_total (script : list (Builtin * list string)) (w : World S) :
  no_cpu script = true -> exists w', run_script os sh script w = Some w'.
Proof.
  revert w. induction script as [| [b av] rest IH]; intros w H.
  - now exists w.
  - unfold no_cpu in H. cbn [forallb fst] in H.
    apply andb_prop in H. destruct H as [Hb Hrest].
    cbn [run_script]. destruct b; try discriminate Hb; cbn [run_builtin];
      now apply IH.
Qed.

(** The entry [add_bind] makes is in the bucket of its mountpoint, with
    the mode it was given less every bit but before and after. *)
Lemma add_bind_stores (src dst : string) (m : Z) (t : Table) :
  In (mkBind src dst
        (Z.land m (Z.lor (Z.lor BIND_BEFORE BIND_AFTER) BIND_REPLACE)))
    (bindtab (add_bind src dst m t) (pathhash dst)).
Proof.
  unfold add_bind. cbn [bindtab]. rewrite set_bucket_same.
  destruct (find_bind t dst); [| now left].
  destruct (nz (Z.land m BIND_BEFORE)); [now left |].
  destruct (nz (Z.land m BIND_AFTER)); [| now left].
  apply in_or_app. right. now left.
Qed.

(** C9.  From the table [dist_init] leaves, after any builtins run one
    after the other, with any arguments (so with or without [-c]), every
    entry of the table has a mode that is replace, before or after, none
    has the create flag, and [ns] prints each as the one it is; and the
    entry an [add_bind] stores, for any mode at all, has the create flag
    masked out. *)
Theorem stored_modes_plain (script : list (Builtin * list string))
    (w : World S) :
  match run_script os sh script (set_table dist_init w) with
  | Some w' =>
      Forall (fun b => plain_mode b /\ Z.land (mode b) BIND_CREATE = 0)
        (entries (table w'))
  | None => True
  end
  /\ forall (src dst : string) (m : Z) (t : Table),
       let b := mkBind src dst
                  (Z.land m (Z.lor (Z.lor BIND_BEFORE BIND_AFTER) BIND_REPLACE)) in
       In b (bindtab (add_bind src dst m t) (pathhash dst))
       /\ Z.land (mode b) BIND_CREATE = 0.
Proof.
  split.
  - destruct (run_script os sh script (set_table dist_init w)) as [w' |] eqn:E;
      [| exact I].
    apply run_script_modes_ok in E; [| exact dist_init_modes_ok].
    apply entries_modes_ok in E. apply Forall_forall.
    intros b Hin. rewrite Forall_forall in E.
    split; [now apply E | now apply plain_mode_no_create, E].
  - intros src dst m t b. split; [apply add_bind_stores |].
    unfold b. cbn [mode]. rewrite <- Z.land_assoc. apply Z.land_0_r.
Qed.

End Steps.

(** A run with [-c]: the entries stored have the modes before and after. *)
Lemma stored_modes_example :
  option_map (fun w => entries (table w))
    (run_script (Demo.os Demo.mount_works) Demo.sh
       [(Bbind, ["bind"; "-bc"; "/a"; "/n/new"]);
        (Bmount, ["mount"; "-ac"; "srv"; "/n/new"])]
       (Demo.world [("/a", KDir); ("/n", KDir)] 3))
  = Some [mkBind "/a" "/n/new" BIND_BEFORE; mkBind "srv" "/n/new" BIND_AFTER].
Proof. vm_compute. reflexivity. Qed.

(** * Further properties of the bind table *)

Lemma chain_for_nil_find (t : Table) (key : string) :
  find_bind t key = None -> chain_for t key = [].
Proof.
  rewrite find_bind_chain_for. destruct (chain_for t key); [easy | discriminate].
Qed.

Lemma filter_unlink_same (key : string) (chain : list Bind) :
  filter (fun b => streq (to b) key) (unlink_to key chain) = [].
Proof.
  induction chain as [| b n IH]; [reflexivity |]. cbn [unlink_to].
  destruct (streq (to b) key) eqn:E; [exact IH |].
  cbn [filter]. now rewrite E.
Qed.

Lemma streq_trans_false (a b c : string) :
  streq a b = true -> b <> c -> streq a c = false.
Proof.
  unfold streq. intros H Hne. apply String.eqb_eq in H. subst a.
  now apply String.eqb_neq.
Qed.

Lemma filter_unlink_other (key dst : string) (chain : list Bind) :
  dst <> key ->
  filter (fun b => streq (to b) key) (unlink_to dst chain)
  = filter (fun b => streq (to b) key) chain.
Proof.
  intros Hne. induction chain as [| b n IH]; [reflexivity |].
  cbn [unlink_to]. destruct (streq (to b) dst) eqn:E.
  - cbn [filter]. now rewrite (streq_trans_false _ _ _ E Hne).
  - cbn [filter]. now rewrite IH.
Qed.

(** X1.  Replace law.  An add whose mode has neither the before nor the after
    bit leaves exactly the new entry for the mountpoint, on any table, and
    a lookup finds it. *)
Theorem replace_law (src dst : string) (m : Z) (t : Table) :
  nz (Z.land m BIND_BEFORE) = false ->
  nz (Z.land m BIND_AFTER) = false ->
  chain_for (add_bind src dst m t) dst
  = [mkBind src dst
       (Z.land m (Z.lor (Z.lor BIND_BEFORE BIND_AFTER) BIND_REPLACE))]
  /\ option_map from (find_bind (add_bind src dst m t) dst) = Some src.
Proof.
  intros Hb Ha.
  assert (H : chain_for (add_bind src dst m t) dst
              = [mkBind src dst
                   (Z.land m (Z.lor (Z.lor BIND_BEFORE BIND_AFTER)
                                BIND_REPLACE))]).
  { unfold chain_for at 1. unfold add_bind. cbn [bindtab].
    rewrite set_bucket_same, Hb, Ha.
    destruct (find_bind t dst) eqn:E; cbn [filter to]; rewrite streq_refl.
    - now rewrite filter_unlink_same.
    - apply chain_for_nil_find in E. unfold chain_for in E. now rewrite E. }
  split; [exact H |]. rewrite find_bind_chain_for, H. reflexivity.
Qed.

Lemma replace_law_witness :
  chain_for (add_bind "/new" "/mnt" (Z.lor BIND_REPLACE BIND_CREATE)
               (three_binds "/a" "/b" "/c" "/mnt" dist_init)) "/mnt"
  = [mkBind "/new" "/mnt" BIND_REPLACE]
  /\ option_map from
       (find_bind (add_bind "/new" "/mnt" (Z.lor BIND_REPLACE BIND_CREATE)
                     (three_binds "/a" "/b" "/c" "/mnt" dist_init)) "/mnt")
     = Some "/new".
Proof.
  apply (replace_law "/new" "/mnt" (Z.lor BIND_REPLACE BIND_CREATE)
           (three_binds "/a" "/b" "/c" "/mnt" dist_init)); reflexivity.
Defined.

(** X2.  Union order.  A before add puts the new entry first among the entries
    of its mountpoint, an after add puts it last, on any table; the other
    entries of the mountpoint keep their order. *)
Theorem add_bind_union_order (src dst : string) (t : Table) :
  chain_for (add_bind src dst BIND_BEFORE t) dst
  = mkBind src dst BIND_BEFORE :: chain_for t dst
  /\ chain_for (add_bind src dst BIND_AFTER t) dst
     = chain_for t dst ++ [mkBind src dst BIND_AFTER].
Proof.
  split.
  - unfold chain_for. rewrite add_bind_before. cbn [filter to].
    now rewrite streq_refl.
  - unfold chain_for at 1. rewrite add_bind_after.
    destruct (find_bind t dst) eqn:E.
    + rewrite filter_app. cbn [filter to]. now rewrite streq_refl.
    + cbn [filter to]. rewrite streq_refl.
      apply chain_for_nil_find in E. unfold chain_for in *. now rewrite E.
Qed.

(** X3.  An add for one mountpoint leaves the entries of every other
    mountpoint, and their order, as they were, also in its own bucket. *)
Theorem add_bind_other_mountpoint (src dst key : string) (m : Z) (t : Table) :
  dst <> key ->
  chain_for (add_bind src dst m t) key = chain_for t key
  /\ find_bind (add_bind src dst m t) key = find_bind t key.
Proof.
  intros Hne.
  assert (H : chain_for (add_bind src dst m t) key = chain_for t key).
  { unfold chain_for, add_bind. cbn [bindtab]. unfold set_bucket.
    destruct (Z.eqb_spec (pathhash key) (pathhash dst)) as [E |];
      [| reflexivity].
    rewrite E.
    assert (Hnew : forall mm, streq (to (mkBind src dst mm)) key = false).
    { intros mm. cbn [to]. now apply String.eqb_neq. }
    destruct (find_bind t dst).
    - destruct (nz (Z.land m BIND_BEFORE)).
      { cbn [filter]. now rewrite Hnew. }
      destruct (nz (Z.land m BIND_AFTER)).
      { rewrite filter_app. cbn [filter]. rewrite Hnew. apply app_nil_r. }
      cbn [filter]. rewrite Hnew. now apply filter_unlink_other.
    - cbn [filter]. now rewrite Hnew. }
  split; [exact H |]. now rewrite !find_bind_chain_for, H.
Qed.

Lemma add_bind_other_mountpoint_witness :
  chain_for (add_bind "/x" "!" BIND_REPLACE
               (add_bind "/y" "ab" BIND_AFTER dist_init)) "ab"
  = chain_for (add_bind "/y" "ab" BIND_AFTER dist_init) "ab"
  /\ find_bind (add_bind "/x" "!" BIND_REPLACE
                  (add_bind "/y" "ab" BIND_AFTER dist_init)) "ab"
     = find_bind (add_bind "/y" "ab" BIND_AFTER dist_init) "ab".
Proof.
  apply (add_bind_other_mountpoint "/x" "!" "ab" BIND_REPLACE
           (add_bind "/y" "ab" BIND_AFTER dist_init)).
  discriminate.
Defined.

(** ** remove_bind *)

Lemma remove_chain_other (src : option string) (key other : string)
    (chain : list Bind) :
  key <> other ->
  filter (fun b => streq (to b) other) (fst (remove_chain src key chain))
  = filter (fun b => streq (to b) other) chain.
Proof.
  intros Hne. induction chain as [| b n IH]; [reflexivity |].
  cbn [remove_chain].
  destruct (streq (to b) key) eqn:E; cbn [andb].
  - assert (Hb : streq (to b) other = false)
      by exact (streq_trans_false _ _ _ E Hne).
    destruct (match src with None => true | Some f => streq (from b) f end).
    + destruct src; cbn [fst filter]; rewrite Hb; [reflexivity |].
      destruct (remove_chain None key n). exact IH.
    + destruct (remove_chain src key n). cbn [fst filter] in *.
      now rewrite Hb.
  - destruct (remove_chain src key n). cbn [fst filter] in *.
    now rewrite IH.
Qed.

Lemma remove_chain_all (key : string) (chain : list Bind) :
  filter (fun b => streq (to b) key) (fst (remove_chain None key chain)) = []
  /\ snd (remove_chain None key chain)
     = Z.of_nat (List.length (filter (fun b => streq (to b) key) chain)).
Proof.
  induction chain as [| b n [IH1 IH2]]; [split; reflexivity |].
  cbn [remove_chain filter]. rewrite andb_true_r.
  destruct (streq (to b) key) eqn:E;
    destruct (remove_chain None key n) as [n' k]; cbn [fst snd] in *.
  - split; [exact IH1 |]. cbn [List.length]. lia.
  - split; [| exact IH2]. cbn [filter]. now rewrite E.
Qed.

Lemma remove_chain_one (f key : string) (chain : list Bind) :
  filter (fun b => streq (to b) key) (fst (remove_chain (Some f) key chain))
  = remove_first (fun b => streq (from b) f)
      (filter (fun b => streq (to b) key) chain)
  /\ snd (remove_chain (Some f) key chain)
     = (if existsb (matches (Some f) key) chain then 1 else 0).
Proof.
  unfold matches.
  induction chain as [| b n [IH1 IH2]]; [split; reflexivity |].
  cbn [remove_chain filter existsb].
  destruct (streq (to b) key) eqn:E; cbn [andb].
  - cbn [remove_first]. destruct (streq (from b) f); cbn [fst snd orb].
    + split; reflexivity.
    + destruct (remove_chain (Some f) key n) as [n' k]. cbn [fst snd] in *.
      split; [| exact IH2]. cbn [filter]. now rewrite E, IH1.
  - destruct (remove_chain (Some f) key n) as [n' k]. cbn [fst snd orb] in *.
    split; [| exact IH2]. cbn [filter]. now rewrite E.
Qed.

Lemma remove_bind_bucket (src : option string) (key : string) (t : Table) :
  bindtab (fst (remove_bind src key t)) (pathhash key)
  = fst (remove_chain src key (bindtab t (pathhash key)))
  /\ snd (remove_bind src key t)
     = (0 <? snd (remove_chain src key (bindtab t (pathhash key))))
  /\ nbinds (fst (remove_bind src key t))
     = nbinds t - snd (remove_chain src key (bindtab t (pathhash key))).
Proof.
  unfold remove_bind.
  destruct (remove_chain src key (bindtab t (pathhash key))) as [chain' k].
  cbn [fst snd bindtab nbinds]. now rewrite set_bucket_same.
Qed.

(** [remove_bind] leaves the entries of every other mountpoint, and their
    order, as they were. *)
Lemma remove_bind_other (src : option string) (key other : string)
    (t : Table) :
  key <> other ->
  chain_for (fst (remove_bind src key t)) other = chain_for t other.
Proof.
  intros Hne. unfold chain_for.
  destruct (Z.eq_dec (pathhash other) (pathhash key)) as [E | E].
  - rewrite E. destruct (remove_bind_bucket src key t) as (-> & _).
    now apply remove_chain_other.
  - unfold remove_bind.
    destruct (remove_chain src key (bindtab t (pathhash key))).
    cbn [fst bindtab]. now rewrite set_bucket_other.
Qed.

Lemma remove_bind_all_chain (key : string) (t : Table) :
  chain_for (fst (remove_bind None key t)) key = [].
Proof.
  destruct (remove_bind_bucket None key t) as (Hb & _).
  destruct (remove_chain_all key (bindtab t (pathhash key))) as [H1 _].
  unfold chain_for. now rewrite Hb.
Qed.

(** X4.  Unmount of a mountpoint.  [remove_bind] without a source takes out
    every entry of the mountpoint and none of another one, reports whether
    there was one, and takes as many from the count. *)
Theorem remove_bind_all (key : string) (t : Table) :
  chain_for (fst (remove_bind None key t)) key = []
  /\ find_bind (fst (remove_bind None key t)) key = None
  /\ snd (remove_bind None key t)
     = match chain_for t key with [] => false | _ :: _ => true end
  /\ ns_count (fst (remove_bind None key t))
     = ns_count t - Z.of_nat (List.length (chain_for t key))
  /\ forall other, key <> other ->
       chain_for (fst (remove_bind None key t)) other = chain_for t other.
Proof.
  destruct (remove_bind_bucket None key t) as (Hb & Hf & Hn).
  destruct (remove_chain_all key (bindtab t (pathhash key))) as [H1 H2].
  assert (H : chain_for (fst (remove_bind None key t)) key = []).
  { unfold chain_for. now rewrite Hb. }
  split; [exact H |]. split; [now rewrite find_bind_chain_for, H |].
  split; [| split].
  - rewrite Hf, H2. unfold chain_for.
    destruct (filter _ (bindtab t (pathhash key))); reflexivity.
  - unfold ns_count. rewrite Hn, H2. reflexivity.
  - intros other Hne. now apply remove_bind_other.
Qed.

(** X5.  Unmount of one binding.  [remove_bind] with a source takes out the
    first entry of the mountpoint with that source and no other entry,
    reports whether there was one, and takes one from the count if so. *)
Theorem remove_bind_one (f key : string) (t : Table) :
  chain_for (fst (remove_bind (Some f) key t)) key
  = remove_first (fun b => streq (from b) f) (chain_for t key)
  /\ snd (remove_bind (Some f) key t)
     = existsb (matches (Some f) key) (bindtab t (pathhash key))
  /\ ns_count (fst (remove_bind (Some f) key t))
     = ns_count t - (if snd (remove_bind (Some f) key t) then 1 else 0)
  /\ live (fst (remove_bind (Some f) key t))
     = live t - (if snd (remove_bind (Some f) key t) then 1 else 0)
  /\ forall other, key <> other ->
       chain_for (fst (remove_bind (Some f) key t)) other = chain_for t other.
Proof.
  destruct (remove_bind_bucket (Some f) key t) as (Hb & Hf & Hn).
  destruct (remove_chain_one f key (bindtab t (pathhash key))) as [H1 H2].
  assert (Hfound : snd (remove_bind (Some f) key t)
                   = existsb (matches (Some f) key) (bindtab t (pathhash key))).
  { rewrite Hf, H2. now destruct (existsb _ _). }
  assert (Hc : ns_count (fst (remove_bind (Some f) key t))
               = ns_count t
                 - (if snd (remove_bind (Some f) key t) then 1 else 0)).
  { unfold ns_count. rewrite Hn, Hfound, H2. reflexivity. }
  split; [unfold chain_for; now rewrite Hb |]. split; [exact Hfound |].
  split; [exact Hc |]. split.
  - pose proof (remove_bind_counts (Some f) key t). lia.
  - intros other Hne. now apply remove_bind_other.
Qed.

(** X6.  Unmount twice.  After [remove_bind] without a source, a second one for
    the same mountpoint finds nothing and leaves every bucket and the count
    as they are. *)
Theorem remove_bind_all_twice (key : string) (t : Table) :
  snd (remove_bind None key (fst (remove_bind None key t))) = false
  /\ (forall i,
        bindtab (fst (remove_bind None key (fst (remove_bind None key t)))) i
        = bindtab (fst (remove_bind None key t)) i)
  /\ ns_count (fst (remove_bind None key (fst (remove_bind None key t))))
     = ns_count (fst (remove_bind None key t)).
Proof.
  set (t1 := fst (remove_bind None key t)).
  assert (H1 : chain_for t1 key = []) by apply remove_bind_all_chain.
  assert (Hid : remove_chain None key (bindtab t1 (pathhash key))
                = (bindtab t1 (pathhash key), 0)).
  { unfold chain_for in H1. revert H1.
    generalize (bindtab t1 (pathhash key)). intros chain.
    induction chain as [| b n IH]; [reflexivity |]. cbn [filter remove_chain].
    rewrite andb_true_r. destruct (streq (to b) key); [discriminate |].
    intros H. now rewrite (IH H). }
  destruct (remove_bind_bucket None key t1) as (Hb & Hf & Hn).
  rewrite Hid in *. cbn [fst snd] in *.
  split; [exact Hf |]. split.
  - intros i. destruct (Z.eq_dec i (pathhash key)) as [-> | Hne]; [exact Hb |].
    unfold remove_bind. rewrite Hid. cbn [fst bindtab].
    now apply set_bucket_other.
  - unfold ns_count. rewrite Hn. lia.
Qed.

Lemma remove_bind_all_witness :
  chain_for (fst (remove_bind None "ab"
                    (add_bind "/o" "!" BIND_REPLACE
                       (three_binds "/a" "/b" "/c" "ab" dist_init)))) "!"
  = [mkBind "/o" "!" BIND_REPLACE].
Proof.
  destruct (remove_bind_all "ab"
              (add_bind "/o" "!" BIND_REPLACE
                 (three_binds "/a" "/b" "/c" "ab" dist_init)))
    as (_ & _ & _ & _ & H).
  rewrite (H "!"); [reflexivity | discriminate].
Defined.

Lemma remove_bind_one_witness :
  chain_for (fst (remove_bind (Some "/a") "ab"
                    (add_bind "/o" "!" BIND_REPLACE
                       (three_binds "/a" "/b" "/c" "ab" dist_init)))) "!"
  = [mkBind "/o" "!" BIND_REPLACE].
Proof.
  destruct (remove_bind_one "/a" "ab"
              (add_bind "/o" "!" BIND_REPLACE
                 (three_binds "/a" "/b" "/c" "ab" dist_init)))
    as (_ & _ & _ & _ & H).
  rewrite (H "!"); [reflexivity | discriminate].
Defined.

(** ** Lookup *)

Lemma find_chain_sound (key : string) (chain : list Bind) (b : Bind) :
  find_chain key chain = Some b -> to b = key /\ In b chain.
Proof.
  induction chain as [| x n IH]; [discriminate |]. cbn [find_chain].
  destruct (streq (to x) key) eqn:E.
  - intros H. inversion H; subst x. split; [| now left].
    now apply String.eqb_eq.
  - intros H. destruct (IH H) as [H1 H2]. split; [exact H1 | now right].
Qed.

Lemma find_chain_none (key : string) (chain : list Bind) :
  find_chain key chain = None -> forall b, In b chain -> to b <> key.
Proof.
  induction chain as [| x n IH]; [intros _ b [] |]. cbn [find_chain].
  destruct (streq (to x) key) eqn:E; [discriminate |].
  intros H b [<- | Hin]; [now apply String.eqb_neq | now apply IH].
Qed.

Lemma entries_bucket (t : Table) (h : Z) (b : Bind) :
  0 <= h < BIND_MAX -> In b (bindtab t h) -> In b (entries t).
Proof.
  intros Hh Hin. unfold entries. apply in_flat_map.
  exists h. split; [now apply buckets_In | exact Hin].
Qed.

(** X7.  What [ns_lookup] answers is an entry of the table for the mountpoint
    asked for, the first of its bucket; it answers nothing only when the
    bucket has no entry for the mountpoint. *)
Theorem ns_lookup_sound (t : Table) (key : string) :
  match ns_lookup t key with
  | Some b =>
      to b = key /\ In b (entries t) /\ hd_error (chain_for t key) = Some b
  | None => chain_for t key = []
  end.
Proof.
  unfold ns_lookup. destruct (find_bind t key) as [b |] eqn:E.
  - unfold find_bind in E. destruct (find_chain_sound _ _ _ E) as [H1 H2].
    split; [exact H1 |]. split.
    + exact (entries_bucket t _ b (pathhash_range key) H2).
    + rewrite <- find_bind_chain_for. exact E.
  - now apply chain_for_nil_find.
Qed.

(** The entry an add makes is listed: it is among the entries [ns] runs
    through. *)
Lemma add_bind_listed (src dst : string) (m : Z) (t : Table) :
  In (mkBind src dst
        (Z.land m (Z.lor (Z.lor BIND_BEFORE BIND_AFTER) BIND_REPLACE)))
    (entries (add_bind src dst m t)).
Proof.
  apply (entries_bucket _ (pathhash dst)); [apply pathhash_range |].
  apply add_bind_stores.
Qed.

(** ** Bind, then resolve *)

(** X8.  After an add for the cleaned form of a path, with the before bit or
    without the after bit (before or replace), the path resolves to the
    source just bound, whatever the table held. *)
Theorem resolve_after_bind (realpath : string -> option string)
    (src p : string) (m : Z) (t : Table) :
  nz (Z.land m BIND_BEFORE) = true \/ nz (Z.land m BIND_AFTER) = false ->
  ns_resolve realpath
    (add_bind src (cleanpath realpath (Some p)) m t) (Some p)
  = Some src.
Proof.
  intros Hm. unfold ns_resolve.
  set (dst := cleanpath realpath (Some p)).
  unfold add_bind. cbn [bindtab]. rewrite set_bucket_same.
  destruct (find_bind t dst).
  - destruct (nz (Z.land m BIND_BEFORE)).
    { cbn [find_chain to]. now rewrite streq_refl. }
    destruct Hm as [Hm | Hm]; [discriminate |]. rewrite Hm.
    cbn [find_chain to]. now rewrite streq_refl.
  - cbn [find_chain to]. now rewrite streq_refl.
Qed.

Lemma resolve_after_bind_witness :
  ns_resolve (fun _ => None)
    (add_bind "/usr/bin" (cleanpath (fun _ => None) (Some "/bin/"))
       BIND_BEFORE (add_bind "/opt/bin" "/bin" BIND_REPLACE dist_init))
    (Some "/bin/")
  = Some "/usr/bin".
Proof.
  apply (resolve_after_bind (fun _ => None) "/usr/bin" "/bin/" BIND_BEFORE).
  left. reflexivity.
Defined.

(** X9.  An after add for a mountpoint that has an entry does not change what
    the mountpoint resolves to. *)
Theorem resolve_after_append (realpath : string -> option string)
    (src p : string) (t : Table) (e : Bind) :
  find_bind t (cleanpath realpath (Some p)) = Some e ->
  ns_resolve realpath
    (add_bind src (cleanpath realpath (Some p)) BIND_AFTER t) (Some p)
  = ns_resolve realpath t (Some p).
Proof.
  intros He. unfold ns_resolve.
  set (dst := cleanpath realpath (Some p)) in *.
  rewrite add_bind_after, He. unfold find_bind in He.
  revert He. generalize (bindtab t (pathhash dst)). intros chain.
  induction chain as [| x n IH]; [discriminate |].
  cbn [find_chain app]. destruct (streq (to x) dst); [reflexivity |].
  exact IH.
Qed.

Lemma resolve_after_append_witness :
  ns_resolve (fun _ => None)
    (add_bind "/usr/bin" (cleanpath (fun _ => None) (Some "/bin/"))
       BIND_AFTER (add_bind "/opt/bin" "/bin" BIND_REPLACE dist_init))
    (Some "/bin/")
  = Some "/opt/bin".
Proof.
  rewrite (resolve_after_append (fun _ => None) "/usr/bin" "/bin/"
             (add_bind "/opt/bin" "/bin" BIND_REPLACE dist_init)
             (mkBind "/opt/bin" "/bin" BIND_REPLACE));
    reflexivity.
Defined.

(** ** Teardown *)

Lemma cleanup_buckets (l : list Z) (tab : Z -> list Bind) (i : Z) :
  fold_left (fun tab' j => set_bucket tab' j []) l tab i
  = if existsb (Z.eqb i) l then [] else tab i.
Proof.
  revert tab. induction l as [| j l IH]; intros tab; [reflexivity |].
  cbn [fold_left existsb]. rewrite IH. unfold set_bucket.
  destruct (existsb (Z.eqb i) l); [now rewrite orb_true_r |].
  now rewrite orb_false_r.
Qed.

(** X10.  After [dist_cleanup] the table lists nothing, counts nothing and no
    lookup finds an entry. *)
Theorem dist_cleanup_empty (t : Table) :
  entries (dist_cleanup t) = []
  /\ ns_count (dist_cleanup t) = 0
  /\ forall key, ns_lookup (dist_cleanup t) key = None.
Proof.
  assert (H : forall i, In i buckets -> bindtab (dist_cleanup t) i = []).
  { intros i Hi. unfold dist_cleanup. cbn [bindtab]. rewrite cleanup_buckets.
    replace (existsb (Z.eqb i) buckets) with true; [reflexivity |].
    symmetry. apply existsb_exists. exists i. split; [exact Hi |].
    apply Z.eqb_refl. }
  split; [| split].
  - unfold entries. revert H. generalize buckets. intros l Hl.
    induction l as [| i l IH]; [reflexivity |]. cbn [flat_map].
    rewrite (Hl i) by now left. apply IH. intros j Hj. apply Hl. now right.
  - reflexivity.
  - intros key. unfold ns_lookup, find_bind.
    now rewrite (H _ (buckets_In _ (pathhash_range key))).
Qed.

(** ** The count is never below the number of entries *)

Lemma table_step_drift (t t' : Table) :
  table_step t t' -> live t <= ns_count t -> live t' <= ns_count t'.
Proof.
  intros [-> | [(src & dst & m & _ & ->) | (src & key & ->)]] H.
  - exact H.
  - destruct (add_bind_counts src dst m t) as [Hc Hl]. rewrite Hc, Hl.
    destruct (replaces dst m t); lia.
  - pose proof (remove_bind_counts src key t). lia.
Qed.

Section Invariants.

Context {S : Type}.
Variable os : OS S.
Variable sh : Shell.

Lemma run_script_drift (script : list (Builtin * list string))
    (w w' : World S) :
  live (table w) <= ns_count (table w) ->
  run_script os sh script w = Some w' ->
  live (table w') <= ns_count (table w').
Proof.
  revert w. induction script as [| [b av] rest IH]; intros w Hok H;
    cbn [run_script] in H.
  - now inversion H; subst.
  - destruct (run_builtin os sh b av w) as [w1 |] eqn:E; [| discriminate H].
    apply (IH w1); [| exact H].
    exact (table_step_drift _ _ (run_builtin_step os sh _ _ _ _ E) Hok).
Qed.

(** A run goes to its end or stops at a [cpu] without a result, and the
    count is not below the entries up to there. *)
Lemma run_script_drift_or (script : list (Builtin * list string))
    (w : World S) :
  live (table w) <= ns_count (table w) ->
  (exists w',
     run_script os sh script w = Some w'
     /\ live (table w') <= ns_count (table w'))
  \/ (exists pre av rest w1,
        script = pre ++ (Bcpu, av) :: rest
        /\ run_script os sh pre w = Some w1
        /\ live (table w1) <= ns_count (table w1)
        /\ b_cpu os sh av w1 = None).
Proof.
  revert w. induction script as [| [b av] rest IH]; intros w Hok.
  - left. now exists w.
  - cbn [run_script]. destruct (run_builtin os sh b av w) as [w1 |] eqn:E.
    + pose proof (table_step_drift _ _ (run_builtin_step os sh _ _ _ _ E) Hok)
        as Hok1.
      destruct (IH w1 Hok1)
        as [(w' & Hr & Hw') | (pre & av' & rest' & w2 & -> & Hr & Hw2 & Hn)].
      * left. now exists w'.
      * right. exists ((b, av) :: pre), av', rest', w2.
        split; [reflexivity |]. split; [| now split].
        cbn [run_script]. now rewrite E.
    + right. exists [], av, rest, w.
      destruct b; try discriminate E. cbn [run_builtin] in E.
      repeat split; assumption.
Qed.

(** X11.  From the table [dist_init] leaves, a sequence of builtins with any
    arguments either runs to its end, and then [ns_count] is not below
    the number of entries in the table, or comes to a [cpu] whose command
    line leaves its buffers, for which C defines no result, and [ns_count]
    is not below the number of entries when that [cpu] starts.  A sequence
    without [cpu] always runs to its end. *)
Theorem count_never_below (script : list (Builtin * list string))
    (w : World S) :
  ((exists w',
      run_script os sh script (set_table dist_init w) = Some w'
      /\ live (table w') <= ns_count (table w'))
   \/ (exists pre av rest w1,
         script = pre ++ (Bcpu, av) :: rest
         /\ run_script os sh pre (set_table dist_init w) = Some w1
         /\ live (table w1) <= ns_count (table w1)
         /\ b_cpu os sh av w1 = None))
  /\ (no_cpu script = true ->
      exists w',
        run_script os sh script (set_table dist_init w) = Some w'
        /\ live (table w') <= ns_count (table w')).
Proof.
  assert (H0 : live (table (set_table dist_init w))
               <= ns_count (table (set_table dist_init w))).
  { change (live dist_init <= ns_count dist_init).
    replace (live dist_init) with 0 by (vm_compute; reflexivity).
    unfold ns_count, dist_init. cbn [nbinds]. lia. }
  split; [exact (run_script_drift_or script _ H0) |].
  intros Hn.
  destruct (run_script_total os sh script (set_table dist_init w) Hn)
    as (w' & E).
  exists w'. split; [exact E |].
  exact (run_script_drift script _ w' H0 E).
Qed.

End Invariants.

Lemma count_never_below_witness :
  exists w',
    run_script (Demo.os Demo.mount_works) Demo.sh
      [(Bbind, ["bind"; "-b"; "/a"; "/mnt"]);
       (Bbind, ["bind"; "/a"; "/mnt"]);
       (Bunmount, ["unmount"; "/mnt"])]
      (set_table dist_init (Demo.world [("/a", KDir); ("/mnt", KDir)] 3))
    = Some w'
    /\ live (table w') <= ns_count (table w').
Proof.
  apply (count_never_below (Demo.os Demo.mount_works) Demo.sh
           [(Bbind, ["bind"; "-b"; "/a"; "/mnt"]);
            (Bbind, ["bind"; "/a"; "/mnt"]);
            (Bunmount, ["unmount"; "/mnt"])]
           (Demo.world [("/a", KDir); ("/mnt", KDir)] 3)).
  reflexivity.
Defined.

(** * Further properties of the path canonicalizer *)

Lemma strip_rev_slashes (r : list ascii) :
  exists k, r = repeat "/"%char k ++ strip_rev r.
Proof.
  induction r as [| c r IH]; [now exists 0%nat |].
  cbn [strip_rev]. destruct r as [| d r]; [now exists 0%nat |].
  destruct (Ascii.eqb_spec c "/") as [-> |]; [| now exists 0%nat].
  destruct IH as (k & Hk). exists (Datatypes.S k). cbn [repeat app].
  now rewrite <- Hk.
Qed.

Lemma strip_rev_shape (r : list ascii) :
  match strip_rev r with
  | c :: _ :: _ => Ascii.eqb c "/" = false
  | _ => True
  end.
Proof.
  induction r as [| c r IH]; [exact I |].
  cbn [strip_rev]. destruct r as [| d r]; [exact I |].
  destruct (Ascii.eqb c "/") eqn:E; [exact IH | exact E].
Qed.

Lemma strip_rev_fixed (r : list ascii) :
  match r with c :: _ :: _ => Ascii.eqb c "/" = false | _ => True end ->
  strip_rev r = r.
Proof.
  destruct r as [| c [| d r]]; [reflexivity | reflexivity |].
  intros H. cbn [strip_rev]. now rewrite H.
Qed.

Lemma strip_rev_nil (r : list ascii) : strip_rev r = [] -> r = [].
Proof.
  induction r as [| c r IH]; [reflexivity |].
  cbn [strip_rev]. destruct r as [| d r]; [discriminate |].
  destruct (Ascii.eqb c "/"); [| discriminate].
  intros H. apply IH in H. discriminate H.
Qed.

Lemma string_of_list_ascii_app (a b : list ascii) :
  string_of_list_ascii (a ++ b)
  = string_of_list_ascii a +++ string_of_list_ascii b.
Proof. induction a as [| c a IH]; cbn; [reflexivity | now rewrite IH]. Qed.

Lemma rev_slashes (k : nat) : rev (repeat "/"%char k) = repeat "/"%char k.
Proof.
  induction k as [| k IH]; [reflexivity |]. cbn [repeat rev]. rewrite IH.
  clear IH. induction k as [| k IH]; [reflexivity |].
  cbn [repeat app]. now rewrite IH.
Qed.

Lemma strip_slashes_list (p : string) :
  list_ascii_of_string (strip_slashes p)
  = rev (strip_rev (rev (list_ascii_of_string p))).
Proof. unfold strip_slashes. apply list_ascii_of_string_of_list_ascii. Qed.

Lemma strip_slashes_empty (p : string) :
  String.eqb (strip_slashes p) EmptyString = String.eqb p EmptyString.
Proof.
  pose proof (strip_slashes_list p) as Hl.
  set (r := rev (list_ascii_of_string p)) in *.
  destruct (String.eqb_spec p EmptyString) as [-> | Hne]; [reflexivity |].
  apply String.eqb_neq. intros H.
  assert (Hr : strip_rev r = []).
  { apply (f_equal list_ascii_of_string) in H. rewrite Hl in H. cbn in H.
    apply (f_equal (@rev ascii)) in H. now rewrite rev_involutive in H. }
  apply strip_rev_nil in Hr. unfold r in Hr.
  apply (f_equal (@rev ascii)) in Hr. rewrite rev_involutive in Hr.
  cbn in Hr. apply Hne. rewrite <- (string_of_list_ascii_of_string p).
  now rewrite Hr.
Qed.

(** X12.  The fallback of [cleanpath].  Stripping takes only slashes off the end
    of the path, leaves no slash at the end of a path longer than one
    character, leaves a path that is not empty not empty, and changes
    nothing when done again. *)
Theorem strip_slashes_spec (p : string) :
  (exists k, p = strip_slashes p +++ slashes k)
  /\ ends_with_slash (strip_slashes p)
     && negb (String.length (strip_slashes p) =? 1)%nat = false
  /\ String.eqb (strip_slashes p) EmptyString = String.eqb p EmptyString
  /\ strip_slashes (strip_slashes p) = strip_slashes p.
Proof.
  pose proof (strip_slashes_list p) as Hl.
  set (r := rev (list_ascii_of_string p)) in *.
  split; [| split; [| split]].
  - destruct (strip_rev_slashes r) as (k & Hk). exists k.
    assert (Hp : p = string_of_list_ascii (rev r)).
    { unfold r. now rewrite rev_involutive, string_of_list_ascii_of_string. }
    unfold strip_slashes, slashes. fold r.
    rewrite <- string_of_list_ascii_app, <- (rev_slashes k).
    rewrite <- rev_app_distr, <- Hk. exact Hp.
  - unfold ends_with_slash. rewrite Hl, rev_involutive.
    pose proof (strip_rev_shape r) as Hs.
    assert (Hlen : String.length (strip_slashes p)
                   = List.length (strip_rev r)).
    { unfold strip_slashes. fold r.
      rewrite <- (length_rev (strip_rev r)).
      generalize (rev (strip_rev r)). intros l.
      induction l as [| c l IH]; cbn; [reflexivity | now rewrite IH]. }
    rewrite Hlen. destruct (strip_rev r) as [| c [| d l]];
      [reflexivity | apply andb_false_r | now rewrite Hs].
  - apply strip_slashes_empty.
  - unfold strip_slashes at 1. rewrite Hl, rev_involutive.
    rewrite (strip_rev_fixed _ (strip_rev_shape r)). reflexivity.
Qed.

(** X13.  [cleanpath] gives ["."] for no path and for the empty path, and never
    an empty string as long as [realpath] gives none. *)
Theorem cleanpath_not_empty (realpath : string -> option string)
    (path : option string) :
  (forall q r, realpath q = Some r -> r <> EmptyString) ->
  cleanpath realpath path <> EmptyString
  /\ cleanpath realpath None = "."
  /\ cleanpath realpath (Some EmptyString) = ".".
Proof.
  intros Hrp. split; [| split; reflexivity].
  destruct path as [[| c p] |]; cbn [cleanpath]; try discriminate.
  destruct (realpath (String c p)) as [r |] eqn:E; [exact (Hrp _ _ E) |].
  pose proof (strip_slashes_empty (String c p)) as H.
  cbn in H. now apply String.eqb_neq.
Qed.

Lemma cleanpath_not_empty_witness :
  cleanpath (fun _ => None) (Some "///") <> EmptyString.
Proof.
  apply (cleanpath_not_empty (fun _ => None) (Some "///")).
  discriminate.
Defined.

(** * Further properties of the builtins *)

Lemma launches_app (a b : list Event) :
  launches (a ++ b) = launches a ++ launches b.
Proof. apply flat_map_app. Qed.

Lemma spawns_app (a b : list Event) : spawns (a ++ b) = spawns a ++ spawns b.
Proof. apply flat_map_app. Qed.

Section Quiet.

Context {S : Type}.
Variable os : OS S.
Variable sh : Shell.

Lemma untouched_refl (w : World S) : untouched w w.
Proof. repeat split. Qed.

Lemma untouched_trans (w1 w2 w3 : World S) :
  untouched w1 w2 -> untouched w2 w3 -> untouched w1 w3.
Proof.
  intros (A1 & A2 & A3 & A4 & A5) (B1 & B2 & B3 & B4 & B5).
  repeat split; congruence.
Qed.

Lemma stat_untouched (path : string) (w : World S) :
  untouched w (fst (stat os path w)) /\ sys (fst (stat os path w)) = sys w.
Proof.
  unfold stat. destruct (os_stat os (sys w) path); repeat split.
Qed.

Lemma isdir_untouched (path : string) (w : World S) :
  untouched w (fst (isdir os path w)) /\ sys (fst (isdir os path w)) = sys w.
Proof.
  unfold isdir. pose proof (stat_untouched path w) as H.
  destruct (stat os path w). exact H.
Qed.

Lemma missing_untouched (d : bool) (path : string) (w : World S) :
  untouched w (fst (missing os d path w))
  /\ sys (fst (missing os d path w)) = sys w.
Proof.
  unfold missing. destruct d; [split; [apply untouched_refl | reflexivity] |].
  pose proof (stat_untouched path w) as H. destruct (stat os path w). exact H.
Qed.

Lemma mkdir_untouched (path : string) (w : World S) :
  untouched w (fst (mkdir os path w)).
Proof.
  unfold mkdir. destruct (os_mkdir os (sys w) path) as [s [e |]]; repeat split.
Qed.

(** [ensuredir] changes neither the shell nor the table; it calls no
    [mkdir], so leaves the system as it is, when the path is a directory
    or the mode has no create flag. *)
Lemma ensuredir_untouched (path : string) (m : Z) (w : World S) :
  untouched w (fst (ensuredir os path m w))
  /\ (nz (Z.land m BIND_CREATE) = false ->
      sys (fst (ensuredir os path m w)) = sys w).
Proof.
  unfold ensuredir. pose proof (isdir_untouched path w) as [H1 H1s].
  destruct (isdir os path w) as [w1 d]. cbn [fst] in *.
  destruct d; [now split |].
  destruct (nz (Z.land m BIND_CREATE)); [| now split].
  split; [| discriminate].
  pose proof (mkdir_untouched path w1) as H2.
  destruct (mkdir os path w1) as [w2 ok]. cbn [fst] in H2.
  pose proof (untouched_trans _ _ _ H1 H2) as H.
  destruct ok; [exact H |]. destruct (errno w2 =? EEXIST os); exact H.
Qed.

Lemma launches_run_cmd (argv : list string) (w : World S) :
  launches (out (fst (run_cmd os argv w))) = launches (out w) ++ [argv].
Proof.
  destruct (run_cmd_spec os argv w) as [_ [-> | [_ ->]]];
    now rewrite launches_app.
Qed.

Lemma out_trace (text : string) (w : World S) :
  launches (out (trace text w)) = launches (out w)
  /\ spawns (out (trace text w)) = spawns (out w).
Proof.
  unfold trace. destruct (dashex w); [| now split].
  cbn [fprint emit out]. rewrite launches_app, spawns_app.
  split; apply app_nil_r.
Qed.

Lemma launches_fprint (fd : Z) (text : string) (w : World S) :
  launches (out (fprint fd text w)) = launches (out w).
Proof. cbn [fprint emit out]. rewrite launches_app. apply app_nil_r. Qed.

Lemma launches_fail (text : string) (w : World S) :
  launches (out (fail text w)) = launches (out w).
Proof. apply launches_fprint. Qed.

Lemma out_print_all (fd : Z) (lines : list string) (w : World S) :
  out (print_all fd lines w) = out w ++ map (Print fd) lines.
Proof.
  unfold print_all. revert w.
  induction lines as [| l lines IH]; intros w; cbn [fold_left map].
  - now rewrite app_nil_r.
  - rewrite IH. cbn [fprint emit out]. now rewrite <- app_assoc.
Qed.

Lemma launches_prints (fd : Z) (lines : list string) :
  launches (map (Print fd) lines) = [].
Proof. induction lines; [reflexivity | assumption]. Qed.

End Quiet.

(** ** bind and addns *)

Section Bind.

Context {S : Type}.
Variable os : OS S.
Variable sh : Shell.

Lemma vars_trace (text : string) (w : World S) :
  vars (trace text w) = vars w /\ sys (trace text w) = sys w.
Proof. unfold trace. destruct (dashex w); split; reflexivity. Qed.

(** The two ways a bind ends; the paths are cleaned in the system as the
    bind leaves it. *)
Lemma bind_at_outcome (m : Z) (src dst : string) (w : World S) :
  launches (out (bind_at os sh m src dst w)) = launches (out w)
  /\ ((status (bind_at os sh m src dst w) = Truth false
       /\ table (bind_at os sh m src dst w) = table w
       /\ vars (bind_at os sh m src dst w) = vars w)
      \/ (status (bind_at os sh m src dst w) = Truth true
          /\ table (bind_at os sh m src dst w)
             = add_bind (clean os src (bind_at os sh m src dst w))
                 (clean os dst (bind_at os sh m src dst w)) m (table w)
          /\ vars (bind_at os sh m src dst w) "ns_bind_last"
             = [clean os src (bind_at os sh m src dst w) +++ " "
                +++ clean os dst (bind_at os sh m src dst w)]))
  /\ (nz (Z.land m BIND_CREATE) = false ->
      sys (bind_at os sh m src dst w) = sys w).
Proof.
  unfold bind_at.
  pose proof (isdir_untouched os src w) as [U1 S1].
  destruct (isdir os src w) as [w1 d]. cbn [fst] in U1, S1.
  pose proof (missing_untouched os d src w1) as [U2 S2].
  destruct (missing os d src w1) as [w2 gone]. cbn [fst] in U2, S2.
  pose proof (untouched_trans _ _ _ U1 U2) as (T2 & V2 & _ & _ & O2).
  destruct gone.
  { rewrite launches_fail, O2. split; [reflexivity |]. split.
    - left. cbn. now split.
    - intros _. cbn. congruence. }
  pose proof (ensuredir_untouched os dst m w2) as [U3 S3].
  destruct (ensuredir os dst m w2) as [w3 r]. cbn [fst] in U3, S3.
  assert (U4 : untouched w3
                 (fst (if nz r then isdir os dst w3 else (w3, true)))
               /\ sys (fst (if nz r then isdir os dst w3 else (w3, true)))
                  = sys w3).
  { destruct (nz r); [apply isdir_untouched |].
    split; [apply untouched_refl | reflexivity]. }
  destruct (if nz r then isdir os dst w3 else (w3, true)) as [w4 d'].
  cbn [fst] in U4. destruct U4 as [U4 S4].
  pose proof (missing_untouched os d' dst w4) as [U5 S5].
  destruct (missing os d' dst w4) as [w5 gone']. cbn [fst] in U5, S5.
  pose proof (untouched_trans _ _ _ (untouched_trans _ _ _ U1 U2)
                (untouched_trans _ _ _ U3 (untouched_trans _ _ _ U4 U5)))
    as (T5 & V5 & _ & _ & O5).
  assert (Hsys : nz (Z.land m BIND_CREATE) = false -> sys w5 = sys w).
  { intros Hc. specialize (S3 Hc). congruence. }
  destruct gone'.
  { rewrite launches_fail, O5. split; [reflexivity |]. split.
    - left. cbn. now split.
    - intros Hc. cbn. now apply Hsys. }
  unfold bind_record.
  cbn [set set_status out status table vars sys].
  set (cfrom := clean os src w5). set (cto := clean os dst w5).
  set (text := _ +++ _).
  set (w7 := varassign "ns_bind_last" [cfrom +++ " " +++ cto]
               (record_bind os src dst m w5)).
  destruct (out_trace text w7) as [Hl _].
  destruct (vars_trace text w7) as [Hv Hs].
  assert (Hcl : forall x, clean os x (set true (trace text w7))
                          = clean os x w5).
  { intros x. unfold clean. cbn [set set_status sys]. now rewrite Hs. }
  rewrite !Hcl. fold cfrom. fold cto.
  split; [rewrite Hl; cbn; now rewrite O5 |]. split.
  - right. split; [reflexivity |]. split.
    + rewrite table_trace. cbn. now rewrite T5.
    + rewrite Hv. reflexivity.
  - intros Hc. cbn [set set_status sys]. rewrite Hs. now apply Hsys.
Qed.

(** X14.  [bind] launches no program.  When it reports failure the table and
    the shell variables are as they were; when it reports success there
    were exactly two arguments after the options, one entry was added with
    the mode of the options, from the first argument made canonical to the
    second made canonical, in this order, the count went up by one and
    [ns_bind_last] holds these two canonical paths with a space between
    them.  Without [-c] it changes nothing in the system. *)
Theorem bind_outcome (av : list string) (w : World S) :
  launches (out (b_bind os sh av w)) = launches (out w)
  /\ ((status (b_bind os sh av w) = Truth false
       /\ table (b_bind os sh av w) = table w
       /\ vars (b_bind os sh av w) = vars w)
      \/ (status (b_bind os sh av w) = Truth true
          /\ exists m src dst,
              let canonical :=
                cleanpath (os_realpath os (sys (b_bind os sh av w))) in
              bind_options (tl av) BIND_REPLACE = inl (m, [src; dst])
              /\ table (b_bind os sh av w)
                 = add_bind (canonical (Some src)) (canonical (Some dst)) m
                     (table w)
              /\ ns_count (table (b_bind os sh av w))
                 = ns_count (table w) + 1
              /\ vars (b_bind os sh av w) "ns_bind_last"
                 = [canonical (Some src) +++ " " +++ canonical (Some dst)]))
  /\ (forall m rest,
        bind_options (tl av) BIND_REPLACE = inl (m, rest) ->
        nz (Z.land m BIND_CREATE) = false ->
        sys (b_bind os sh av w) = sys w).
Proof.
  unfold b_bind.
  destruct (bind_options (tl av) BIND_REPLACE) as [[m rest] | c].
  2: { rewrite launches_fail. split; [reflexivity |]. split.
       - left. now split.
       - discriminate. }
  assert (Hfail : forall text P,
             launches (out (fail text w)) = launches (out w)
             /\ ((status (fail text w) = Truth false
                  /\ table (fail text w) = table w
                  /\ vars (fail text w) = vars w)
                 \/ (status (fail text w) = Truth true /\ P))
             /\ (forall m0 rest0,
                   @inl _ ascii (m, rest) = inl (m0, rest0) ->
                   nz (Z.land m0 BIND_CREATE) = false ->
                   sys (fail text w) = sys w)).
  { intros text P. rewrite launches_fail. split; [reflexivity |]. split.
    - left. now split.
    - reflexivity. }
  destruct rest as [| src [| dst [| x more]]]; try apply Hfail.
  destruct (bind_at_outcome m src dst w) as (Hl & Ho & Hs).
  split; [exact Hl |]. split.
  - destruct Ho as [Ho | (Hst & Ht & Hv)]; [now left |].
    right. split; [exact Hst |]. exists m, src, dst. cbv zeta.
    split; [reflexivity |]. split; [exact Ht |]. split; [| exact Hv].
    rewrite Ht. reflexivity.
  - intros m0 rest0 H Hc. inversion H; subst. now apply Hs.
Qed.

Lemma bind_after_parsed (src dst : string) (w : World S) :
  dash src = None ->
  b_bind os sh ["bind"; "-a"; src; dst] w = bind_at os sh BIND_AFTER src dst w.
Proof.
  intros Hd. unfold b_bind. cbn [tl bind_options].
  change (dash "-a") with (Some "a").
  change (mode_flags false "a" BIND_REPLACE) with (@inl Z ascii BIND_AFTER).
  cbn [bind_options]. rewrite Hd.
  destruct (dash dst); reflexivity.
Qed.

(** X16.  [addns from to], when [from] does not begin with a dash, is a bind of
    mode after: on success the entry added has that mode, and the
    arguments after the second are not looked at. *)
Theorem addns_appends (name src dst : string) (rest : list string)
    (w : World S) :
  dash src = None ->
  b_addns os sh (name :: src :: dst :: rest) w
  = b_bind os sh ["bind"; "-a"; src; dst] w
  /\ ((status (b_addns os sh (name :: src :: dst :: rest) w) = Truth false
       /\ table (b_addns os sh (name :: src :: dst :: rest) w) = table w)
      \/ (status (b_addns os sh (name :: src :: dst :: rest) w) = Truth true
          /\ exists cfrom cto,
              table (b_addns os sh (name :: src :: dst :: rest) w)
              = add_bind cfrom cto BIND_AFTER (table w))).
Proof.
  intros Hd. split; [reflexivity |].
  change (b_addns os sh (name :: src :: dst :: rest) w)
    with (b_bind os sh ["bind"; "-a"; src; dst] w).
  rewrite (bind_after_parsed src dst w Hd).
  destruct (bind_at_outcome BIND_AFTER src dst w)
    as (_ & [(Hs & Ht & _) | (Hs & Ht & _)] & _).
  - left. now split.
  - right. split; [exact Hs |]. eexists _, _. exact Ht.
Qed.

(** X15.  A source that is not there.  When [stat] of the source of a bind
    fails, the bind fails with the error of [stat] in its diagnostic, adds
    no entry and changes nothing in the system, whatever the mode. *)
Theorem bind_missing_source (m : Z) (src dst : string) (e : Z) (w : World S) :
  os_stat os (sys w) src = inr e ->
  bind_at os sh m src dst w
  = fail (RC sh +++ "bind: " +++ src +++ ": " +++ strerror os e +++ nl)
      (set_errno e w).
Proof.
  intros He. unfold bind_at, isdir, missing, stat. rewrite He.
  cbn [sys set_errno]. rewrite He. reflexivity.
Qed.

End Bind.

Lemma bind_outcome_witness :
  sys (b_bind (Demo.os Demo.failing) Demo.sh ["bind"; "-b"; "/a"; "/nowhere"]
         (Demo.world [("/a", KDir)] 3))
  = sys (Demo.world [("/a", KDir)] 3).
Proof.
  destruct (bind_outcome (Demo.os Demo.failing) Demo.sh
              ["bind"; "-b"; "/a"; "/nowhere"] (Demo.world [("/a", KDir)] 3))
    as (_ & _ & H).
  apply (H BIND_BEFORE ["/a"; "/nowhere"]); reflexivity.
Defined.

(** [bind -b /a /mnt]: the entry goes from [/a] to [/mnt], and
    [ns_bind_last] holds the two in this order. *)
Lemma bind_before_example :
  entries (table (b_bind (Demo.os Demo.failing) Demo.sh
                    ["bind"; "-b"; "/a"; "/mnt"]
                    (Demo.world [("/a", KDir); ("/mnt", KDir)] 3)))
  = [mkBind "/a" "/mnt" BIND_BEFORE]
  /\ vars (b_bind (Demo.os Demo.failing) Demo.sh
             ["bind"; "-b"; "/a"; "/mnt"]
             (Demo.world [("/a", KDir); ("/mnt", KDir)] 3)) "ns_bind_last"
     = ["/a /mnt"].
Proof. vm_compute. split; reflexivity. Qed.

Lemma addns_appends_witness :
  b_addns (Demo.os Demo.failing) Demo.sh ["addns"; "/a"; "/mnt"]
    (Demo.world [("/a", KDir); ("/mnt", KDir)] 3)
  = b_bind (Demo.os Demo.failing) Demo.sh ["bind"; "-a"; "/a"; "/mnt"]
      (Demo.world [("/a", KDir); ("/mnt", KDir)] 3).
Proof.
  apply (addns_appends (Demo.os Demo.failing) Demo.sh "addns" "/a" "/mnt" []).
  reflexivity.
Defined.

(** ** unmount, mount and import: what is launched *)

Section Transports.

Context {S : Type}.
Variable os : OS S.
Variable sh : Shell.

(** X17.  [unmount] takes the entries out of the table whatever the programs
    then answer, always launches [umount], launches [fusermount -u] only
    when no entry was taken out and [umount] did not end with the exit
    status 0, and reports success when any of the three did something. *)
Theorem unmount_outcome (src : option string) (mp : string) (w : World S) :
  let w1 := set_table (fst (remove_bind src mp (table w))) w in
  let found := snd (remove_bind src mp (table w)) in
  let r1 := run_cmd os ["umount"; mp] w1 in
  let r2 := run_cmd os ["fusermount"; "-u"; mp] (fst r1) in
  table (unmount_at os sh src mp w) = fst (remove_bind src mp (table w))
  /\ launches (out (unmount_at os sh src mp w))
     = launches (out w)
       ++ ["umount"; mp]
          :: (if found || exited0 (snd r1) then []
              else [["fusermount"; "-u"; mp]])
  /\ status (unmount_at os sh src mp w)
     = Truth (found || exited0 (snd r1) || exited0 (snd r2)).
Proof.
  intros w1 found r1 r2. split; [apply unmount_at_step |].
  unfold unmount_at. subst w1 found r1 r2.
  destruct (remove_bind src mp (table w)) as [t found]. cbn [fst snd].
  pose proof (launches_run_cmd os ["umount"; mp] (set_table t w)) as L1.
  destruct (run_cmd os ["umount"; mp] (set_table t w)) as [w2 st].
  cbn [fst snd set_table out] in *.
  pose proof (launches_run_cmd os ["fusermount"; "-u"; mp] w2) as L2.
  destruct (run_cmd os ["fusermount"; "-u"; mp] w2) as [w3 st'].
  cbn [fst snd] in *.
  destruct found, (exited0 st); cbn [orb negb];
    try (destruct (out_trace
                     ("unmount " +++ match src with
                                     | Some f => f
                                     | None => EmptyString
                                     end +++ mp +++ nl) w2) as [Hl _];
         cbn [set set_status out status]; rewrite Hl, L1;
         split; reflexivity).
  destruct (exited0 st'); cbn [negb].
  - destruct (out_trace
                ("unmount " +++ match src with
                                | Some f => f
                                | None => EmptyString
                                end +++ mp +++ nl) w3) as [Hl _].
    cbn [set set_status out status]. rewrite Hl, L2, L1, <- app_assoc.
    split; reflexivity.
  - rewrite launches_fail, L2, L1, <- app_assoc. split; reflexivity.
Qed.

Lemma launches_record_bind (src dst : string) (m : Z) (w : World S) :
  launches (out (set true (record_bind os src dst m w))) = launches (out w).
Proof. reflexivity. Qed.

(** X18.  The strategies of [mount].  [sshfs] is launched only for an address
    with a colon and a slash; [mount] is launched when [sshfs] was not
    tried or did not end with the exit status 0, and not otherwise;
    nothing else is launched. *)
Theorem mount_strategies (m : Z) (spec : option string)
    (addr mountpoint : string) (w : World S) :
  launches (out (mount_attach os sh m spec addr mountpoint w))
  = launches (out w)
    ++ (if strchr addr ":" && strchr addr "/" then
          sshfs_cmd addr mountpoint spec
          :: (if exited0 (snd (run_cmd os (sshfs_cmd addr mountpoint spec) w))
              then [] else [mount_cmd addr mountpoint spec])
        else [mount_cmd addr mountpoint spec]).
Proof.
  assert (Hsys : forall w0 : World S,
             launches (out (mount_system os sh m spec addr mountpoint w0))
             = launches (out w0) ++ [mount_cmd addr mountpoint spec]).
  { intros w0. unfold mount_system.
    pose proof (launches_run_cmd os (mount_cmd addr mountpoint spec) w0) as L.
    destruct (run_cmd os (mount_cmd addr mountpoint spec) w0) as [w1 st].
    cbn [fst] in L. destruct (exited0 st);
      [now rewrite launches_record_bind | now rewrite launches_fail]. }
  unfold mount_attach.
  destruct (strchr addr ":" && strchr addr "/"); [| apply Hsys].
  pose proof (launches_run_cmd os (sshfs_cmd addr mountpoint spec) w) as L.
  destruct (run_cmd os (sshfs_cmd addr mountpoint spec) w) as [w1 st].
  cbn [fst snd] in *. destruct (exited0 st).
  - now rewrite launches_record_bind.
  - rewrite Hsys, launches_fprint, L, <- app_assoc. reflexivity.
Qed.

(** [mount] launches nothing when the mount point cannot be made. *)
Lemma mount_at_no_mountpoint (m : Z) (spec : option string)
    (addr mountpoint : string) (w : World S) :
  nz (snd (ensuredir os mountpoint (Z.lor m BIND_CREATE) w)) = true ->
  launches (out (mount_at os sh m spec addr mountpoint w)) = launches (out w)
  /\ status (mount_at os sh m spec addr mountpoint w) = Truth false.
Proof.
  unfold mount_at. destruct (ensuredir_keeps os mountpoint
                               (Z.lor m BIND_CREATE) w) as [_ Ho].
  destruct (ensuredir os mountpoint (Z.lor m BIND_CREATE) w) as [w1 r].
  cbn [fst snd] in *. intros ->. rewrite launches_fail, Ho. now split.
Qed.

(** X19.  [import]: [sshfs] is launched first, [9pfuse] only when [sshfs] did
    not end with the exit status 0, nothing else; success is reported when
    one of them ended with the exit status 0, with one entry added; on
    failure the table is as it was. *)
Theorem import_outcome (m : Z) (host path mp : string) (w : World S) :
  let addr := truncate 4096 (host +++ ":" +++ path) in
  let w1 := trace ("import " +++ host +++ " " +++ path +++ " -> " +++ mp
                     +++ nl) w in
  let r1 := run_cmd os ["sshfs"; addr; mp; "-o";
                        "reconnect,ServerAliveInterval=15,follow_symlinks"]
              w1 in
  let r2 := run_cmd os ["9pfuse"; addr; mp] (fst r1) in
  let w' := import_attach os sh m host path mp w in
  launches (out w')
  = launches (out w)
    ++ ["sshfs"; addr; mp; "-o";
        "reconnect,ServerAliveInterval=15,follow_symlinks"]
       :: (if exited0 (snd r1) then [] else [["9pfuse"; addr; mp]])
  /\ status w' = Truth (exited0 (snd r1) || exited0 (snd r2))
  /\ ((status w' = Truth false /\ table w' = table w)
      \/ (status w' = Truth true
          /\ exists cfrom cto, table w' = add_bind cfrom cto m (table w))).
Proof.
  intros addr w1 r1 r2 w'. subst w' r2 r1. unfold import_attach.
  fold addr. fold w1.
  destruct (out_trace ("import " +++ host +++ " " +++ path +++ " -> " +++ mp
                         +++ nl) w) as [L0 _].
  fold w1 in L0.
  assert (T0 : table w1 = table w) by apply table_trace.
  clearbody w1.
  pose proof (launches_run_cmd os
                ["sshfs"; addr; mp; "-o";
                 "reconnect,ServerAliveInterval=15,follow_symlinks"] w1) as L1.
  pose proof (table_run_cmd os
                ["sshfs"; addr; mp; "-o";
                 "reconnect,ServerAliveInterval=15,follow_symlinks"] w1) as T1.
  destruct (run_cmd os _ w1) as [w2 st]. cbn [fst snd] in *.
  pose proof (launches_run_cmd os ["9pfuse"; addr; mp] w2) as L2.
  pose proof (table_run_cmd os ["9pfuse"; addr; mp] w2) as T2.
  destruct (run_cmd os ["9pfuse"; addr; mp] w2) as [w3 st']. cbn [fst snd] in *.
  destruct (exited0 st); cbn [orb].
  - rewrite launches_record_bind, L1, L0. split; [reflexivity |].
    split; [reflexivity |]. right. split; [reflexivity |].
    exists (clean os addr w2), (clean os mp w2).
    unfold record_bind. cbn. congruence.
  - destruct (exited0 st').
    + rewrite launches_record_bind, L2, L1, L0, <- app_assoc.
      split; [reflexivity |]. split; [reflexivity |].
      right. split; [reflexivity |].
      exists (clean os addr w3), (clean os mp w3).
      unfold record_bind. cbn. congruence.
    + rewrite launches_fail, L2, L1, L0, <- app_assoc.
      split; [reflexivity |]. split; [reflexivity |].
      left. split; [reflexivity |]. cbn. congruence.
Qed.

(** X20.  [import] makes the mount point whether or not the create flag is in
    the mode: the flag changes nothing in what it does. *)
Theorem import_create_flag (m : Z) (host path mp : string) (w : World S) :
  import_at os sh (Z.lor m BIND_CREATE) host path mp w
  = import_at os sh m host path mp w
  /\ (snd (isdir os mp w) = false ->
      sys (fst (ensuredir os mp (Z.lor m BIND_CREATE) w))
      = fst (os_mkdir os (sys w) mp)).
Proof.
  split.
  - unfold import_at.
    replace (Z.lor (Z.lor m BIND_CREATE) BIND_CREATE)
      with (Z.lor m BIND_CREATE)
      by (now rewrite <- Z.lor_assoc, Z.lor_diag).
    destruct (ensuredir os mp (Z.lor m BIND_CREATE) w) as [w1 r].
    destruct (nz r); [reflexivity |]. unfold import_attach.
    destruct (run_cmd os _ _) as [w2 st].
    rewrite record_bind_create.
    destruct (run_cmd os _ w2) as [w3 st'].
    now rewrite record_bind_create.
  - unfold ensuredir. pose proof (isdir_untouched os mp w) as [_ Hs].
    destruct (isdir os mp w) as [w1 d]. cbn [fst snd] in *.
    intros ->. rewrite nz_lor_create. unfold mkdir. rewrite Hs.
    destruct (os_mkdir os (sys w) mp) as [s [e |]]; cbn [fst].
    + cbn. destruct (e =? EEXIST os); reflexivity.
    + reflexivity.
Qed.

End Transports.

Lemma import_create_flag_witness :
  sys (fst (ensuredir (Demo.os Demo.failing) "/n/x"
              (Z.lor BIND_REPLACE BIND_CREATE) (Demo.world [("/n", KDir)] 3)))
  = [("/n", KDir); ("/n/x", KDir)].
Proof.
  destruct (import_create_flag (Demo.os Demo.failing) Demo.sh BIND_REPLACE
              "host" "/x" "/n/x" (Demo.world [("/n", KDir)] 3)) as [_ H].
  rewrite H; reflexivity.
Defined.

(** ** rfork: flags, environment and descriptors *)

Lemma nz_land_lor (a b c : Z) :
  nz (Z.land (Z.lor a b) c) = nz (Z.land a c) || nz (Z.land b c).
Proof.
  unfold nz. rewrite Z.land_lor_distr_l.
  destruct (Z.eqb_spec (Z.land a c) 0) as [Ha | Ha];
    destruct (Z.eqb_spec (Z.land b c) 0) as [Hb | Hb];
    destruct (Z.eqb_spec (Z.lor (Z.land a c) (Z.land b c)) 0) as [H | H];
    cbn; try reflexivity.
  - exfalso. apply H. now rewrite Ha, Hb.
  - exfalso. apply Z.lor_eq_0_iff in H. tauto.
  - exfalso. apply Z.lor_eq_0_iff in H. tauto.
  - exfalso. apply Z.lor_eq_0_iff in H. tauto.
Qed.

Ltac rfork_char c :=
  destruct (Ascii.eqb_spec c "c") as [-> |];
  [| destruct (Ascii.eqb_spec c "n") as [-> |];
     [| destruct (Ascii.eqb_spec c "C") as [-> |];
        [| destruct (Ascii.eqb_spec c "N") as [-> |];
           [| destruct (Ascii.eqb_spec c "e") as [-> |];
              [| destruct (Ascii.eqb_spec c "E") as [-> |];
                 [| destruct (Ascii.eqb_spec c "s") as [-> |];
                    [| destruct (Ascii.eqb_spec c "f") as [-> |];
                       [| destruct (Ascii.eqb_spec c "F") as [-> |]]]]]]]]].

(** The flag string is taken whole or not at all: a character that is not
    a flag makes the parse fail, with that character. *)
Lemma rfork_flags_parse (f : string) (z : Z) :
  if all_chars rfork_allowed f
  then exists flags, rfork_flags f z = inl flags
  else exists c, rfork_allowed c = false /\ rfork_flags f z = inr c.
Proof.
  revert z. induction f as [| c f IH]; intros z; [now exists z |].
  cbn [all_chars rfork_flags]. unfold rfork_allowed at 1. cbn [existsb].
  rfork_char c; cbn [orb andb]; try apply IH.
  exists c. split; [| reflexivity]. unfold rfork_allowed. cbn [existsb].
  repeat match goal with
         | H : c <> _ |- _ => apply Ascii.eqb_neq in H; rewrite H; clear H
         end.
  reflexivity.
Qed.

(** The character the parse fails with is the first of the string that is
    not a flag. *)
Lemma rfork_flags_first (f : string) (z : Z) :
  all_chars rfork_allowed f = false ->
  exists pre c post,
    f = pre +++ String c post
    /\ all_chars rfork_allowed pre = true
    /\ rfork_allowed c = false
    /\ rfork_flags f z = inr c.
Proof.
  revert z. induction f as [| c f IH]; intros z H; [discriminate H |].
  cbn [all_chars] in H. destruct (rfork_allowed c) eqn:Ec.
  - cbn [andb] in H.
    assert (Hstep : exists z', rfork_flags (String c f) z = rfork_flags f z').
    { cbn [rfork_flags]. revert Ec. unfold rfork_allowed. cbn [existsb].
      rfork_char c; cbn [orb]; intros Ec; try (eexists; reflexivity).
      repeat match goal with
             | H : c <> _ |- _ => apply Ascii.eqb_neq in H; rewrite H in Ec;
                                  clear H
             end.
      discriminate Ec. }
    destruct Hstep as (z' & ->).
    destruct (IH z' H) as (pre & d & post & -> & Hpre & Hd & Hf).
    exists (String c pre), d, post. cbn [String.append all_chars].
    rewrite Ec, Hpre. repeat split; assumption.
  - exists EmptyString, c, f. repeat split; [exact Ec |].
    cbn [rfork_flags]. revert Ec. unfold rfork_allowed. cbn [existsb].
    rfork_char c; cbn [orb]; intros Ec; try discriminate Ec. reflexivity.
Qed.

(** A bit is in the flags when it was there before or its letters are in
    the string. *)
Lemma rfork_flags_envg (f : string) (z flags : Z) :
  rfork_flags f z = inl flags ->
  nz (Z.land flags RFENVG) = nz (Z.land z RFENVG) || strchr f "e".
Proof.
  revert z. induction f as [| c f IH]; intros z H; cbn [rfork_flags] in H.
  - inversion H; subst. cbn [strchr]. now rewrite orb_false_r.
  - cbn [strchr]. revert H. rfork_char c; cbn [orb]; intros H;
      try discriminate H; apply IH in H; rewrite H, ?nz_land_lor;
      try (change (nz (Z.land RFNAMEG RFENVG)) with false);
      try (change (nz (Z.land RFCNAMEG RFENVG)) with false);
      try (change (nz (Z.land RFENVG RFENVG)) with true);
      try (change (nz (Z.land RFCENVG RFENVG)) with false);
      try (change (nz (Z.land RFNOTEG RFENVG)) with false);
      try (change (nz (Z.land RFFDG RFENVG)) with false);
      try (change (nz (Z.land RFCFDG RFENVG)) with false);
      rewrite ?orb_false_r, ?orb_true_r; reflexivity.
Qed.

Lemma rfork_flags_fdg (f : string) (z flags : Z) :
  rfork_flags f z = inl flags ->
  nz (Z.land flags RFFDG) = nz (Z.land z RFFDG) || strchr f "f".
Proof.
  revert z. induction f as [| c f IH]; intros z H; cbn [rfork_flags] in H.
  - inversion H; subst. cbn [strchr]. now rewrite orb_false_r.
  - cbn [strchr]. revert H. rfork_char c; cbn [orb]; intros H;
      try discriminate H; apply IH in H; rewrite H, ?nz_land_lor;
      try (change (nz (Z.land RFNAMEG RFFDG)) with false);
      try (change (nz (Z.land RFCNAMEG RFFDG)) with false);
      try (change (nz (Z.land RFENVG RFFDG)) with false);
      try (change (nz (Z.land RFCENVG RFFDG)) with false);
      try (change (nz (Z.land RFNOTEG RFFDG)) with false);
      try (change (nz (Z.land RFFDG RFFDG)) with true);
      try (change (nz (Z.land RFCFDG RFFDG)) with false);
      rewrite ?orb_false_r, ?orb_true_r; reflexivity.
Qed.

Section RforkMore.

Context {S : Type}.
Variable os : OS S.
Variable sh : Shell.

Lemma calm_trace (text : string) (w : World S) : calm w (trace text w).
Proof. unfold trace. destruct (dashex w); repeat split. Qed.

Lemma rfork_pgrp_calm (flags : Z) (w : World S) :
  calm w (rfork_pgrp os flags w).
Proof.
  unfold rfork_pgrp. destruct (nz (Z.land flags RFNOTEG)); [| repeat split].
  destruct (os_setpgid os (sys w)) as [s [e |]]; [| repeat split].
  destruct (negb (e =? EPERM os)); [| repeat split].
  destruct (calm_trace ("rfork: setpgid: " +++ strerror os e +++ nl)
              (set_errno e (set_sys s w))) as (A & B & C).
  repeat split; assumption.
Qed.

(** The two ways [rfork] ends once the flags are read: a failure that
    left descriptors, environment and variables alone, or the environment
    and descriptor steps, in this order, on a state where they were left
    alone. *)
Lemma b_rfork_cases (name f : string) (rest : list string) (flags0 : Z)
    (w : World S) :
  rfork_flags f 0 = inl flags0 ->
  (status (b_rfork os sh (name :: f :: rest) w) = Truth false
   /\ calm w (b_rfork os sh (name :: f :: rest) w))
  \/ (exists w2,
        calm w w2
        /\ b_rfork os sh (name :: f :: rest) w
           = set true
               (rfork_fds (if flags0 =? 0 then RFNOTEG else flags0)
                  (rfork_env (if flags0 =? 0 then RFNOTEG else flags0) w2))).
Proof.
  intros Hf. unfold b_rfork. cbn [tl]. rewrite Hf.
  set (flags := if flags0 =? 0 then RFNOTEG else flags0).
  pose proof (rfork_pgrp_calm flags w) as Hc.
  set (w1 := rfork_pgrp os flags w) in *. clearbody w1.
  destruct (nz (Z.land flags RFNAMEG)); [| right; now exists w1].
  destruct (os_linux os).
  - destruct (os_unshare os (sys w1)) as [s [e |]].
    + left. split; [reflexivity |]. exact Hc.
    + right. exists (set_sys s w1). split; [exact Hc | reflexivity].
  - left. split; [reflexivity |]. exact Hc.
Qed.

Lemma rfork_env_effect (flags : Z) (w : World S) :
  fds (rfork_env flags w) = fds w
  /\ (if nz (Z.land flags RFENVG)
      then environ (rfork_env flags w) = []
           /\ varlookup "path" (rfork_env flags w)
              = ["/usr/local/bin"; "/usr/bin"; "/bin"]
      else environ (rfork_env flags w) = environ w
           /\ vars (rfork_env flags w) = vars w).
Proof.
  unfold rfork_env. destruct (nz (Z.land flags RFENVG)); repeat split.
Qed.

Lemma rfork_fds_effect (flags : Z) (w : World S) :
  environ (rfork_fds flags w) = environ w
  /\ vars (rfork_fds flags w) = vars w
  /\ forall x,
       fds (rfork_fds flags w) x
       = if nz (Z.land flags RFFDG) && ((3 <=? x) && (x <? 256))
         then false else fds w x.
Proof.
  unfold rfork_fds. destruct (nz (Z.land flags RFFDG)); [| repeat split].
  split; [| split].
  - generalize rfork_fd_range. intros l. revert w.
    induction l as [| fd l IH]; intros w; [reflexivity |].
    cbn [fold_left]. now rewrite IH.
  - generalize rfork_fd_range. intros l. revert w.
    induction l as [| fd l IH]; intros w; [reflexivity |].
    cbn [fold_left]. now rewrite IH.
  - intros x. rewrite fds_close_all, rfork_fd_range_spec. reflexivity.
Qed.

Lemma default_flags_bits (flags0 : Z) (k : Z) :
  nz (Z.land RFNOTEG k) = false ->
  nz (Z.land (if flags0 =? 0 then RFNOTEG else flags0) k)
  = nz (Z.land flags0 k).
Proof.
  intros Hk. destruct (Z.eqb_spec flags0 0) as [-> |]; [| reflexivity].
  now rewrite Hk.
Qed.

(** X21.  An unknown flag.  When the flag string has a character that is not a
    flag, [rfork] prints the diagnostic with the first such character of the
    string, the one the flags before it lead to, and does nothing else: no
    flag of the string is applied. *)
Theorem rfork_unknown_flag (name f : string) (rest : list string)
    (w : World S) :
  all_chars rfork_allowed f = false ->
  exists pre c post,
    f = pre +++ String c post
    /\ all_chars rfork_allowed pre = true
    /\ rfork_allowed c = false
    /\ b_rfork os sh (name :: f :: rest) w
       = fail (RC sh +++ "rfork: unknown flag " +++ chr c +++ nl) w.
Proof.
  intros H. destruct (rfork_flags_first f 0 H) as (pre & c & post & E & A & B & Hf).
  exists pre, c, post. repeat split; try assumption.
  unfold b_rfork. cbn [tl]. now rewrite Hf.
Qed.

Lemma b_rfork_noargs (av : list string) (w : World S) :
  tl av = [] -> b_rfork os sh av w = b_rfork os sh ["rfork"; EmptyString] w.
Proof. intros H. unfold b_rfork. rewrite H. reflexivity. Qed.

Lemma rfork_fds_bounds_args (name f : string) (rest : list string)
    (w : World S) (x : Z) :
  fds (b_rfork os sh (name :: f :: rest) w) x = fds w x
  \/ (3 <= x < 256 /\ fds (b_rfork os sh (name :: f :: rest) w) x = false).
Proof.
  destruct (rfork_flags f 0) as [flags0 | c] eqn:Hf.
  - destruct (b_rfork_cases name f rest flags0 w Hf)
      as [[_ (H & _)] | (w2 & (Hc & _) & ->)].
    + left. exact (f_equal (fun g => g x) H).
    + set (flags := if flags0 =? 0 then RFNOTEG else flags0).
      destruct (rfork_fds_effect flags (rfork_env flags w2)) as (_ & _ & Hx).
      destruct (rfork_env_effect flags w2) as [Hfe _].
      cbn [set set_status fds]. rewrite Hx, Hfe, Hc.
      destruct (nz (Z.land flags RFFDG)); [| now left].
      cbn [andb]. destruct ((3 <=? x) && (x <? 256)) eqn:E; [| now left].
      right. split; [lia | reflexivity].
  - left. unfold b_rfork. cbn [tl]. now rewrite Hf.
Qed.

(** X22.  Descriptors.  Whatever its arguments, [rfork] opens nothing and
    closes no descriptor below 3 or from 256 on. *)
Theorem rfork_fds_bounds (av : list string) (w : World S) (x : Z) :
  fds (b_rfork os sh av w) x = fds w x
  \/ (3 <= x < 256 /\ fds (b_rfork os sh av w) x = false).
Proof.
  destruct av as [| name [| f rest]].
  - rewrite (b_rfork_noargs [] w eq_refl). apply rfork_fds_bounds_args.
  - rewrite (b_rfork_noargs [name] w eq_refl). apply rfork_fds_bounds_args.
  - apply rfork_fds_bounds_args.
Qed.

(** X23.  The flag [f].  An [rfork] that reports success and had [f] among its
    flags has closed the descriptors 3 to 255 and left the others. *)
Theorem rfork_f_closes (name f : string) (rest : list string) (w : World S)
    (x : Z) :
  strchr f "f" = true ->
  status (b_rfork os sh (name :: f :: rest) w) = Truth true ->
  fds (b_rfork os sh (name :: f :: rest) w) x
  = if (3 <=? x) && (x <? 256) then false else fds w x.
Proof.
  intros Hin Hst. destruct (rfork_flags f 0) as [flags0 | c] eqn:Hf.
  2: { unfold b_rfork in Hst. cbn [tl] in Hst. rewrite Hf in Hst.
       discriminate Hst. }
  destruct (b_rfork_cases name f rest flags0 w Hf)
    as [[H _] | (w2 & (Hc & _) & He)]; [congruence |].
  rewrite He. set (flags := if flags0 =? 0 then RFNOTEG else flags0).
  destruct (rfork_fds_effect flags (rfork_env flags w2)) as (_ & _ & Hx).
  destruct (rfork_env_effect flags w2) as [Hfe _].
  cbn [set set_status fds]. rewrite Hx, Hfe, Hc.
  unfold flags. rewrite default_flags_bits by reflexivity.
  rewrite (rfork_flags_fdg f 0 flags0 Hf), Hin. reflexivity.
Qed.

(** X24.  The flag [e].  An [rfork] that reports success and had [e] among its
    flags has emptied the environment and set [$path] to the three
    default directories; one without [e] leaves the environment and every
    shell variable as they were. *)
Theorem rfork_e_clears (name f : string) (rest : list string) (w : World S) :
  status (b_rfork os sh (name :: f :: rest) w) = Truth true ->
  if strchr f "e"
  then environ (b_rfork os sh (name :: f :: rest) w) = []
       /\ varlookup "path" (b_rfork os sh (name :: f :: rest) w)
          = ["/usr/local/bin"; "/usr/bin"; "/bin"]
  else environ (b_rfork os sh (name :: f :: rest) w) = environ w
       /\ vars (b_rfork os sh (name :: f :: rest) w) = vars w.
Proof.
  intros Hst. destruct (rfork_flags f 0) as [flags0 | c] eqn:Hf.
  2: { unfold b_rfork in Hst. cbn [tl] in Hst. rewrite Hf in Hst.
       discriminate Hst. }
  destruct (b_rfork_cases name f rest flags0 w Hf)
    as [[H _] | (w2 & (_ & Hce & Hcv) & He)]; [congruence |].
  rewrite He. set (flags := if flags0 =? 0 then RFNOTEG else flags0).
  destruct (rfork_fds_effect flags (rfork_env flags w2)) as (He1 & He2 & _).
  destruct (rfork_env_effect flags w2) as [_ Henv].
  unfold varlookup. cbn [set set_status environ vars]. rewrite He1, He2.
  assert (Hbit : nz (Z.land flags RFENVG) = strchr f "e").
  { unfold flags. rewrite default_flags_bits by reflexivity.
    now rewrite (rfork_flags_envg f 0 flags0 Hf). }
  rewrite Hbit in Henv. destruct (strchr f "e").
  - exact Henv.
  - destruct Henv as [A B]. split; congruence.
Qed.

End RforkMore.

Lemma rfork_unknown_flag_witness :
  exists pre c post,
    "efx?" = pre +++ String c post
    /\ all_chars rfork_allowed pre = true
    /\ rfork_allowed c = false
    /\ b_rfork (Demo.os Demo.failing) Demo.sh ["rfork"; "efx?"]
         (Demo.world [] 400)
       = fail (RC Demo.sh +++ "rfork: unknown flag " +++ chr c +++ nl)
           (Demo.world [] 400).
Proof.
  apply (rfork_unknown_flag (Demo.os Demo.failing) Demo.sh "rfork" "efx?" []).
  reflexivity.
Defined.

(** [rfork efx?]: the diagnostic names [x], not [?], and descriptor 17
    stays open. *)
Lemma rfork_efx_example :
  out (b_rfork (Demo.os Demo.failing) Demo.sh ["rfork"; "efx?"]
         (Demo.world [] 400))
  = [Print 2 (RC Demo.sh +++ "rfork: unknown flag x" +++ nl)]
  /\ fds (b_rfork (Demo.os Demo.failing) Demo.sh ["rfork"; "efx?"]
            (Demo.world [] 400)) 17
     = fds (Demo.world [] 400) 17.
Proof. split; reflexivity. Qed.

Lemma rfork_f_closes_witness :
  fds (b_rfork (Demo.os Demo.failing) Demo.sh ["rfork"; "sef"]
         (Demo.world [] 400)) 17
  = false.
Proof.
  rewrite (rfork_f_closes (Demo.os Demo.failing) Demo.sh "rfork" "sef" []);
    reflexivity.
Defined.

Lemma rfork_e_clears_witness :
  environ (b_rfork (Demo.os Demo.failing) Demo.sh ["rfork"; "e"]
             (set_environ ["HOME=/"] (Demo.world [] 3)))
  = [].
Proof.
  apply (rfork_e_clears (Demo.os Demo.failing) Demo.sh "rfork" "e" []
           (set_environ ["HOME=/"] (Demo.world [] 3))).
  reflexivity.
Defined.

(** ** cpu: the buffers and the command line *)

Lemma length_substring_le (n : nat) (s : string) :
  (String.length (substring 0 n s) <= n)%nat
  /\ (String.length (substring 0 n s) <= String.length s)%nat.
Proof.
  revert n. induction s as [| c s IH]; intros n.
  - destruct n; cbn; lia.
  - destruct n as [| n]; cbn; [lia |]. destruct (IH n). lia.
Qed.

Lemma bprint_within (cap : Z) (b b' : Sbuf) (s : string) :
  within cap b -> bprint cap b s = Some b' -> within cap b'.
Proof.
  intros [H1 H2]. unfold bprint.
  destruct (cap <? len b); [discriminate |]. intros H. inversion H; subst b'.
  unfold within. cbn [text len].
  destruct (Z.ltb_spec (len b) cap) as [Hlt | Hge]; [| lia].
  rewrite length_append. unfold truncate.
  destruct (length_substring_le (Z.to_nat (cap - len b - 1)) s). lia.
Qed.

Lemma bprint_opt_within (cap : Z) (b : option Sbuf) (b' : Sbuf) (s : string) :
  (forall b0, b = Some b0 -> within cap b0) ->
  bprint_opt cap b s = Some b' -> within cap b'.
Proof.
  intros Hb. destruct b as [b0 |]; [| discriminate]. cbn [bprint_opt].
  apply bprint_within. now apply Hb.
Qed.

Lemma cpu_args_within (av : list string) (first : bool) (b : option Sbuf)
    (b' : Sbuf) :
  (forall b0, b = Some b0 -> within 4096 b0) ->
  cpu_args first av b = Some b' -> within 4096 b'.
Proof.
  revert first b. induction av as [| p rest IH]; intros first b Hb H.
  - cbn in H. now apply Hb.
  - cbn [cpu_args] in H. apply IH in H; [exact H |].
    intros b0 Hb0. apply bprint_opt_within in Hb0; [exact Hb0 |].
    destruct first; [exact Hb |].
    intros b1 Hb1. now apply bprint_opt_within in Hb1.
Qed.

Lemma remote_command_length (env : string) (av : list string) :
  match remote_command env av with
  | Some cmd => (String.length cmd <= 4095)%nat
  | None => True
  end.
Proof.
  unfold remote_command.
  destruct (cpu_args true av _) as [b |] eqn:E; [| exact I].
  apply cpu_args_within in E; [destruct E; lia |].
  intros b0 H. inversion H; subst b0. unfold within. cbn [text len].
  unfold truncate. destruct (length_substring_le (Z.to_nat (4096 - 1)) env).
  lia.
Qed.

(** X25.  Whatever the preamble and the arguments, a remote command that is
    produced is shorter than the 4096 bytes of the array it is copied
    from. *)
Theorem remote_command_bounded (env : string) (av : list string) :
  match remote_command env av with
  | Some cmd => (String.length cmd <= 4095)%nat
  | None => True
  end.
Proof. apply remote_command_length. Qed.

Lemma path_words_fits (ws : list string) (t : string) :
  Z.of_nat (String.length t + String.length (String.concat ":" ws)) < 8192 ->
  path_words ws (Some (exact t)) = Some (exact (t +++ String.concat ":" ws)).
Proof.
  revert t. induction ws as [| x n IH]; intros t H.
  - cbn. now rewrite append_nil_r.
  - cbn [path_words]. destruct n as [| y n].
    + cbn [String.concat] in *. cbn [bprint_opt path_words].
      rewrite append_nil_r. now apply bprint_fits.
    + change (String.concat ":" (x :: y :: n))
        with (x +++ ":" +++ String.concat ":" (y :: n)) in *.
      rewrite !length_append in H. cbn [bprint_opt].
      rewrite bprint_fits by (rewrite length_append; lia).
      rewrite IH by (rewrite !length_append; lia).
      now rewrite !append_assoc.
Qed.

Section Cpu.

Context {S : Type}.
Variable os : OS S.
Variable sh : Shell.

(** X26.  The preamble.  With [$path] set and short enough for [envbuf], the
    preamble is [PATH=], the words of [$path] with colons between them, a
    semicolon and a space. *)
Theorem envbuf_path (x : string) (ws : list string) (w : World S) :
  varlookup "path" w = x :: ws ->
  Z.of_nat (String.length ("PATH=" +++ String.concat ":" (x :: ws) +++ "; "))
  < 8192 ->
  envbuf w = Some ("PATH=" +++ String.concat ":" (x :: ws) +++ "; ").
Proof.
  intros Hp Hlen. unfold envbuf. rewrite Hp.
  rewrite !length_append in Hlen.
  change (mkSbuf EmptyString 0) with (exact EmptyString).
  rewrite bprint_fits by (cbn [String.length] in *; lia).
  cbn [String.append]. rewrite path_words_fits by lia.
  cbn [bprint_opt]. rewrite bprint_fits by (rewrite length_append; lia).
  cbn [text exact]. now rewrite append_assoc.
Qed.

Lemma print_all_sys (fd : Z) (lines : list string) (w : World S) :
  sys (print_all fd lines w) = sys w.
Proof.
  unfold print_all. revert w.
  induction lines as [| l lines IH]; intros w; cbn [fold_left];
    [reflexivity |].
  now rewrite IH.
Qed.

(** The status [run_cmd] returns is the wait status of the child, or -1
    when there was none. *)
Lemma run_cmd_status (argv : list string) (w : World S) :
  snd (run_cmd os argv w)
  = match os_spawn os (sys w) argv with
    | Some (_, st) => st
    | None => -1
    end.
Proof.
  unfold run_cmd. destruct (os_spawn os (sys w) argv) as [[s st] |];
    reflexivity.
Qed.

(** [cpu] with a host, a command and a command line that stays in its
    buffers: one [ssh] is launched and its wait status is the status of the
    shell. *)
Lemma cpu_launch (av : list string) (w : World S) (host user : option string)
    (agent : bool) (h : string) (cmd : list string) (env remote : string) :
  cpu_options (tl av) None None false = Ok (host, user, agent, cmd) ->
  cmd <> [] ->
  (host = Some h \/ (host = None /\ hd_error (varlookup "cpu" w) = Some h)) ->
  envbuf w = Some env ->
  remote_command env cmd = Some remote ->
  exists w',
    b_cpu os sh av w = Some w'
    /\ launches (out w') = launches (out w) ++ [ssh_cmd agent user h remote]
    /\ status w'
       = Waited match os_spawn os (sys w) (ssh_cmd agent user h remote) with
                | Some (_, st) => st
                | None => -1
                end.
Proof.
  intros Hp Hne Hh He Hr. destruct cmd as [| c0 cmd]; [congruence |].
  unfold b_cpu. rewrite Hp.
  assert (Hh' : match host with
                | Some h0 => Some h0
                | None => match varlookup "cpu" w with
                          | x :: _ => Some x
                          | [] => None
                          end
                end = Some h).
  { destruct Hh as [-> | [-> Hv]]; [reflexivity |].
    destruct (varlookup "cpu" w); [discriminate Hv | exact Hv]. }
  rewrite Hh'. unfold cpu_run. rewrite He, Hr.
  set (argv := ssh_cmd agent user h remote).
  set (w1 := if dashex w then _ else w).
  assert (L1 : launches (out w1) = launches (out w) /\ sys w1 = sys w).
  { unfold w1. destruct (dashex w); [| now split]. split.
    - rewrite launches_fprint, out_print_all, launches_app, launches_prints.
      now rewrite launches_fprint, app_nil_r.
    - cbn [fprint emit sys]. now rewrite print_all_sys. }
  destruct L1 as [L1 S1]. clearbody w1.
  pose proof (launches_run_cmd os argv w1) as L2.
  pose proof (run_cmd_status argv w1) as L3.
  destruct (run_cmd os argv w1) as [w2 st]. cbn [fst snd] in L2, L3.
  eexists. split; [reflexivity |]. split.
  - cbn [emit set_status out]. rewrite launches_app. cbn [launches flat_map].
    rewrite app_nil_r, L2, L1. reflexivity.
  - cbn [emit set_status status]. rewrite L3, S1. reflexivity.
Qed.

(** X27.  [cpu] launches at most one program.  When it launches none it has
    reported failure.  When it launches one there was a host, from [-h] or
    else the first word of [$cpu], and a command after the options; the
    program is [ssh] in batch mode, with [-A] and [-l user] as the options
    gave them, then that host, then the command line made of the preamble
    and that command, which is shorter than 4096 bytes; and the status of
    the shell is the wait status of that [ssh], or -1 when the fork
    failed. *)
Theorem cpu_outcome (av : list string) (w : World S) :
  match b_cpu os sh av w with
  | None => True
  | Some w' =>
      table w' = table w
      /\ ((status w' = Truth false /\ launches (out w') = launches (out w))
          \/ exists (agent : bool) (user host : option string) (h : string)
                    (args : list string) (env cmd : string),
              let argv :=
                ["ssh"] ++ (if agent then ["-A"] else [])
                  ++ ["-o"; "BatchMode=yes"]
                  ++ match user with Some u => ["-l"; u] | None => [] end
                  ++ [h; cmd] in
              cpu_options (tl av) None None false
              = Ok (host, user, agent, args)
              /\ args <> []
              /\ (host = Some h
                  \/ (host = None /\ hd_error (varlookup "cpu" w) = Some h))
              /\ envbuf w = Some env
              /\ remote_command env args = Some cmd
              /\ launches (out w') = launches (out w) ++ [argv]
              /\ (String.length cmd <= 4095)%nat
              /\ status w'
                 = Waited match os_spawn os (sys w) argv with
                          | Some (_, st) => st
                          | None => -1
                          end)
  end.
Proof.
  destruct (b_cpu os sh av w) as [w' |] eqn:E; [| exact I].
  split; [exact (table_b_cpu os sh av w w' E) |].
  destruct (cpu_options (tl av) None None false)
    as [[[[host user] agent] cmd] | c | c] eqn:Ep;
    try (unfold b_cpu in E; rewrite Ep in E; inversion E; subst w'; left;
         split; [reflexivity | apply launches_fail]).
  assert (Hhost : (exists h,
                     host = Some h
                     \/ (host = None
                         /\ hd_error (varlookup "cpu" w) = Some h))
                  \/ (host = None /\ varlookup "cpu" w = [])).
  { destruct host as [h |]; [left; exists h; now left |].
    destruct (varlookup "cpu" w) as [| x l]; [now right |].
    left. exists x. right. now split. }
  destruct Hhost as [(h & Hh) | (-> & Hv)].
  2: { unfold b_cpu in E. rewrite Ep, Hv in E. inversion E; subst w'.
       left. split; [reflexivity | apply launches_fail]. }
  assert (Hh' : match host with
                | Some h0 => Some h0
                | None => match varlookup "cpu" w with
                          | x :: _ => Some x
                          | [] => None
                          end
                end = Some h).
  { destruct Hh as [-> | [-> Hv]]; [reflexivity |].
    destruct (varlookup "cpu" w); [discriminate Hv | exact Hv]. }
  pose proof E as E0. unfold b_cpu in E0. rewrite Ep, Hh' in E0.
  destruct cmd as [| c0 cmd].
  { inversion E0; subst w'. left. split; [reflexivity | apply launches_fail]. }
  unfold cpu_run in E0.
  destruct (envbuf w) as [env |] eqn:He; [| discriminate E0].
  pose proof (remote_command_length env (c0 :: cmd)) as Hb.
  destruct (remote_command env (c0 :: cmd)) as [remote |] eqn:Hr;
    [| discriminate E0].
  clear E0.
  destruct (cpu_launch av w host user agent h (c0 :: cmd) env remote Ep
              ltac:(discriminate) Hh He Hr) as (w'' & E' & Hl & Hs).
  rewrite E in E'. inversion E'; subst w''.
  right. exists agent, user, host, h, (c0 :: cmd), env, remote. cbv zeta.
  split; [reflexivity |]. split; [discriminate |]. split; [exact Hh |].
  split; [first [exact He | reflexivity] |].
  split; [first [exact Hr | reflexivity] |]. split; [exact Hl |].
  split; [exact Hb | exact Hs].
Qed.

(** C7, as amended.  A [cpu] with a host and a command: when the preamble
    followed by the arguments of the command, single spaces between them,
    each argument that has a space or a tab between single quotes and each
    other argument as it is, fits the 4096 bytes of [cmdbuf], that text is
    the remote command, and [cpu] launches [ssh] with it as the last
    argument. *)
Theorem cpu_quotes_space_and_tab (av : list string) (w : World S)
    (host user : option string) (agent : bool) (h env : string)
    (cmd words : list string) :
  cpu_options (tl av) None None false = Ok (host, user, agent, cmd) ->
  cmd <> [] ->
  (host = Some h \/ (host = None /\ hd_error (varlookup "cpu" w) = Some h)) ->
  envbuf w = Some env ->
  Forall2 passed_as cmd words ->
  Z.of_nat (String.length (env +++ String.concat " " words)) < 4096 ->
  remote_command env cmd = Some (env +++ String.concat " " words)
  /\ exists w',
       b_cpu os sh av w = Some w'
       /\ launches (out w')
          = launches (out w)
            ++ [["ssh"] ++ (if agent then ["-A"] else [])
                  ++ ["-o"; "BatchMode=yes"]
                  ++ match user with Some u => ["-l"; u] | None => [] end
                  ++ [h; env +++ String.concat " " words]].
Proof.
  intros Hp Hne Hh He Hw Hlen.
  apply cpu_args_passed in Hw. subst words.
  pose proof (remote_command_fits env cmd Hlen) as Hr.
  split; [exact Hr |].
  destruct (cpu_launch av w host user agent h cmd env _ Hp Hne Hh He Hr)
    as (w' & E & Hl & _).
  exists w'. split; [exact E | exact Hl].
Qed.

End Cpu.

Ltac listed := solve [repeat (first [left; reflexivity | right])].

Ltac is_passed :=
  split;
  [ intros [H | H]; first [reflexivity | exfalso; cbn in H; intuition discriminate]
  | intros H; first [reflexivity
                    | exfalso; apply H; first [left; cbn; listed
                                              | right; cbn; listed]] ].

(** [cpu -h host echo 'a b' 'c<tab>d' e] with [$path] set to
    [/bin /usr/bin]. *)
Lemma cpu_quotes_space_and_tab_witness :
  remote_command "PATH=/bin:/usr/bin; "
    ["echo"; "a b"; "c" +++ ht +++ "d"; "e"]
  = Some ("PATH=/bin:/usr/bin; echo 'a b' 'c" +++ ht +++ "d' e")
  /\ exists w',
       b_cpu (Demo.os Demo.failing) Demo.sh
         ["cpu"; "-h"; "host"; "echo"; "a b"; "c" +++ ht +++ "d"; "e"]
         (varassign "path" ["/bin"; "/usr/bin"] (Demo.world [] 3))
       = Some w'
       /\ launches (out w')
          = [["ssh"; "-o"; "BatchMode=yes"; "host";
              "PATH=/bin:/usr/bin; echo 'a b' 'c" +++ ht +++ "d' e"]].
Proof.
  apply (cpu_quotes_space_and_tab (Demo.os Demo.failing) Demo.sh
           ["cpu"; "-h"; "host"; "echo"; "a b"; "c" +++ ht +++ "d"; "e"]
           (varassign "path" ["/bin"; "/usr/bin"] (Demo.world [] 3))
           (Some "host") None false "host" "PATH=/bin:/usr/bin; "
           ["echo"; "a b"; "c" +++ ht +++ "d"; "e"]
           ["echo"; "'a b'"; "'c" +++ ht +++ "d'"; "e"]).
  - reflexivity.
  - discriminate.
  - left. reflexivity.
  - reflexivity.
  - repeat (constructor; [is_passed |]). constructor.
  - reflexivity.
Defined.

Lemma envbuf_path_witness :
  envbuf (varassign "path" ["/bin"; "/usr/bin"] (Demo.world [] 3))
  = Some "PATH=/bin:/usr/bin; ".
Proof.
  apply (envbuf_path "/bin" ["/usr/bin"]); reflexivity.
Defined.

(** ** srv and ns *)

Ltac out_fin :=
  unfold unlink;
  cbn [set_sys set_errno emit fprint fail set set_status varassign out vars
       status];
  rewrite ?launches_app, ?spawns_app;
  cbn [launches spawns flat_map app];
  rewrite ?app_nil_r; try split; congruence.

Section SrvNs.

Context {S : Type}.
Variable os : OS S.
Variable sh : Shell.

Lemma prints_only (lines : list string) (evs0 : list Event) :
  launches (evs0 ++ map (Print 1) lines) = launches evs0
  /\ spawns (evs0 ++ map (Print 1) lines) = spawns evs0.
Proof.
  rewrite launches_app, spawns_app.
  assert (H : launches (map (Print 1) lines) = []
              /\ spawns (map (Print 1) lines) = []).
  { induction lines; [now split | assumption]. }
  destruct H as [-> ->]. now rewrite !app_nil_r.
Qed.

Lemma srv_scan_vars (names : list string) (found : bool) (w : World S) :
  vars (fst (srv_scan os names found w)) = vars w
  /\ sys (fst (srv_scan os names found w)) = sys w.
Proof.
  revert found w. induction names as [| d_name rest IH]; intros found w;
    [now split |].
  cbn [srv_scan]. destruct (dotted d_name); [apply IH |].
  pose proof (stat_untouched os (truncate 4096 (SRV_DIR +++ "/" +++ d_name)) w)
    as [(_ & V & _) Sy].
  destruct (stat os _ w) as [w1 [k |]]; cbn [fst] in V, Sy.
  - match goal with
    | |- context [srv_scan os rest true ?w0] => destruct (IH true w0) as [A B]
    end.
    rewrite A, B. cbn. now split.
  - destruct (IH found w1) as [A B]. rewrite A, B. now split.
Qed.

Lemma ensure_srvdir_untouched (w : World S) :
  untouched w (ensure_srvdir os w).
Proof.
  unfold ensure_srvdir. pose proof (stat_untouched os SRV_DIR w) as [H1 _].
  destruct (stat os SRV_DIR w) as [w1 r]. cbn [fst] in H1.
  destruct (exists_ r); [exact H1 |].
  exact (untouched_trans _ _ _ H1 (mkdir_untouched os SRV_DIR w1)).
Qed.

(** X28.  [srv] never calls [run_cmd] and never changes the table, whatever
    its arguments.  It starts a worker only as the last step of a create
    that reports success: the worker is the one [rc_fork] made for the
    command and the FIFO of the service, in the system as [unlink] and
    [mkfifo] left it, its pid is not negative and [$apid] holds that pid
    in decimal.  In every other case no worker is started and [$apid] is
    as it was. *)
Theorem srv_outcome (av : list string) (w : World S) :
  launches (out (b_srv os sh av w)) = launches (out w)
  /\ table (b_srv os sh av w) = table w
  /\ ((spawns (out (b_srv os sh av w)) = spawns (out w)
       /\ vars (b_srv os sh av w) "apid" = vars w "apid")
      \/ exists (name c0 : string) (cmd : list string),
          let srvpath := truncate 4096 (SRV_DIR +++ "/" +++ name) in
          let s0 :=
            sys (fst (mkfifo os srvpath
                        (unlink os srvpath (ensure_srvdir os w)))) in
          let pid := snd (os_fork os s0 srvpath (c0 :: cmd)) in
          r_options (tl av) false = inl (false, name :: c0 :: cmd)
          /\ spawns (out (b_srv os sh av w))
             = spawns (out w) ++ [(c0 :: cmd, srvpath, pid)]
          /\ 0 <= pid
          /\ vars (b_srv os sh av w) "apid" = [decimal pid]
          /\ sys (b_srv os sh av w) = fst (os_fork os s0 srvpath (c0 :: cmd))
          /\ status (b_srv os sh av w) = Truth true).
Proof.
  split; [| split; [apply table_b_srv |]].
  - unfold b_srv.
    destruct (r_options (tl av) false) as [[remove rest] | c];
      [| apply launches_fail].
    destruct (ensure_srvdir_untouched w) as (_ & _ & _ & _ & O0).
    set (w0 := ensure_srvdir os w) in *. clearbody w0.
    destruct rest as [| name cmd].
    + destruct remove; cbn [negb];
        [out_fin |].
      unfold srv_list.
      assert (K : launches
                    (out (fst match os_readdir os (sys w0) SRV_DIR with
                              | Some names => srv_scan os names false w0
                              | None => (w0, false)
                              end)) = launches (out w0)).
      { destruct (os_readdir os (sys w0) SRV_DIR) as [names |];
          [| reflexivity].
        destruct (srv_scan_prints os names false w0) as (lines & ->).
        apply prints_only. }
      destruct (match os_readdir os (sys w0) SRV_DIR with
                | Some names => srv_scan os names false w0
                | None => (w0, false)
                end) as [w1 found].
      cbn [fst] in K. destruct found; cbn [negb]; out_fin.
    + set (srvpath := truncate 4096 (SRV_DIR +++ "/" +++ name)).
      destruct remove.
      { unfold srv_remove.
        pose proof (stat_untouched os srvpath w0) as [(_ & _ & _ & _ & O1) _].
        destruct (stat os srvpath w0) as [w1 r]. cbn [fst] in O1.
        destruct (negb (exists_ r)); [out_fin |].
        cbn [set set_status out].
        destruct (out_trace ("srv: removed " +++ name +++ nl)
                    (unlink os srvpath w1)) as [-> _].
        out_fin. }
      destruct cmd as [| c0 cmd].
      { unfold srv_connect.
        pose proof (stat_untouched os srvpath w0) as [(_ & _ & _ & _ & O1) _].
        destruct (stat os srvpath w0) as [w1 r]. cbn [fst] in O1.
        destruct (exists_ r); out_fin. }
      unfold srv_create.
      assert (O2 : out (fst (mkfifo os srvpath (unlink os srvpath w0)))
                   = out w0).
      { unfold mkfifo. destruct (os_mkfifo os _ srvpath) as [s [e |]];
          reflexivity. }
      destruct (mkfifo os srvpath (unlink os srvpath w0)) as [w2 failed].
      cbn [fst] in O2. destruct failed; [out_fin |].
      destruct (os_fork os (sys w2) srvpath (c0 :: cmd)) as [s pid].
      destruct (pid <? 0).
      * out_fin.
      * cbn [set set_status varassign out].
        match goal with
        | |- context [trace ?t ?w3] => destruct (out_trace t w3) as [-> _]
        end.
        out_fin.
  - unfold b_srv.
    destruct (r_options (tl av) false) as [[remove rest] | c] eqn:Ep;
      [| left; out_fin].
    destruct (ensure_srvdir_untouched w) as (_ & V0 & _ & _ & O0).
    remember (ensure_srvdir os w) as w0 eqn:Ew0.
    destruct rest as [| name cmd].
    + left. destruct remove; cbn [negb].
      { out_fin. }
      unfold srv_list.
      assert (K : spawns
                    (out (fst match os_readdir os (sys w0) SRV_DIR with
                              | Some names => srv_scan os names false w0
                              | None => (w0, false)
                              end)) = spawns (out w0)
                  /\ vars (fst match os_readdir os (sys w0) SRV_DIR with
                               | Some names => srv_scan os names false w0
                               | None => (w0, false)
                               end) = vars w0).
      { destruct (os_readdir os (sys w0) SRV_DIR) as [names |];
          [| now split].
        split; [| apply srv_scan_vars].
        destruct (srv_scan_prints os names false w0) as (lines & ->).
        apply prints_only. }
      destruct (match os_readdir os (sys w0) SRV_DIR with
                | Some names => srv_scan os names false w0
                | None => (w0, false)
                end) as [w1 found].
      cbn [fst] in K. destruct K as [K1 K2].
      destruct found; cbn [negb]; out_fin.
    + set (srvpath := truncate 4096 (SRV_DIR +++ "/" +++ name)).
      destruct remove.
      { left. unfold srv_remove.
        pose proof (stat_untouched os srvpath w0) as [(_ & V1 & _ & _ & O1) _].
        destruct (stat os srvpath w0) as [w1 r]. cbn [fst] in O1, V1.
        destruct (negb (exists_ r)).
        - out_fin.
        - cbn [set set_status out vars].
          destruct (out_trace ("srv: removed " +++ name +++ nl)
                      (unlink os srvpath w1)) as [_ ->].
          destruct (vars_trace ("srv: removed " +++ name +++ nl)
                      (unlink os srvpath w1)) as [-> _].
          out_fin. }
      destruct cmd as [| c0 cmd].
      { left. unfold srv_connect.
        pose proof (stat_untouched os srvpath w0) as [(_ & V1 & _ & _ & O1) _].
        destruct (stat os srvpath w0) as [w1 r]. cbn [fst] in O1, V1.
        destruct (exists_ r).
        - cbn [set set_status fprint emit varassign out vars].
          rewrite spawns_app. cbn [spawns flat_map]. rewrite app_nil_r.
          split; [congruence |].
          replace (String.eqb "apid" (truncate 256 ("srv_" +++ name)))
            with false; [congruence |].
          symmetry. apply String.eqb_neq. intros H.
          apply (f_equal (fun s => String.get 0 s)) in H.
          unfold truncate in H. cbn in H. discriminate H.
        - out_fin. }
      unfold srv_create.
      assert (O2 : out (fst (mkfifo os srvpath (unlink os srvpath w0)))
                   = out w0
                   /\ vars (fst (mkfifo os srvpath (unlink os srvpath w0)))
                      = vars w0).
      { unfold mkfifo. destruct (os_mkfifo os _ srvpath) as [s [e |]];
          now split. }
      destruct (mkfifo os srvpath (unlink os srvpath w0)) as [w2 failed]
        eqn:Emk.
      cbn [fst] in O2. destruct O2 as [O2 V2].
      destruct failed.
      { left. out_fin. }
      destruct (os_fork os (sys w2) srvpath (c0 :: cmd)) as [s pid] eqn:Ef.
      destruct (Z.ltb_spec pid 0).
      * left. out_fin.
      * right. exists name, c0, cmd. cbv zeta. fold srvpath. rewrite Emk. cbn [fst]. rewrite Ef. cbn [fst snd].
        split; [reflexivity |].
        cbn [set set_status varassign out vars status sys].
        match goal with
        | |- context [trace ?t ?w3] =>
            destruct (out_trace t w3) as [_ ->];
            destruct (vars_trace t w3) as [_ ->]
        end.
        cbn [emit set_sys out sys]. rewrite spawns_app.
        cbn [spawns flat_map app].
        rewrite O2, O0. repeat split. exact H.
Qed.

Lemma r_options_plain (name : string) :
  dash name = None ->
  r_options [name] false = inl (false, [name])
  /\ r_options ["-r"; name] false = inl (true, [name]).
Proof.
  intros H. split.
  - cbn [r_options]. now rewrite H.
  - cbn [r_options]. change (dash "-r") with (Some "r").
    change (r_flags "r" false) with (@inl bool ascii true).
    cbn [r_options]. now rewrite H.
Qed.

(** X29.  A service that is not there.  When nothing is at the path of the
    service, connecting to it fails and sets no variable, and removing it
    fails and unlinks nothing. *)
Theorem srv_missing (cmdname name : string) (e : Z) (w : World S) :
  dash name = None ->
  os_stat os (sys (ensure_srvdir os w))
    (truncate 4096 (SRV_DIR +++ "/" +++ name)) = inr e ->
  (status (b_srv os sh [cmdname; name] w) = Truth false
   /\ vars (b_srv os sh [cmdname; name] w) = vars w
   /\ sys (b_srv os sh [cmdname; name] w) = sys (ensure_srvdir os w))
  /\ (status (b_srv os sh [cmdname; "-r"; name] w) = Truth false
      /\ vars (b_srv os sh [cmdname; "-r"; name] w) = vars w
      /\ sys (b_srv os sh [cmdname; "-r"; name] w) = sys (ensure_srvdir os w)).
Proof.
  intros Hd He. destruct (r_options_plain name Hd) as [H1 H2].
  destruct (ensure_srvdir_untouched w) as (_ & V0 & _).
  unfold b_srv. cbn [tl]. rewrite H1, H2.
  unfold srv_connect, srv_remove, stat. rewrite He. cbn [exists_ negb].
  repeat split; cbn; exact V0.
Qed.

(** X30.  What [ns] prints.  With [-r] it prints the replay line of every entry
    of the table, in the order of the buckets and chains, and nothing
    else.  Without [-r] it prints the line of every entry in the same
    order when there is one; with an empty table it prints the system
    mounts from [/proc/mounts], or launches [mount] when that file cannot
    be opened.  Either way it reports success. *)
Theorem ns_output (cmdname : string) (w : World S) :
  out (b_ns os sh [cmdname; "-r"] w)
  = out w ++ map (fun b => Print 1 (ns_line sh true b)) (entries (table w))
  /\ status (b_ns os sh [cmdname; "-r"] w) = Truth true
  /\ status (b_ns os sh [cmdname] w) = Truth true
  /\ match entries (table w) with
     | [] =>
         out (b_ns os sh [cmdname] w)
         = match os_readfile os (sys w) "/proc/mounts" with
           | Some mounts =>
               out w ++ [Print 1 ("# system mounts:" +++ nl); Print 1 mounts]
           | None => out (fst (run_cmd os ["mount"] w))
           end
     | es =>
         out (b_ns os sh [cmdname] w)
         = out w ++ map (fun b => Print 1 (ns_line sh false b)) es
     end.
Proof.
  assert (Hr : r_options ["-r"] false = inl (true, [])) by reflexivity.
  unfold b_ns. cbn [tl]. rewrite Hr. cbn [r_options].
  rewrite andb_false_r. cbn [set set_status out status].
  rewrite out_print_all, map_map.
  split; [reflexivity |]. split; [reflexivity |]. split; [reflexivity |].
  destruct (entries (table w)) as [| b es] eqn:E.
  - cbn [List.length map print_all fold_left]. cbn [Z.of_nat Z.eqb negb andb].
    destruct (os_readfile os (sys w) "/proc/mounts"); [| reflexivity].
    cbn [fprint emit out]. now rewrite <- app_assoc.
  - replace (Z.of_nat (List.length (b :: es)) =? 0) with false
      by (symmetry; apply Z.eqb_neq; cbn [List.length]; lia).
    cbn [andb]. now rewrite out_print_all, map_map.
Qed.

End SrvNs.

Lemma srv_missing_witness :
  status (b_srv (Demo.os Demo.failing) Demo.sh ["srv"; "-r"; "foo"]
            (Demo.world [] 3))
  = Truth false.
Proof.
  apply (srv_missing (Demo.os Demo.failing) Demo.sh "srv" "foo" Demo.ENOENT
           (Demo.world [] 3)); reflexivity.
Defined.

(** [srv echo cat] where [/tmp] is a directory: the service directory and
    the FIFO are made, the worker runs [cat] on the FIFO and [$apid] is
    its pid. *)
Lemma srv_create_example :
  spawns (out (b_srv (Demo.os Demo.failing) Demo.sh ["srv"; "echo"; "cat"]
                 (Demo.world [("/tmp", KDir)] 3)))
  = [(["cat"], "/tmp/rc-srv/echo", 4242)]
  /\ vars (b_srv (Demo.os Demo.failing) Demo.sh ["srv"; "echo"; "cat"]
             (Demo.world [("/tmp", KDir)] 3)) "apid"
     = ["4242"]
  /\ sys (b_srv (Demo.os Demo.failing) Demo.sh ["srv"; "echo"; "cat"]
            (Demo.world [("/tmp", KDir)] 3))
     = [("/tmp", KDir); ("/tmp/rc-srv", KDir); ("/tmp/rc-srv/echo", KFifo)].
Proof. vm_compute. repeat split. Qed.

Lemma bind_missing_source_witness :
  status (bind_at (Demo.os Demo.failing) Demo.sh BIND_REPLACE "/gone" "/mnt"
            (Demo.world [("/mnt", KDir)] 3))
  = Truth false.
Proof.
  rewrite (bind_missing_source (Demo.os Demo.failing) Demo.sh BIND_REPLACE
             "/gone" "/mnt" Demo.ENOENT);
    reflexivity.
Defined.
